(** * La Arboleda Club: the menu subsystem

    A shallow embedding of the page scripts that load, cache, filter and
    render the restaurant menu and show a dish in a modal dialog
    (menu-loader.js, menu-filters.js and modal.js), with the properties of
    the specification stated over it.

    Conventions of the embedding.
    - A JavaScript value that came out of [JSON.parse] or [response.json()]
      is a [json]; [undefined] is the [None] of [option json].
    - A number is a finite decimal, exact.  The scripts subtract two
      timestamps and compare the difference with a constant, and print
      prices; on integers below 2^53 and on decimals of at most 15
      digits this is what the engine's doubles do, and [Number_toString]
      prints them as the engine does, in exponent notation from 10^21 on
      and below 10^-6.  Infinities and rounding are outside the model.
    - A string is the list of its code units, each below 256: a text of
      the characters of ISO 8859-1.
    - An object is the list of its own enumerable properties in the order
      [Object.keys] lists them (the order of insertion, for names that are
      not array indices).  [get] reads a property under a name that no
      prototype defines; [lookup] reads under any name, an own property
      first and then what the value inherits from its prototype and from
      [Object.prototype], as a page without other scripts has them.
    - Converting a value to a string or to a number calls its [toString];
      for an object with an own property of that name (which, out of
      JSON, is no function) the conversion throws a TypeError.
    - A thrown exception keeps the state reached so far: a script is a
      function [Page -> Page * result A].
    - The elements the scripts look up by id are fields of the page, [None]
      when the document does not have them; what is written to the console
      is not kept.
    - [await] and timers: time passes in [sleep], which runs the callbacks
      that are due; a handler runs to its end before anything else does. *)

From Stdlib Require Import ZArith String Ascii List Bool Lia.
From stdpp Require Import base option list strings pretty gmap.

Set Warnings "-register-all".
Local Open Scope Z_scope.

(** ** Exceptions *)

(** An [Error] object; the scripts read only its [message]. *)
Record exn := Error { message : string }.

Inductive result (A : Type) : Type :=
| Ok (a : A)
| Throw (e : exn).
Arguments Ok {A} a.
Arguments Throw {A} e.

#[global] Instance result_ret : MRet result := fun A a => Ok a.
#[global] Instance result_bind : MBind result := fun A B f m =>
  match m with
  | Ok a => f a
  | Throw e => Throw e
  end.

(** ** JavaScript values *)
Module Js.

(** [Dec m k] is the number [m / 10^k]. *)
Record decimal := Dec { mantissa : Z; scale : nat }.

Definition of_Z (z : Z) : decimal := Dec z 0.

(** The result of an arithmetic operation: a finite number or NaN. *)
Inductive number :=
| NaN
| Fin (d : decimal).

Definition pow10 (k : nat) : Z := 10 ^ Z.of_nat k.

(** Both mantissas at the larger of the two scales. *)
Definition align (a b : decimal) : Z * Z * nat :=
  let k := Nat.max (scale a) (scale b) in
  (mantissa a * pow10 (k - scale a), mantissa b * pow10 (k - scale b), k).

Definition dec_sub (a b : decimal) : decimal :=
  let '(x, y, k) := align a b in Dec (x - y) k.

Definition dec_gtb (a b : decimal) : bool :=
  let '(x, y, _) := align a b in y <? x.

(** [a - b]: NaN as soon as an operand is. *)
Definition sub (a b : number) : number :=
  match a, b with
  | Fin x, Fin y => Fin (dec_sub x y)
  | _, _ => NaN
  end.

(** [a > b]: every comparison with NaN is false. *)
Definition gt (a b : number) : bool :=
  match a, b with
  | Fin x, Fin y => dec_gtb x y
  | _, _ => false
  end.

(** Trailing zeros of the fraction are not part of the number. *)
Fixpoint strip (m : Z) (k : nat) : decimal :=
  match k with
  | O => Dec m 0
  | S k' => if m mod 10 =? 0 then strip (m / 10) k' else Dec m k
  end.

Definition canonical (d : decimal) : decimal := strip (mantissa d) (scale d).

Fixpoint zeros (n : nat) : string :=
  match n with
  | O => ""
  | S n' => String "0" (zeros n')
  end.

(** Plain decimal notation: 12, -3, 12.5, 0.05. *)
Definition plain_notation (c : decimal) : string :=
  match scale c with
  | O => pretty (mantissa c)
  | S _ as k =>
      let a := Z.abs (mantissa c) in
      let frac := pretty (a mod pow10 k) in
      (if mantissa c <? 0 then "-" else "") +:+ pretty (a / pow10 k) +:+ "." +:+
      zeros (k - String.length frac) +:+ frac
  end.

Fixpoint drop_zeros (l : list ascii) : list ascii :=
  match l with
  | c :: rest => if Ascii.eqb c "0" then drop_zeros rest else l
  | [] => []
  end.

(** Exponent notation: 1e+21, 1.5e+22, 1e-7, -2.5e-7.  [n] is the place of
    the decimal point, counted from the first digit. *)
Definition exponent_notation (c : decimal) (n : Z) : string :=
  let digits := rev (drop_zeros (rev (list_ascii_of_string (pretty (Z.abs (mantissa c)))))) in
  (if mantissa c <? 0 then "-" else "") +:+
  match digits with
  | [] => "0"
  | [first] => String first ""
  | first :: rest => String first "." +:+ string_of_list_ascii rest
  end +:+ "e" +:+ (if 0 <=? n - 1 then "+" else "-") +:+ pretty (Z.abs (n - 1)).

(** Number::toString: plain notation for a number from 1e-6 to below 1e21
    (and for 0), exponent notation for the others. *)
Definition Number_toString (d : decimal) : string :=
  let c := canonical d in
  let n := Z.of_nat (String.length (pretty (Z.abs (mantissa c)))) - Z.of_nat (scale c) in
  if (-6 <? n) && (n <=? 21) then plain_notation c else exponent_notation c n.

Inductive json :=
| JNull
| JBool (b : bool)
| JNum (d : decimal)
| JStr (s : string)
| JArr (items : list json)
| JObj (props : list (string * json)).

(** ToBoolean. *)
Definition truthy (v : json) : bool :=
  match v with
  | JNull => false
  | JBool b => b
  | JNum d => negb (mantissa d =? 0)
  | JStr s => negb (String.eqb s "")
  | JArr _ | JObj _ => true
  end.

(** ToBoolean of a value that may be [undefined]. *)
Definition truthy_opt (v : option json) : bool :=
  match v with
  | None => false
  | Some x => truthy x
  end.

(** [typeof v === 'object']: true of null, arrays and objects. *)
Definition typeof_object (v : json) : bool :=
  match v with
  | JNull | JArr _ | JObj _ => true
  | JBool _ | JNum _ | JStr _ => false
  end.

(** First own property named [k]. *)
Fixpoint own (props : list (string * json)) (k : string) : option json :=
  match props with
  | [] => None
  | (k', v) :: rest => if String.eqb k' k then Some v else own rest k
  end.

(** The element whose index prints as [k]. *)
Fixpoint at_index {A : Type} (l : list A) (i : nat) (k : string) : option A :=
  match l with
  | [] => None
  | x :: rest => if String.eqb (pretty i) k then Some x else at_index rest (S i) k
  end.

Definition chars (s : string) : list json :=
  (fun a => JStr (String a "")) <$> list_ascii_of_string s.

(** [v.k] for one of the names the scripts spell out ([nombre], [imagen],
    [precio], [descripcion], [timestamp], [data], [length]): no prototype
    has a member of these names that the value does not have itself, so
    the read finds an own property (an element, the length) or nothing.
    Reading a property of null throws a TypeError. *)
Definition get (v : json) (k : string) : result (option json) :=
  match v with
  | JNull => Throw (Error ("Cannot read properties of null (reading '" +:+ k +:+ "')"))
  | JObj props => Ok (own props k)
  | JArr items =>
      if String.eqb k "length" then Ok (Some (JNum (of_Z (Z.of_nat (length items)))))
      else Ok (at_index items 0 k)
  | JStr s =>
      if String.eqb k "length" then Ok (Some (JNum (of_Z (Z.of_nat (String.length s)))))
      else Ok (at_index (chars s) 0 k)
  | JBool _ | JNum _ => Ok None
  end.

Definition indices (n : nat) : list string := (fun i : nat => pretty i) <$> seq 0 n.

(** [Object.keys(v)]. *)
Definition Object_keys (v : json) : result (list string) :=
  match v with
  | JNull => Throw (Error "Cannot convert undefined or null to object")
  | JObj props => Ok (fst <$> props)
  | JArr items => Ok (indices (length items))
  | JStr s => Ok (indices (String.length s))
  | JBool _ | JNum _ => Ok []
  end.

(** *** What a value inherits *)

(** A built-in function or object that a value finds in its prototype
    chain.  The scripts read its [length] and call its [forEach]; only
    [Array.prototype], which is an array without elements, has one. *)
Record builtin := {
  builtin_length : option Z;
  builtin_forEach : bool
}.

(** A method with [n] parameters. *)
Definition method (n : Z) : builtin :=
  {| builtin_length := Some n; builtin_forEach := false |}.

(** The methods of [Object.prototype] (ECMAScript 2024 with its annex B),
    each with the number of its parameters. *)
Definition Object_prototype : list (string * builtin) :=
  [("constructor", method 1); ("hasOwnProperty", method 1); ("isPrototypeOf", method 1);
   ("propertyIsEnumerable", method 1); ("toLocaleString", method 0);
   ("toString", method 0); ("valueOf", method 0);
   ("__defineGetter__", method 2); ("__defineSetter__", method 2);
   ("__lookupGetter__", method 1); ("__lookupSetter__", method 1)].

Definition Array_prototype : list (string * builtin) :=
  [("at", method 1); ("concat", method 1); ("constructor", method 1);
   ("copyWithin", method 2); ("entries", method 0); ("every", method 1);
   ("fill", method 1); ("filter", method 1); ("find", method 1);
   ("findIndex", method 1); ("findLast", method 1); ("findLastIndex", method 1);
   ("flat", method 0); ("flatMap", method 1); ("forEach", method 1);
   ("includes", method 1); ("indexOf", method 1); ("join", method 1);
   ("keys", method 0); ("lastIndexOf", method 1); ("map", method 1);
   ("pop", method 0); ("push", method 1); ("reduce", method 1);
   ("reduceRight", method 1); ("reverse", method 0); ("shift", method 0);
   ("slice", method 2); ("some", method 1); ("sort", method 1);
   ("splice", method 2); ("toLocaleString", method 0); ("toReversed", method 0);
   ("toSorted", method 1); ("toSpliced", method 2); ("toString", method 0);
   ("unshift", method 1); ("values", method 0); ("with", method 2)].

Definition String_prototype : list (string * builtin) :=
  [("at", method 1); ("charAt", method 1); ("charCodeAt", method 1);
   ("codePointAt", method 1); ("concat", method 1); ("constructor", method 1);
   ("endsWith", method 1); ("includes", method 1); ("indexOf", method 1);
   ("isWellFormed", method 0); ("lastIndexOf", method 1); ("localeCompare", method 1);
   ("match", method 1); ("matchAll", method 1); ("normalize", method 0);
   ("padEnd", method 1); ("padStart", method 1); ("repeat", method 1);
   ("replace", method 2); ("replaceAll", method 2); ("search", method 1);
   ("slice", method 2); ("split", method 2); ("startsWith", method 1);
   ("substring", method 2); ("toLocaleLowerCase", method 0);
   ("toLocaleUpperCase", method 0); ("toLowerCase", method 0); ("toString", method 0);
   ("toUpperCase", method 0); ("toWellFormed", method 0); ("trim", method 0);
   ("trimEnd", method 0); ("trimStart", method 0); ("valueOf", method 0);
   ("substr", method 2); ("anchor", method 1); ("big", method 0); ("blink", method 0);
   ("bold", method 0); ("fixed", method 0); ("fontcolor", method 1);
   ("fontsize", method 1); ("italics", method 0); ("link", method 1);
   ("small", method 0); ("strike", method 0); ("sub", method 0); ("sup", method 0);
   ("trimLeft", method 0); ("trimRight", method 0)].

Definition Number_prototype : list (string * builtin) :=
  [("constructor", method 1); ("toExponential", method 1); ("toFixed", method 1);
   ("toLocaleString", method 0); ("toPrecision", method 1); ("toString", method 1);
   ("valueOf", method 0)].

Definition Boolean_prototype : list (string * builtin) :=
  [("constructor", method 1); ("toString", method 0); ("valueOf", method 0)].

(** The members of the prototype of [v], and the prototype itself, which
    is what [v.__proto__] gives. *)
Definition prototype_of (v : json) : list (string * builtin) * builtin :=
  match v with
  | JArr _ => (Array_prototype, {| builtin_length := Some 0; builtin_forEach := true |})
  | JStr _ => (String_prototype, {| builtin_length := Some 0; builtin_forEach := false |})
  | JNum _ => (Number_prototype, {| builtin_length := None; builtin_forEach := false |})
  | JBool _ => (Boolean_prototype, {| builtin_length := None; builtin_forEach := false |})
  | JObj _ | JNull => ([], {| builtin_length := None; builtin_forEach := false |})
  end.

Fixpoint named (l : list (string * builtin)) (k : string) : option builtin :=
  match l with
  | [] => None
  | (k', b) :: rest => if String.eqb k' k then Some b else named rest k
  end.

(** What [v] inherits under the name [k]: from its prototype, then from
    [Object.prototype]. *)
Definition inherited (v : json) (k : string) : option builtin :=
  if String.eqb k "__proto__" then Some (snd (prototype_of v))
  else
    match named (fst (prototype_of v)) k with
    | Some b => Some b
    | None => named Object_prototype k
    end.

(** A property as a read finds it. *)
Inductive member :=
| Missing                              (* undefined *)
| Own (v : json)                       (* an own property, an element, the length *)
| Inherited (b : builtin).

(** [v[k]] for any name [k]: an own property first, an inherited member
    otherwise.  Reading a property of null throws a TypeError. *)
Definition lookup (v : json) (k : string) : result member :=
  x ← get v k;
  Ok (match x with
      | Some y => Own y
      | None =>
          match inherited v k with
          | Some b => Inherited b
          | None => Missing
          end
      end).

(** ToBoolean of what a read has found. *)
Definition truthy_member (m : member) : bool :=
  match m with
  | Missing => false
  | Own v => truthy v
  | Inherited _ => true
  end.

(** [v === 0]. *)
Definition is_zero (v : option json) : bool :=
  match v with
  | Some (JNum d) => mantissa d =? 0
  | _ => false
  end.

(** [m.length === 0]. *)
Definition length_is_zero (m : member) : result bool :=
  match m with
  | Missing => Throw (Error "Cannot read properties of undefined (reading 'length')")
  | Own v => len ← get v "length"; Ok (is_zero len)
  | Inherited b =>
      Ok (match builtin_length b with
          | Some n => n =? 0
          | None => false
          end)
  end.

(** The elements [m.forEach(...)] visits: those of an array; none for
    [Array.prototype]; nothing else has the method. *)
Definition forEach_items (m : member) : result (list json) :=
  match m with
  | Own (JArr items) => Ok items
  | Inherited b =>
      if builtin_forEach b then Ok [] else Throw (Error "forEach is not a function")
  | Own _ | Missing => Throw (Error "forEach is not a function")
  end.

Fixpoint join (sep : string) (l : list string) : string :=
  match l with
  | [] => ""
  | [x] => x
  | x :: rest => x +:+ sep +:+ join sep rest
  end.

(** ToString, as a template literal applies it. *)
Fixpoint ToString (v : json) : string :=
  match v with
  | JNull => "null"
  | JBool true => "true"
  | JBool false => "false"
  | JNum d => Number_toString d
  | JStr s => s
  | JArr items =>
      join "," (map (fun x => match x with JNull => "" | _ => ToString x end) items)
  | JObj _ => "[object Object]"
  end.

(** ToPrimitive of an object looks for a method [toString] or [valueOf]
    that gives a primitive value.  An object that came out of [JSON.parse]
    inherits both from [Object.prototype], where [toString] gives
    "[object Object]" and [valueOf] the object itself; an own property of
    these names hides the method and is never a function.  So the
    conversion throws a TypeError exactly when the object has an own
    property [toString].  An array is converted by [join], which converts
    its elements, null apart, in the same way. *)
Fixpoint convertible (v : json) : bool :=
  match v with
  | JObj props =>
      match own props "toString" with
      | Some _ => false
      | None => true
      end
  | JArr items => forallb convertible items
  | JNull | JBool _ | JNum _ | JStr _ => true
  end.

Definition cannot_convert : exn := Error "Cannot convert object to primitive value".

(** ToPrimitive, for what it throws. *)
Definition ToPrimitive (v : option json) : result unit :=
  match v with
  | Some x => if convertible x then Ok tt else Throw cannot_convert
  | None => Ok tt
  end.

(** The text of [v] in a template literal. *)
Definition ToString_opt (v : option json) : result string :=
  ToPrimitive v;;
  Ok (match v with
      | None => "undefined"
      | Some x => ToString x
      end).

End Js.

Import Js.

(** ** The page *)

(** *** menu-loader.js: [MenuState], [CONFIG] and the elements of [DOM] *)

Inductive view := detailed | simple.

Record MenuState := {
  data : json;                      (* null until a load succeeds *)
  activeCategory : option string;   (* a string, or undefined *)
  activeView : view;
  isLoading : bool;
  error : option string             (* null, or the message of the last failure *)
}.

Definition MenuState_init : MenuState :=
  {| data := JNull; activeCategory := Some "all"; activeView := detailed;
     isLoading := false; error := None |}.

Module CONFIG.
Definition jsonUrl : string := "data/menu.json".
Definition cacheKey : string := "arboleda_menu_cache".
Definition cacheExpiry : Z := 1000 * 60 * 60 * 24.
Definition animationDelay : Z := 50.
End CONFIG.

(** [localStorage].  [readable] is false when the browser denies access to
    the storage (every call throws); [writable] is false when [setItem]
    throws (quota exceeded, private mode). *)
Record LocalStorage := {
  items : gmap string string;
  readable : bool;
  writable : bool
}.

(** An element of which the scripts toggle the class [hidden]. *)
Record Panel := { hidden : bool }.

(** A card of the detailed view: the strings put into its template and the
    dish its two listeners were closed over.  In the grid a card comes with
    the delay after which its timer adds the class [visible]. *)
Record Card := {
  card_ariaLabel : string;
  card_src : string;
  card_alt : string;
  card_title : string;
  card_price : string;
  card_plato : json
}.

Inductive GridNode :=
| CardNode (c : Card) (visibleAfter : Z)
| GridEmpty.                        (* <p>No hay platos en esta categoria.</p> *)

(** [grid_rendering] counts how often the content of the grid has been
    replaced: the cards of an earlier rendering are no longer in the
    document. *)
Record Grid := {
  grid_display : string;            (* style.display *)
  grid_top : Z;                     (* getBoundingClientRect().top *)
  grid_rendering : nat;
  grid_children : list GridNode
}.

Inductive SimpleNode :=
| Heading (text : string)                     (* <h3> *)
| ItemList (rows : list (string * string))    (* <ul> of name and price *)
| SimpleEmpty.

Record SimplePanel := {
  simple_display : string;
  simple_top : Z;
  simple_children : list SimpleNode
}.

(** A [.filter-btn] element. *)
Record FilterButton := {
  fb_category : option string;      (* dataset.category *)
  fb_label : string;                (* textContent *)
  fb_active : bool;                 (* class filter-btn--active *)
  fb_ariaLabel : option string;
  fb_ariaPressed : option string
}.

Record DOM := {
  menuGrid : option Grid;
  menuSimple : option SimplePanel;
  menuFilters : option (list FilterButton);
  loadingState : option Panel;
  errorState : option Panel
}.

(** *** modal.js: [modalState] and the elements of [ModalDOM] *)

(** The elements that the scripts hand to each other: the body, the close
    button of the dialog, the [index]-th child of the grid as its
    [rendering]-th content has it (a card), and the other elements of the
    page, by a number. *)
Inductive node :=
| Body
| CloseBtn
| Elem (id : nat)
| CardElem (rendering index : nat).

#[global] Instance node_eq_dec : EqDecision node.
Proof. solve_decision. Defined.

Record ModalState := {
  isOpen : bool;
  lastFocusedElement : option node;
  focusableElements : list node
}.

Definition modalState_init : ModalState :=
  {| isOpen := false; lastFocusedElement := None; focusableElements := [] |}.

(** The dialog element; [dlg_focusable] is what
    [querySelectorAll(focusableSelectors)] finds under it. *)
Record Dialog := {
  dlg_display : string;
  dlg_ariaHidden : string;
  dlg_opacity : string;
  dlg_focusable : list node
}.

Record Image := { src : string; alt : string }.

Record ModalDOM := {
  modal : option Dialog;
  closeBtn : bool;                  (* #modalClose exists *)
  image : option Image;
  title : option string;            (* textContent of each slot *)
  description : option string;
  price : option string
}.

(** *** The document, the window and the event loop *)

(** Where an element is, for what [focus()] does on it: in the page
    outside the dialog and the two views, where these scripts do not hide
    or remove it; inside the dialog; or nowhere that it could take the
    focus (not in the document, or not focusable, as the body is without a
    [tabindex]). *)
Inductive place :=
| Outside
| InDialog
| Nowhere.

(** [activeElement] is the element that had the focus when the page was
    handed over, or that took it by [focus()] since; the steps by which
    the browser itself moves the focus away from an element that is hidden
    or removed are not part of the model. *)
Record Document := {
  activeElement : option node;
  bodyOverflow : string;            (* document.body.style.overflow *)
  filterAnnouncer : option string;  (* textContent of #filter-announcer *)
  pageYOffset : Z;
  scrollTarget : option Z;          (* top of the last window.scrollTo *)
  place_of : node -> place          (* of the elements that are not cards *)
}.

Inductive task :=
| ModalFadeIn                       (* requestAnimationFrame in openMenuModal *)
| ModalFocusClose                   (* setTimeout(..., 100) in openMenuModal *)
| ModalFinishClose.                 (* setTimeout(..., 300) in closeMenuModal *)

Record timer := { due : Z; job : task }.

Record EventLoop := {
  clock : Z;                        (* Date.now() *)
  frame : Z;                        (* time to the next animation frame *)
  timers : list timer               (* pending, in the order they will run *)
}.

Record Page := {
  menu : MenuState;
  storage : LocalStorage;
  dom : DOM;
  modalState : ModalState;
  modalDom : ModalDOM;
  document : Document;
  loop : EventLoop
}.

Definition on_menu (f : MenuState -> MenuState) (p : Page) : Page :=
  {| menu := f (menu p); storage := storage p; dom := dom p; modalState := modalState p;
     modalDom := modalDom p; document := document p; loop := loop p |}.
Definition on_storage (f : LocalStorage -> LocalStorage) (p : Page) : Page :=
  {| menu := menu p; storage := f (storage p); dom := dom p; modalState := modalState p;
     modalDom := modalDom p; document := document p; loop := loop p |}.
Definition on_dom (f : DOM -> DOM) (p : Page) : Page :=
  {| menu := menu p; storage := storage p; dom := f (dom p); modalState := modalState p;
     modalDom := modalDom p; document := document p; loop := loop p |}.
Definition on_modalState (f : ModalState -> ModalState) (p : Page) : Page :=
  {| menu := menu p; storage := storage p; dom := dom p; modalState := f (modalState p);
     modalDom := modalDom p; document := document p; loop := loop p |}.
Definition on_modalDom (f : ModalDOM -> ModalDOM) (p : Page) : Page :=
  {| menu := menu p; storage := storage p; dom := dom p; modalState := modalState p;
     modalDom := f (modalDom p); document := document p; loop := loop p |}.
Definition on_document (f : Document -> Document) (p : Page) : Page :=
  {| menu := menu p; storage := storage p; dom := dom p; modalState := modalState p;
     modalDom := modalDom p; document := f (document p); loop := loop p |}.
Definition on_loop (f : EventLoop -> EventLoop) (p : Page) : Page :=
  {| menu := menu p; storage := storage p; dom := dom p; modalState := modalState p;
     modalDom := modalDom p; document := document p; loop := f (loop p) |}.

(** ** Scripts: state and exceptions *)

Definition JS (A : Type) : Type := Page -> Page * result A.

#[global] Instance JS_ret : MRet JS := fun A a p => (p, Ok a).
#[global] Instance JS_bind : MBind JS := fun A B f m p =>
  match m p with
  | (p', Ok a) => f a p'
  | (p', Throw e) => (p', Throw e)
  end.

Definition throw {A : Type} (e : exn) : JS A := fun p => (p, Throw e).

(** [try { body } catch (e) { handler e }]. *)
Definition try_catch {A : Type} (body : JS A) (handler : exn -> JS A) : JS A := fun p =>
  match body p with
  | (p', Ok a) => (p', Ok a)
  | (p', Throw e) => handler e p'
  end.

(** A reference that is not null. *)
Definition present {A : Type} (o : option A) : bool :=
  match o with
  | Some _ => true
  | None => false
  end.

Definition lift {A : Type} (r : result A) : JS A := fun p => (p, r).
Definition read {A : Type} (f : Page -> A) : JS A := fun p => (p, Ok (f p)).
Definition update (f : Page -> Page) : JS unit := fun p => (f p, Ok tt).

(** Statements one after the other over a list, as [Array.prototype.forEach]
    runs its callback. *)
Fixpoint forEach {A : Type} (l : list A) (f : A -> JS unit) : JS unit :=
  match l with
  | [] => mret tt
  | x :: rest => f x ;; forEach rest f
  end.

(** The same with a local variable that the callback updates. *)
Fixpoint forEach_with {A V : Type} (l : list A) (f : V -> A -> JS V) (v : V) : JS V :=
  match l with
  | [] => mret v
  | x :: rest => v' ← f v x; forEach_with rest f v'
  end.

(** ** What the browser provides *)

(** [JSON.stringify], [JSON.parse] (which throws a SyntaxError on text that
    is not JSON, the empty text included) and the conversion of a string to
    a number. *)
Class Platform := {
  JSON_stringify : json -> string;
  JSON_parse : string -> result json;
  StringToNumber : string -> number;
  JSON_parse_empty : forall v, JSON_parse "" <> Ok v
}.

(** ToNumber, as [Date.now() - x] applies it to [x] when ToPrimitive has
    not thrown; it has no number for a value that ToPrimitive refuses. *)
Definition ToNumber `{Platform} (v : option json) : number :=
  match v with
  | None => NaN
  | Some JNull => Fin (of_Z 0)
  | Some (JBool b) => Fin (of_Z (if b then 1 else 0))
  | Some (JNum d) => Fin d
  | Some (JStr s) => StringToNumber s
  | Some (JArr items) =>
      if convertible (JArr items) then StringToNumber (ToString (JArr items)) else NaN
  | Some (JObj _) => NaN
  end.

(** [a - b] for a number [a]: the conversion of [b] may throw. *)
Definition minus `{Platform} (a : Z) (b : option json) : result number :=
  ToPrimitive b;;
  Ok (sub (Fin (of_Z a)) (ToNumber b)).

(** The value a nullable DOM string such as [textContent] takes when [v] is
    assigned to it: null and undefined give the empty string. *)
Definition as_text (v : option json) : result string :=
  ToPrimitive v;;
  Ok (match v with
      | None | Some JNull => ""
      | Some x => ToString x
      end).

(** [localStorage.getItem], [setItem] and [removeItem]. *)
Definition getItem (k : string) : JS (option string) := fun p =>
  if readable (storage p) then (p, Ok (items (storage p) !! k))
  else (p, Throw (Error "The operation is insecure.")).

Definition setItem (k v : string) : JS unit := fun p =>
  if readable (storage p) && writable (storage p)
  then (on_storage (fun s => {| items := <[k := v]> (items s);
                                 readable := readable s; writable := writable s |}) p, Ok tt)
  else (p, Throw (Error "The quota has been exceeded.")).

Definition removeItem (k : string) : JS unit := fun p =>
  if readable (storage p)
  then (on_storage (fun s => {| items := delete k (items s);
                                 readable := readable s; writable := writable s |}) p, Ok tt)
  else (p, Throw (Error "The operation is insecure.")).

Definition Date_now : JS Z := read (fun p => clock (loop p)).

Definition is_card (n : option GridNode) : bool :=
  match n with
  | Some (CardNode _ _) => true
  | _ => false
  end.

(** The element can take the focus: it is in the document and it is
    rendered.  A card is, when it is a child of the grid as it is now and
    the grid does not have display none; an element of the dialog, when
    the dialog does not have display none.  (What the style sheets say is
    not known: a container is taken to be rendered unless its own style
    says display none.) *)
Definition can_focus (p : Page) (n : node) : bool :=
  match n with
  | CardElem rendering index =>
      match menuGrid (dom p) with
      | Some g =>
          (rendering =? grid_rendering g)%nat &&
          negb (String.eqb (grid_display g) "none") &&
          is_card (grid_children g !! index)
      | None => false
      end
  | Body | CloseBtn | Elem _ =>
      match place_of (document p) n with
      | Outside => true
      | InDialog =>
          match modal (modalDom p) with
          | Some dlg => negb (String.eqb (dlg_display dlg) "none")
          | None => false
          end
      | Nowhere => false
      end
  end.

Definition set_activeElement (n : node) : Page -> Page :=
  on_document (fun d =>
    {| activeElement := Some n; bodyOverflow := bodyOverflow d;
       filterAnnouncer := filterAnnouncer d; pageYOffset := pageYOffset d;
       scrollTarget := scrollTarget d; place_of := place_of d |}).

(** [el.focus()]: nothing happens on an element that cannot take the
    focus. *)
Definition focus (n : node) : JS unit := fun p =>
  if can_focus p n then (set_activeElement n p, Ok tt) else (p, Ok tt).

(** The queue is kept in the order the callbacks will run: by due time, and
    among equal due times in the order they were set. *)
Fixpoint enqueue (t : timer) (q : list timer) : list timer :=
  match q with
  | [] => [t]
  | x :: rest => if due t <? due x then t :: q else x :: enqueue t rest
  end.

Definition schedule (delay : Z) (j : task) : JS unit :=
  update (on_loop (fun l =>
    {| clock := clock l; frame := frame l;
       timers := enqueue {| due := clock l + delay; job := j |} (timers l) |})).

Definition setTimeout (j : task) (delay : Z) : JS unit := schedule delay j.

Definition requestAnimationFrame (j : task) : JS unit := fun p =>
  schedule (frame (loop p)) j p.

(** ** modal.js *)

Definition on_dialog (f : Dialog -> Dialog) : Page -> Page :=
  on_modalDom (fun m =>
    {| modal := f <$> modal m; closeBtn := closeBtn m; image := image m;
       title := title m; description := description m; price := price m |}).

Definition set_overflow (v : string) : Page -> Page :=
  on_document (fun d =>
    {| activeElement := activeElement d; bodyOverflow := v;
       filterAnnouncer := filterAnnouncer d; pageYOffset := pageYOffset d;
       scrollTarget := scrollTarget d; place_of := place_of d |}).

Definition on_image (f : Image -> Image) : Page -> Page :=
  on_modalDom (fun m =>
    {| modal := modal m; closeBtn := closeBtn m; image := f <$> image m;
       title := title m; description := description m; price := price m |}).

Definition set_isOpen (b : bool) : Page -> Page :=
  on_modalState (fun s =>
    {| isOpen := b; lastFocusedElement := lastFocusedElement s;
       focusableElements := focusableElements s |}).

(** [ModalDOM.modal.style...] inside a callback: a TypeError if the dialog
    is not there. *)
Definition the_dialog : JS Dialog := fun p =>
  match modal (modalDom p) with
  | Some dlg => (p, Ok dlg)
  | None => (p, Throw (Error "Cannot read properties of null (reading 'style')"))
  end.

Definition setupFocusTrap : JS unit :=
  dlg ← read (fun p => modal (modalDom p));
  match dlg with
  | None => mret tt
  | Some d =>
      update (on_modalState (fun s =>
        {| isOpen := isOpen s; lastFocusedElement := lastFocusedElement s;
           focusableElements := dlg_focusable d |}))
  end.

Definition openMenuModal (plato : json) : JS unit :=
  dlg ← read (fun p => modal (modalDom p));
  match dlg with
  | None => mret tt
  | Some _ =>
      active ← read (fun p => activeElement (document p));
      update (on_modalState (fun s =>
        {| isOpen := isOpen s; lastFocusedElement := active;
           focusableElements := focusableElements s |}));;
      img ← read (fun p => image (modalDom p));
      (if present img then
         imagen ← lift (get plato "imagen");
         source ← lift (ToString_opt imagen);
         update (on_image (fun i => {| src := source; alt := alt i |}));;
         nombre ← lift (get plato "nombre");
         text ← lift (ToString_opt nombre);
         update (on_image (fun i => {| src := src i; alt := text |}))
       else mret tt);;
      ttl ← read (fun p => title (modalDom p));
      (if present ttl then
         nombre ← lift (get plato "nombre");
         text ← lift (as_text nombre);
         update (on_modalDom (fun m =>
           {| modal := modal m; closeBtn := closeBtn m; image := image m;
              title := Some text; description := description m;
              price := price m |}))
       else mret tt);;
      dsc ← read (fun p => description (modalDom p));
      (if present dsc then
         descripcion ← lift (get plato "descripcion");
         text ← lift (as_text descripcion);
         update (on_modalDom (fun m =>
           {| modal := modal m; closeBtn := closeBtn m; image := image m;
              title := title m; description := Some text;
              price := price m |}))
       else mret tt);;
      prc ← read (fun p => price (modalDom p));
      (if present prc then
         precio ← lift (get plato "precio");
         text ← lift (ToString_opt precio);
         update (on_modalDom (fun m =>
           {| modal := modal m; closeBtn := closeBtn m; image := image m;
              title := title m; description := description m;
              price := Some ("S/ " +:+ text) |}))
       else mret tt);;
      update (on_dialog (fun d =>
        {| dlg_display := "flex"; dlg_ariaHidden := "false";
           dlg_opacity := dlg_opacity d; dlg_focusable := dlg_focusable d |}));;
      requestAnimationFrame ModalFadeIn;;
      update (set_overflow "hidden");;
      setupFocusTrap;;
      setTimeout ModalFocusClose 100;;
      update (set_isOpen true)
  end.

Definition closeMenuModal : JS unit :=
  dlg ← read (fun p => modal (modalDom p));
  open ← read (fun p => isOpen (modalState p));
  match dlg with
  | Some _ =>
      if (open : bool) then
        update (on_dialog (fun d =>
          {| dlg_display := dlg_display d; dlg_ariaHidden := dlg_ariaHidden d;
             dlg_opacity := "0"; dlg_focusable := dlg_focusable d |}));;
        setTimeout ModalFinishClose 300
      else mret tt
  | None => mret tt
  end.

(** The bodies of the three callbacks. *)
Definition run_task (j : task) : JS unit :=
  match j with
  | ModalFadeIn =>
      the_dialog;;
      update (on_dialog (fun d =>
        {| dlg_display := dlg_display d; dlg_ariaHidden := dlg_ariaHidden d;
           dlg_opacity := "1"; dlg_focusable := dlg_focusable d |}))
  | ModalFocusClose =>
      btn ← read (fun p => closeBtn (modalDom p));
      if (btn : bool) then focus CloseBtn else mret tt
  | ModalFinishClose =>
      the_dialog;;
      update (on_dialog (fun d =>
        {| dlg_display := "none"; dlg_ariaHidden := "true";
           dlg_opacity := dlg_opacity d; dlg_focusable := dlg_focusable d |}));;
      update (set_overflow "");;
      last ← read (fun p => lastFocusedElement (modalState p));
      match last with
      | Some el => focus el
      | None => mret tt
      end;;
      update (set_isOpen false)
  end.

(** [handleModalTab(event)]. *)
Definition handleModalTab (key : string) (shiftKey : bool) : JS unit :=
  open ← read (fun p => isOpen (modalState p));
  if negb (open : bool) || negb (String.eqb key "Tab") then mret tt
  else
    els ← read (fun p => focusableElements (modalState p));
    active ← read (fun p => activeElement (document p));
    match head els, last els, active with
    | Some firstElement, Some lastElement, Some a =>
        if shiftKey && bool_decide (a = firstElement) then focus lastElement
        else if negb shiftKey && bool_decide (a = lastElement) then focus firstElement
        else mret tt
    | _, _, _ => mret tt
    end.

(** The two [keydown] listeners of the document, in the order
    [initModalListeners] adds them. *)
Definition keydown (key : string) (shiftKey : bool) : JS unit :=
  open ← read (fun p => isOpen (modalState p));
  (if String.eqb key "Escape" && (open : bool) then closeMenuModal else mret tt);;
  handleModalTab key shiftKey.

(** ** The event loop *)

(** Runs, in order, the callbacks of [q] that are due at [t]; an exception
    in a callback ends that callback only. *)
Fixpoint run_due (t : Z) (q : list timer) (p : Page) : Page :=
  match q with
  | [] => p
  | x :: rest =>
      if due x <=? t then
        let p1 := on_loop (fun l =>
          {| clock := Z.max (clock l) (due x); frame := frame l; timers := rest |}) p in
        run_due t rest (fst (run_task (job x) p1))
      else p
  end.

(** Time passes: the clock moves on by [dt] and the timers due run. *)
Definition advance (dt : Z) (p : Page) : Page :=
  let t := clock (loop p) + dt in
  on_loop (fun l => {| clock := t; frame := frame l; timers := timers l |})
    (run_due t (timers (loop p)) p).

Definition sleep (dt : Z) : JS unit := update (advance dt).

(** ** menu-loader.js *)

Section MenuLoader.
Context `{Platform}.

Definition set_isLoading (b : bool) : Page -> Page :=
  on_menu (fun m =>
    {| data := data m; activeCategory := activeCategory m; activeView := activeView m;
       isLoading := b; error := error m |}).

Definition set_data (d : json) : Page -> Page :=
  on_menu (fun m =>
    {| data := d; activeCategory := activeCategory m; activeView := activeView m;
       isLoading := isLoading m; error := error m |}).

Definition set_error (e : option string) : Page -> Page :=
  on_menu (fun m =>
    {| data := data m; activeCategory := activeCategory m; activeView := activeView m;
       isLoading := isLoading m; error := e |}).

Definition grid_show (v : string) (g : Grid) : Grid :=
  {| grid_display := v; grid_top := grid_top g; grid_rendering := grid_rendering g;
     grid_children := grid_children g |}.

Definition simple_show (v : string) (s : SimplePanel) : SimplePanel :=
  {| simple_display := v; simple_top := simple_top s; simple_children := simple_children s |}.

Definition on_grid (f : Grid -> Grid) : Page -> Page :=
  on_dom (fun d =>
    {| menuGrid := f <$> menuGrid d; menuSimple := menuSimple d;
       menuFilters := menuFilters d; loadingState := loadingState d;
       errorState := errorState d |}).

Definition on_simple (f : SimplePanel -> SimplePanel) : Page -> Page :=
  on_dom (fun d =>
    {| menuGrid := menuGrid d; menuSimple := f <$> menuSimple d;
       menuFilters := menuFilters d; loadingState := loadingState d;
       errorState := errorState d |}).

Definition on_filters (f : list FilterButton -> list FilterButton) : Page -> Page :=
  on_dom (fun d =>
    {| menuGrid := menuGrid d; menuSimple := menuSimple d;
       menuFilters := f <$> menuFilters d; loadingState := loadingState d;
       errorState := errorState d |}).

(** [classList.add('hidden')] or [remove] on the two state panels, where
    they exist. *)
Definition set_panels (loading error : option bool) : Page -> Page :=
  on_dom (fun d =>
    {| menuGrid := menuGrid d; menuSimple := menuSimple d; menuFilters := menuFilters d;
       loadingState :=
         (fun el => {| hidden := default (hidden el) loading |}) <$> loadingState d;
       errorState :=
         (fun el => {| hidden := default (hidden el) error |}) <$> errorState d |}).

(** *** The cache *)

Definition saveToCache (data : json) : JS unit :=
  try_catch
    (now ← Date_now;
     let cacheData := JObj [("data", data); ("timestamp", JNum (of_Z now))] in
     setItem CONFIG.cacheKey (JSON_stringify cacheData))
    (fun _ => mret tt).

(** [null] is [Some JNull]; [cacheData.data] may be undefined. *)
Definition getFromCache : JS (option json) :=
  try_catch
    (cached ← getItem CONFIG.cacheKey;
     match cached with
     | None | Some "" => mret (Some JNull)
     | Some text =>
         cacheData ← lift (JSON_parse text);
         now ← Date_now;
         timestamp ← lift (get cacheData "timestamp");
         age ← lift (minus now timestamp);
         if gt age (Fin (of_Z CONFIG.cacheExpiry)) then
           removeItem CONFIG.cacheKey;;
           mret (Some JNull)
         else lift (get cacheData "data")
     end)
    (fun _ => mret (Some JNull)).

(** *** Loading and error panels *)

Definition showLoading : JS unit :=
  update (set_panels (Some false) (Some true));;
  update (on_grid (grid_show "none"));;
  update (on_simple (simple_show "none")).

Definition hideLoading : JS unit :=
  update (set_panels (Some true) None);;
  view ← read (fun p => activeView (menu p));
  grid ← read (fun p => menuGrid (dom p));
  panel ← read (fun p => menuSimple (dom p));
  match view with
  | detailed => if present grid then update (on_grid (grid_show "grid")) else mret tt
  | simple => if present panel then update (on_simple (simple_show "block")) else mret tt
  end.

Definition showError : JS unit :=
  update (set_panels (Some true) (Some false));;
  update (on_grid (grid_show "none"));;
  update (on_simple (simple_show "none")).

(** *** Loading the data *)

(** What the network answers: the response (or a rejection) after
    [response_after] milliseconds, and the outcome of [response.json()]
    after [body_after] more. *)
Record Response := {
  status : Z;
  body_after : Z;
  body : result json
}.

Record Fetch := {
  response_after : Z;
  response : result Response
}.

Definition ok (r : Response) : bool := (200 <=? status r) && (status r <=? 299).

Definition fetch (net : Fetch) : JS Response :=
  sleep (response_after net);;
  lift (response net).

Definition response_json (r : Response) : JS json :=
  sleep (body_after r);;
  lift (body r).

Definition loadMenuData (net : Fetch) : JS json :=
  update (set_isLoading true);;
  showLoading;;
  try_catch
    (cachedData ← getFromCache;
     let from_server : JS json :=
       response ← fetch net;
       if negb (ok response) then
         throw (Error ("HTTP error! status: " +:+ pretty (status response)))
       else
         data ← response_json response;
         if negb (truthy data) || negb (typeof_object data) then
           throw (Error "Formato de datos inválido")
         else
           saveToCache data;;
           update (set_data data);;
           update (set_isLoading false);;
           update (set_error None);;
           mret data in
     match cachedData with
     | Some cached =>
         if truthy cached then
           update (set_data cached);;
           update (set_isLoading false);;
           mret cached
         else from_server
     | None => from_server
     end)
    (fun error =>
       update (set_isLoading false);;
       update (set_error (Some (message error)));;
       showError;;
       throw error).

(** *** The filter bar *)

(** [toUpperCase] of one character, on the code units below 256 (the
    characters of ISO 8859-1): the capitals of a to z and of the letters
    from U+00E0 to U+00FE (all but the division sign U+00F7) are 32 below
    them, the capital of U+00DF (sharp s) is SS, every other character is
    its own capital.  Two capitals lie outside these code units, those of
    U+00B5 (micro sign) and U+00FF (y with diaeresis): the model has no
    text for them and leaves the two characters as they are. *)
Definition toUpperCase (a : ascii) : string :=
  let n := nat_of_ascii a in
  if ((97 <=? n)%nat && (n <=? 122)%nat)
     || ((224 <=? n)%nat && (n <=? 254)%nat && negb (n =? 247)%nat)
  then String (ascii_of_nat (n - 32)) ""
  else if (n =? 223)%nat then "SS"
  else String a "".

Definition capitalizeFirst (str : string) : string :=
  match str with
  | EmptyString => ""
  | String a rest => toUpperCase a +:+ rest
  end.

Definition createFilterButton (category label : string) (isActive : bool) : FilterButton :=
  {| fb_category := Some category;
     fb_label := label;
     fb_active := isActive;
     fb_ariaLabel := Some ("Filtrar por " +:+ label);
     fb_ariaPressed := Some (if isActive then "true" else "false") |}.

Definition renderFilters (data : json) : JS unit :=
  filters ← read (fun p => menuFilters (dom p));
  if negb (present filters) then mret tt
  else
    categories ← lift (Object_keys data);
    let allButton := createFilterButton "all" "Todos" true in
    let categoryButtons :=
      (fun cat => createFilterButton cat (capitalizeFirst cat) false) <$> categories in
    update (on_filters (fun _ => []));;
    update (on_filters (fun bs => bs ++ [allButton]));;
    forEach categoryButtons (fun btn => update (on_filters (fun bs => bs ++ [btn]))).

(** *** The detailed view *)

(** [DOM.menuGrid.innerHTML = ...]: a new content. *)
Definition set_grid_children (l : list GridNode) : Page -> Page :=
  on_grid (fun g =>
    {| grid_display := grid_display g; grid_top := grid_top g;
       grid_rendering := S (grid_rendering g); grid_children := l |}).

Definition grid_append (n : GridNode) : Page -> Page :=
  on_grid (fun g =>
    {| grid_display := grid_display g; grid_top := grid_top g;
       grid_rendering := grid_rendering g; grid_children := grid_children g ++ [n] |}).

(** The card and its two listeners; [index] is not used. *)
Definition createMenuCard (plato : json) (index : Z) : result Card :=
  nombre ← get plato "nombre";
  label ← ToString_opt nombre;
  imagen ← get plato "imagen";
  source ← ToString_opt imagen;
  precio ← get plato "precio";
  amount ← ToString_opt precio;
  mret {| card_ariaLabel := "Ver detalles de " +:+ label;
          card_src := source;
          card_alt := label;
          card_title := label;
          card_price := "S/ " +:+ amount;
          card_plato := plato |}.

(** The categories a view shows. *)
Definition shown_categories (data : json) (category : string) : result (list string) :=
  if String.eqb category "all" then Object_keys data else Ok [category].

Definition renderDetailedView (data : json) (category : option string) : JS unit :=
  let category := default "all" category in
  grid ← read (fun p => menuGrid (dom p));
  if negb (present grid) then mret tt
  else
    update (set_grid_children []);;
    categories ← lift (shown_categories data category);
    itemIndex ← forEach_with categories (fun itemIndex cat =>
      platos ← lift (lookup data cat);
      if negb (truthy_member platos) then mret itemIndex
      else
        items ← lift (forEach_items platos);
        forEach_with items (fun itemIndex plato =>
          card ← lift (createMenuCard plato itemIndex);
          update (grid_append (CardNode card (itemIndex * CONFIG.animationDelay)));;
          mret (itemIndex + 1)) itemIndex) 0;
    if itemIndex =? 0 then update (set_grid_children [GridEmpty]) else mret tt.

(** A click on a card, or Enter or Space on it. *)
Definition card_click (c : Card) : JS unit := openMenuModal (card_plato c).

(** *** The simple view *)

Definition set_simple_children (l : list SimpleNode) : Page -> Page :=
  on_simple (fun s =>
    {| simple_display := simple_display s; simple_top := simple_top s;
       simple_children := l |}).

Definition simple_append (n : SimpleNode) : Page -> Page :=
  on_simple (fun s =>
    {| simple_display := simple_display s; simple_top := simple_top s;
       simple_children := simple_children s ++ [n] |}).

Definition simple_row (plato : json) : result (string * string) :=
  nombre ← get plato "nombre";
  label ← ToString_opt nombre;
  precio ← get plato "precio";
  amount ← ToString_opt precio;
  mret (label, "S/ " +:+ amount).

Definition renderSimpleView (data : json) (category : option string) : JS unit :=
  let category := default "all" category in
  panel ← read (fun p => menuSimple (dom p));
  if negb (present panel) then mret tt
  else
    update (set_simple_children []);;
    categories ← lift (shown_categories data category);
    forEach categories (fun cat =>
      platos ← lift (lookup data cat);
      if negb (truthy_member platos) then mret tt
      else
        empty ← lift (length_is_zero platos);
        if (empty : bool) then mret tt
        else
          update (simple_append (Heading (capitalizeFirst cat)));;
          items ← lift (forEach_items platos);
          rows ← lift (mapM simple_row items);
          update (simple_append (ItemList rows)));;
    children ← read (fun p => default [] (simple_children <$> menuSimple (dom p)));
    if (length categories =? 0)%nat || (length children =? 0)%nat
    then update (set_simple_children [SimpleEmpty])
    else mret tt.

(** *** Start-up *)

Definition initMenuLoader (net : Fetch) : JS unit :=
  try_catch
    (data ← loadMenuData net;
     renderFilters data;;
     category ← read (fun p => activeCategory (menu p));
     renderDetailedView data category;;
     hideLoading)
    (fun _ => mret tt).

End MenuLoader.

(** ** menu-filters.js *)

Definition set_activeCategory (c : option string) : Page -> Page :=
  on_menu (fun m =>
    {| data := data m; activeCategory := c; activeView := activeView m;
       isLoading := isLoading m; error := error m |}).

(** [document.querySelectorAll('.filter-btn')]: the buttons of the bar. *)
Definition filter_buttons (p : Page) : list FilterButton :=
  default [] (menuFilters (dom p)).

Definition updateFilterButtons (activeCategory : option string) : JS unit :=
  update (on_filters (fmap (fun button =>
    let isActive := bool_decide (fb_category button = activeCategory) in
    {| fb_category := fb_category button; fb_label := fb_label button;
       fb_active := isActive; fb_ariaLabel := fb_ariaLabel button;
       fb_ariaPressed := Some (if isActive then "true" else "false") |}))).

Definition scrollToMenu : JS unit :=
  menuGrid ← read (fun p => menuGrid (dom p));
  menuSimple ← read (fun p => menuSimple (dom p));
  let target :=
    match menuGrid with
    | Some g =>
        if negb (String.eqb (grid_display g) "none") then Some (grid_top g)
        else simple_top <$> menuSimple
    | None => None
    end in
  match target with
  | Some elementPosition =>
      let offset := 100 in
      update (on_document (fun d =>
        {| activeElement := activeElement d; bodyOverflow := bodyOverflow d;
           filterAnnouncer := filterAnnouncer d; pageYOffset := pageYOffset d;
           scrollTarget := Some (elementPosition + pageYOffset d - offset);
           place_of := place_of d |}))
  | None => mret tt
  end.

Definition announceFilterChange (category : option string) : JS unit :=
  let categoryName :=
    match category with
    | Some c => if String.eqb c "all" then "todos los platos" else c
    | None => "undefined"
    end in
  update (on_document (fun d =>
    {| activeElement := activeElement d; bodyOverflow := bodyOverflow d;
       filterAnnouncer := Some ("Mostrando " +:+ categoryName);
       pageYOffset := pageYOffset d; scrollTarget := scrollTarget d;
       place_of := place_of d |})).

Definition applyFilter (category : option string) : JS unit :=
  update (set_activeCategory category);;
  updateFilterButtons category;;
  data ← read (fun p => data (menu p));
  (if truthy data then
     currentView ← read (fun p => activeView (menu p));
     match currentView with
     | detailed => renderDetailedView data category
     | simple => renderSimpleView data category
     end
   else mret tt);;
  scrollToMenu;;
  announceFilterChange category.

(** A click on the [i]-th button of the bar, or Enter or Space on it. *)
Definition handleFilterClick (i : nat) : JS unit :=
  button ← read (fun p => filter_buttons p !! i);
  match button with
  | Some b => applyFilter (fb_category b)
  | None => mret tt
  end.

(** [document.querySelector('.filter-btn--active')] is the first one. *)
Definition getActiveCategory : JS (option string) :=
  activeButton ← read (fun p => snd <$> list_find fb_active (filter_buttons p));
  match activeButton with
  | Some b => mret (fb_category b)
  | None => mret (Some "all")
  end.

Definition resetFilters : JS unit := applyFilter (Some "all").

(** ** A platform to run the scripts on *)

(** A JSON codec in the browser's compact format and a decimal
    [StringToNumber], used to evaluate the scripts on concrete pages. *)
Module Reference.

Definition quote_char : ascii := "034".
Definition backslash : ascii := "\".

Definition hex_digit (n : nat) : ascii :=
  if (n <? 10)%nat then ascii_of_nat (48 + n) else ascii_of_nat (87 + n).

Fixpoint escape (s : string) : string :=
  match s with
  | EmptyString => ""
  | String c rest =>
      let n := nat_of_ascii c in
      (if Ascii.eqb c quote_char then String backslash (String quote_char "")
       else if Ascii.eqb c backslash then String backslash (String backslash "")
       else if (n =? 8)%nat then String backslash "b"
       else if (n =? 9)%nat then String backslash "t"
       else if (n =? 10)%nat then String backslash "n"
       else if (n =? 12)%nat then String backslash "f"
       else if (n =? 13)%nat then String backslash "r"
       else if (n <? 32)%nat then
         String backslash
           (String "u" (String "0" (String "0"
             (String (hex_digit (n / 16)) (String (hex_digit (n mod 16)) "")))))
       else String c "") +:+ escape rest
  end.

Definition quote (s : string) : string :=
  String quote_char (escape s) +:+ String quote_char "".

Fixpoint stringify (v : json) : string :=
  match v with
  | JNull => "null"
  | JBool true => "true"
  | JBool false => "false"
  | JNum d => Number_toString d
  | JStr s => quote s
  | JArr items => "[" +:+ join "," (map stringify items) +:+ "]"
  | JObj props =>
      "{" +:+ join "," (map (fun kv => quote (fst kv) +:+ ":" +:+ stringify (snd kv)) props)
      +:+ "}"
  end.

Definition is_ws (c : ascii) : bool :=
  let n := nat_of_ascii c in
  (n =? 32)%nat || (n =? 9)%nat || (n =? 10)%nat || (n =? 13)%nat.

Fixpoint skip_ws (s : string) : string :=
  match s with
  | String c rest => if is_ws c then skip_ws rest else s
  | EmptyString => s
  end.

Definition digit_of (c : ascii) : option Z :=
  let n := nat_of_ascii c in
  if (48 <=? n)%nat && (n <=? 57)%nat then Some (Z.of_nat (n - 48)) else None.

Definition hex_of (c : ascii) : option nat :=
  let n := nat_of_ascii c in
  if (48 <=? n)%nat && (n <=? 57)%nat then Some (n - 48)%nat
  else if (97 <=? n)%nat && (n <=? 102)%nat then Some (n - 87)%nat
  else if (65 <=? n)%nat && (n <=? 70)%nat then Some (n - 55)%nat
  else None.

(** The digits at the head of [s]: their value, how many, and the rest. *)
Fixpoint digits (s : string) (acc : Z) (count : nat) : Z * nat * string :=
  match s with
  | String c rest =>
      match digit_of c with
      | Some d => digits rest (acc * 10 + d) (S count)
      | None => (acc, count, s)
      end
  | EmptyString => (acc, count, s)
  end.

(** The exponent of a number, if there is one: [eE][+-]?digits. *)
Definition exponent_part (s : string) : option (Z * string) :=
  match s with
  | String c rest =>
      if Ascii.eqb c "e" || Ascii.eqb c "E" then
        let '(negative, s1) :=
          match rest with
          | String "-" r => (true, r)
          | String "+" r => (false, r)
          | _ => (false, rest)
          end in
        let '(e, n, s2) := digits s1 0 0 in
        if (n =? 0)%nat then None else Some (if negative then - e else e, s2)
      else Some (0, s)
  | EmptyString => Some (0, s)
  end.

(** [d] times ten to the power [e]. *)
Definition scaled (d : decimal) (e : Z) : decimal :=
  if 0 <=? e then canonical (Dec (mantissa d * 10 ^ e) (scale d))
  else canonical (Dec (mantissa d) (scale d + Z.to_nat (- e))).

(** A number: -?digits(.digits)?([eE][+-]?digits)? *)
Definition number_literal (s : string) : option (decimal * string) :=
  let '(negative, s1) :=
    match s with
    | String "-" rest => (true, rest)
    | _ => (false, s)
    end in
  let '(whole, n, s2) := digits s1 0 0 in
  if (n =? 0)%nat then None
  else
    let sign := (if negative then -1 else 1) in
    '(d, s3) ←
      match s2 with
      | String "." rest =>
          let '(fraction, k, s3) := digits rest 0 0 in
          if (k =? 0)%nat then None
          else Some (canonical (Dec (sign * (whole * pow10 k + fraction)) k), s3)
      | _ => Some (Dec (sign * whole) 0, s2)
      end;
    '(e, s4) ← exponent_part s3;
    Some (if e =? 0 then d else scaled d e, s4).

(** The characters of a string literal after its opening quote. *)
Fixpoint string_body (fuel : nat) (s : string) : option (string * string) :=
  match fuel with
  | O => None
  | S fuel' =>
      match s with
      | EmptyString => None
      | String c rest =>
          if Ascii.eqb c quote_char then Some ("", rest)
          else if Ascii.eqb c backslash then
            match rest with
            | String e rest' =>
                let plain (a : ascii) :=
                  '(body, r) ← string_body fuel' rest'; Some (String a body, r) in
                if Ascii.eqb e quote_char then plain quote_char
                else if Ascii.eqb e backslash then plain backslash
                else if Ascii.eqb e "/" then plain "/"%char
                else if Ascii.eqb e "b" then plain (ascii_of_nat 8)
                else if Ascii.eqb e "t" then plain (ascii_of_nat 9)
                else if Ascii.eqb e "n" then plain (ascii_of_nat 10)
                else if Ascii.eqb e "f" then plain (ascii_of_nat 12)
                else if Ascii.eqb e "r" then plain (ascii_of_nat 13)
                else if Ascii.eqb e "u" then
                  match rest' with
                  | String "0" (String "0" (String h (String l r'))) =>
                      hi ← hex_of h; lo ← hex_of l;
                      '(body, r) ← string_body fuel' r';
                      Some (String (ascii_of_nat (16 * hi + lo)) body, r)
                  | _ => None
                  end
                else None
            | EmptyString => None
            end
          else if (nat_of_ascii c <? 32)%nat then None
          else '(body, r) ← string_body fuel' rest; Some (String c body, r)
      end
  end.

Fixpoint value (fuel : nat) (s : string) : option (json * string) :=
  match fuel with
  | O => None
  | S fuel' =>
      match skip_ws s with
      | String "n" (String "u" (String "l" (String "l" rest))) => Some (JNull, rest)
      | String "t" (String "r" (String "u" (String "e" rest))) => Some (JBool true, rest)
      | String "f" (String "a" (String "l" (String "s" (String "e" rest)))) =>
          Some (JBool false, rest)
      | String "[" rest =>
          match skip_ws rest with
          | String "]" rest' => Some (JArr [], rest')
          | _ => '(items, r) ← elements fuel' rest; Some (JArr items, r)
          end
      | String "{" rest =>
          match skip_ws rest with
          | String "}" rest' => Some (JObj [], rest')
          | _ => '(props, r) ← members fuel' rest; Some (JObj props, r)
          end
      | String c rest as s' =>
          if Ascii.eqb c quote_char then
            '(str, r) ← string_body fuel' rest; Some (JStr str, r)
          else '(d, r) ← number_literal s'; Some (JNum d, r)
      | EmptyString => None
      end
  end
with elements (fuel : nat) (s : string) : option (list json * string) :=
  match fuel with
  | O => None
  | S fuel' =>
      '(v, r) ← value fuel' s;
      match skip_ws r with
      | String "," r' => '(vs, r'') ← elements fuel' r'; Some (v :: vs, r'')
      | String "]" r' => Some ([v], r')
      | _ => None
      end
  end
with members (fuel : nat) (s : string) : option (list (string * json) * string) :=
  match fuel with
  | O => None
  | S fuel' =>
      match skip_ws s with
      | String c rest =>
          if Ascii.eqb c quote_char then
            '(k, r1) ← string_body fuel' rest;
            match skip_ws r1 with
            | String ":" r2 =>
                '(v, r3) ← value fuel' r2;
                match skip_ws r3 with
                | String "," r4 => '(kvs, r5) ← members fuel' r4; Some ((k, v) :: kvs, r5)
                | String "}" r4 => Some ([(k, v)], r4)
                | _ => None
                end
            | _ => None
            end
          else None
      | EmptyString => None
      end
  end.

Definition parse (s : string) : result json :=
  match value (S (String.length s)) s with
  | Some (v, rest) =>
      match skip_ws rest with
      | EmptyString => Ok v
      | _ => Throw (Error "Unexpected non-whitespace character after JSON")
      end
  | None => Throw (Error "Unexpected token in JSON")
  end.

Definition to_number (s : string) : number :=
  match skip_ws s with
  | EmptyString => Fin (of_Z 0)
  | s' =>
      match number_literal s' with
      | Some (d, rest) =>
          match skip_ws rest with
          | EmptyString => Fin d
          | _ => NaN
          end
      | None => NaN
      end
  end.

Definition platform : Platform :=
  {| JSON_stringify := stringify; JSON_parse := parse; StringToNumber := to_number;
     JSON_parse_empty := ltac:(intros v Hv; discriminate Hv) |}.

End Reference.


(** ** menu-views.js *)

(** The scripts of this file run on the page of the menu scripts together
    with what only they look at: the two buttons of the view toggle, the
    classes [hidden] and [active] of the two containers, the live region
    [#view-announcer], and the callbacks they have set.  The elements of
    [ViewsDOM] are the elements of the document, as [ViewsDOM.init()]
    finds them; [menuGrid] and [menuSimple] are those of the page. *)

(** A button of the toggle: the class [view-toggle__btn--active] and the
    attribute [aria-pressed]. *)
Record Toggle := {
  tg_active : bool;
  tg_ariaPressed : option string
}.

Inductive vtask :=
| ShowDetailed                      (* setTimeout(..., 400) in switchToDetailedView *)
| ActivateSimple.                   (* requestAnimationFrame in switchToSimpleView *)

Record vtimer := { vdue : Z; vjob : vtask }.

Record Views := {
  page : Page;
  toggleDetailed : option Toggle;
  toggleSimple : option Toggle;
  grid_hidden : bool;               (* class hidden of #menuGrid *)
  simple_hidden : bool;             (* class hidden of #menuSimple *)
  simple_active : bool;             (* class active of #menuSimple *)
  viewAnnouncer : option string;    (* textContent of #view-announcer *)
  viewTimers : list vtimer          (* pending, in the order they will run *)
}.

Definition on_page (f : Page -> Page) (s : Views) : Views :=
  {| page := f (page s); toggleDetailed := toggleDetailed s; toggleSimple := toggleSimple s;
     grid_hidden := grid_hidden s; simple_hidden := simple_hidden s;
     simple_active := simple_active s; viewAnnouncer := viewAnnouncer s;
     viewTimers := viewTimers s |}.

Definition set_toggles (d t : option Toggle) (s : Views) : Views :=
  {| page := page s; toggleDetailed := d; toggleSimple := t;
     grid_hidden := grid_hidden s; simple_hidden := simple_hidden s;
     simple_active := simple_active s; viewAnnouncer := viewAnnouncer s;
     viewTimers := viewTimers s |}.

Definition set_grid_hidden (b : bool) (s : Views) : Views :=
  {| page := page s; toggleDetailed := toggleDetailed s; toggleSimple := toggleSimple s;
     grid_hidden := b; simple_hidden := simple_hidden s;
     simple_active := simple_active s; viewAnnouncer := viewAnnouncer s;
     viewTimers := viewTimers s |}.

Definition set_simple_hidden (b : bool) (s : Views) : Views :=
  {| page := page s; toggleDetailed := toggleDetailed s; toggleSimple := toggleSimple s;
     grid_hidden := grid_hidden s; simple_hidden := b;
     simple_active := simple_active s; viewAnnouncer := viewAnnouncer s;
     viewTimers := viewTimers s |}.

Definition set_simple_active (b : bool) (s : Views) : Views :=
  {| page := page s; toggleDetailed := toggleDetailed s; toggleSimple := toggleSimple s;
     grid_hidden := grid_hidden s; simple_hidden := simple_hidden s;
     simple_active := b; viewAnnouncer := viewAnnouncer s;
     viewTimers := viewTimers s |}.

Definition set_viewAnnouncer (text : string) (s : Views) : Views :=
  {| page := page s; toggleDetailed := toggleDetailed s; toggleSimple := toggleSimple s;
     grid_hidden := grid_hidden s; simple_hidden := simple_hidden s;
     simple_active := simple_active s; viewAnnouncer := Some text;
     viewTimers := viewTimers s |}.

Definition set_viewTimers (q : list vtimer) (s : Views) : Views :=
  {| page := page s; toggleDetailed := toggleDetailed s; toggleSimple := toggleSimple s;
     grid_hidden := grid_hidden s; simple_hidden := simple_hidden s;
     simple_active := simple_active s; viewAnnouncer := viewAnnouncer s;
     viewTimers := q |}.

(** Scripts over this state; a script of the menu page runs on its part. *)
Definition VS (A : Type) : Type := Views -> Views * result A.

#[global] Instance VS_ret : MRet VS := fun A a s => (s, Ok a).
#[global] Instance VS_bind : MBind VS := fun A B f m s =>
  match m s with
  | (s', Ok a) => f a s'
  | (s', Throw e) => (s', Throw e)
  end.

Definition vread {A : Type} (f : Views -> A) : VS A := fun s => (s, Ok (f s)).
Definition vupdate (f : Views -> Views) : VS unit := fun s => (f s, Ok tt).

Definition liftJS {A : Type} (m : JS A) : VS A := fun s =>
  match m (page s) with
  | (p', r) => (on_page (fun _ => p') s, r)
  end.

Fixpoint venqueue (t : vtimer) (q : list vtimer) : list vtimer :=
  match q with
  | [] => [t]
  | x :: rest => if vdue t <? vdue x then t :: q else x :: venqueue t rest
  end.

Definition vschedule (delay : Z) (j : vtask) : VS unit :=
  vupdate (fun s =>
    set_viewTimers
      (venqueue {| vdue := clock (loop (page s)) + delay; vjob := j |} (viewTimers s)) s).

Definition set_activeView (v : view) : Page -> Page :=
  on_menu (fun m =>
    {| data := data m; activeCategory := activeCategory m; activeView := v;
       isLoading := isLoading m; error := error m |}).

Definition string_of_bool (b : bool) : string := if b then "true" else "false".

Definition updateViewButtons (activeView : string) : VS unit :=
  toggleDetailed ← vread toggleDetailed;
  toggleSimple ← vread toggleSimple;
  if negb (present toggleDetailed) || negb (present toggleSimple) then mret tt
  else
    let isDetailed := String.eqb activeView "detailed" in
    vupdate (set_toggles
      (Some {| tg_active := isDetailed;
               tg_ariaPressed := Some (string_of_bool isDetailed) |})
      (Some {| tg_active := negb isDetailed;
               tg_ariaPressed := Some (string_of_bool (negb isDetailed)) |})).

Definition announceViewChange (viewName : string) : VS unit :=
  vupdate (set_viewAnnouncer ("Vista cambiada a " +:+ viewName)).

Definition switchToDetailedView : VS unit :=
  menuGrid ← vread (fun s => menuGrid (dom (page s)));
  menuSimple ← vread (fun s => menuSimple (dom (page s)));
  if negb (present menuGrid) || negb (present menuSimple) then mret tt
  else
    liftJS (update (set_activeView detailed));;
    updateViewButtons "detailed";;
    vupdate (set_simple_active false);;
    vschedule 400 ShowDetailed;;
    announceViewChange "detallada".

Definition switchToSimpleView : VS unit :=
  menuGrid ← vread (fun s => menuGrid (dom (page s)));
  menuSimple ← vread (fun s => menuSimple (dom (page s)));
  if negb (present menuGrid) || negb (present menuSimple) then mret tt
  else
    liftJS (update (set_activeView simple));;
    updateViewButtons "simple";;
    liftJS (update (on_grid (grid_show "none")));;
    vupdate (set_grid_hidden true);;
    liftJS (update (on_simple (simple_show "block")));;
    vupdate (set_simple_hidden false);;
    data ← liftJS (read (fun p => data (menu p)));
    (if truthy data then
       category ← liftJS (read (fun p => activeCategory (menu p)));
       liftJS (renderSimpleView data category)
     else mret tt);;
    frame ← liftJS (read (fun p => frame (loop p)));
    vschedule frame ActivateSimple;;
    announceViewChange "simple".

(** The bodies of the two callbacks. *)
Definition run_vtask (j : vtask) : VS unit :=
  match j with
  | ShowDetailed =>
      liftJS (update (on_simple (simple_show "none")));;
      vupdate (set_simple_hidden true);;
      liftJS (update (on_grid (grid_show "grid")));;
      vupdate (set_grid_hidden false);;
      data ← liftJS (read (fun p => data (menu p)));
      if truthy data then
        category ← liftJS (read (fun p => activeCategory (menu p)));
        liftJS (renderDetailedView data category)
      else mret tt
  | ActivateSimple => vupdate (set_simple_active true)
  end.

Definition initViews : VS unit :=
  toggleDetailed ← vread toggleDetailed;
  toggleSimple ← vread toggleSimple;
  if negb (present toggleDetailed) || negb (present toggleSimple) then mret tt
  else updateViewButtons "detailed".

(** Time passes on the whole page.  The callbacks of this file that are
    due run in order, each after the callbacks of the dialog that are due
    by then; an exception in a callback ends that callback only. *)
Fixpoint vrun_due (t : Z) (q : list vtimer) (s : Views) : Views :=
  match q with
  | [] => s
  | x :: rest =>
      if vdue x <=? t then
        let s1 := on_page (fun p => advance (Z.max 0 (vdue x - clock (loop p))) p) s in
        vrun_due t rest (fst (run_vtask (vjob x) (set_viewTimers rest s1)))
      else s
  end.

Definition vadvance (dt : Z) (s : Views) : Views :=
  let t := clock (loop (page s)) + dt in
  on_page (fun p => advance (t - clock (loop p)) p) (vrun_due t (viewTimers s) s).

(** A click on a button of the filter bar while these scripts are on the
    page. *)
Definition filter_click (category : option string) : VS unit :=
  liftJS (applyFilter category).

(** ** utils.js: the storage helpers *)

Section Storage.
Context `{Platform}.

Definition setLocalStorage (key : string) (value : json) : JS bool :=
  try_catch
    (let serialized := JSON_stringify value in
     setItem key serialized;;
     mret true)
    (fun _ => mret false).

(** [defaultValue] is null when the caller gives none. *)
Definition getLocalStorage (key : string) (defaultValue : json) : JS json :=
  try_catch
    (item ← getItem key;
     match item with
     | None | Some "" => mret defaultValue
     | Some text => lift (JSON_parse text)
     end)
    (fun _ => mret defaultValue).

Definition removeLocalStorage (key : string) : JS unit :=
  try_catch (removeItem key) (fun _ => mret tt).

End Storage.

(** ** utils.js: debounce and throttle *)

(** The function the wrappers are given works on some part [Target] of the
    page and is called with arguments [Args]; it returns normally and sets
    no timer.  The timers are those of the wrapper: [setTimeout] gives a
    timer an identifier, [clearTimeout] removes the timer of an identifier
    when it is pending. *)
Section Timing.
Context {Args Target : Type}.
Variable func : Args -> Target -> Target.

Inductive callback :=
| Later (args : Args)               (* debounce: later, closed over the arguments *)
| Release.                          (* throttle: () => inThrottle = false *)

Record Timeout := { timeout_id : nat; fires : Z; calls : callback }.

Record Wrapped := {
  w_clock : Z;
  w_next : nat;                     (* the identifier of the next timer *)
  w_pending : list Timeout;         (* in the order they will run *)
  w_timeout : option nat;           (* debounce: let timeout, undefined at first *)
  w_inThrottle : bool;              (* throttle: let inThrottle, undefined at first *)
  w_target : Target
}.

Definition on_target (f : Target -> Target) (w : Wrapped) : Wrapped :=
  {| w_clock := w_clock w; w_next := w_next w; w_pending := w_pending w;
     w_timeout := w_timeout w; w_inThrottle := w_inThrottle w; w_target := f (w_target w) |}.

Definition set_pending (q : list Timeout) (w : Wrapped) : Wrapped :=
  {| w_clock := w_clock w; w_next := w_next w; w_pending := q;
     w_timeout := w_timeout w; w_inThrottle := w_inThrottle w; w_target := w_target w |}.

Definition set_timeout (i : option nat) (w : Wrapped) : Wrapped :=
  {| w_clock := w_clock w; w_next := w_next w; w_pending := w_pending w;
     w_timeout := i; w_inThrottle := w_inThrottle w; w_target := w_target w |}.

Definition set_inThrottle (b : bool) (w : Wrapped) : Wrapped :=
  {| w_clock := w_clock w; w_next := w_next w; w_pending := w_pending w;
     w_timeout := w_timeout w; w_inThrottle := b; w_target := w_target w |}.

Definition set_clock (t : Z) (w : Wrapped) : Wrapped :=
  {| w_clock := t; w_next := w_next w; w_pending := w_pending w;
     w_timeout := w_timeout w; w_inThrottle := w_inThrottle w; w_target := w_target w |}.

Fixpoint insert_timeout (t : Timeout) (q : list Timeout) : list Timeout :=
  match q with
  | [] => [t]
  | x :: rest => if fires t <? fires x then t :: q else x :: insert_timeout t rest
  end.

(** [setTimeout(callback, delay)]: the new timer and its identifier; a
    negative delay counts as zero. *)
Definition set_Timeout (c : callback) (delay : Z) (w : Wrapped) : Wrapped * nat :=
  ({| w_clock := w_clock w; w_next := S (w_next w);
      w_pending :=
        insert_timeout
          {| timeout_id := w_next w; fires := w_clock w + Z.max 0 delay; calls := c |}
          (w_pending w);
      w_timeout := w_timeout w; w_inThrottle := w_inThrottle w; w_target := w_target w |},
   w_next w).

(** [clearTimeout(id)]; nothing happens for [undefined]. *)
Definition clear_Timeout (i : option nat) (w : Wrapped) : Wrapped :=
  match i with
  | Some n => set_pending (filter (fun x => timeout_id x <> n) (w_pending w)) w
  | None => w
  end.

(** A call of the function [debounce(func, wait)] returns. *)
Definition debounced (wait : Z) (args : Args) (w : Wrapped) : Wrapped :=
  let w1 := clear_Timeout (w_timeout w) w in
  let '(w2, i) := set_Timeout (Later args) wait w1 in
  set_timeout (Some i) w2.

(** A call of the function [throttle(func, limit)] returns. *)
Definition throttled (limit : Z) (args : Args) (w : Wrapped) : Wrapped :=
  if w_inThrottle w then w
  else
    let w1 := on_target (func args) w in
    let w2 := set_inThrottle true w1 in
    fst (set_Timeout Release limit w2).

Definition run_callback (c : callback) (w : Wrapped) : Wrapped :=
  match c with
  | Later args => on_target (func args) (clear_Timeout (w_timeout w) w)
  | Release => set_inThrottle false w
  end.

(** The timers due at [t] run in order.  A callback sets no timer, so
    as many steps as there are timers are enough. *)
Fixpoint run_timers (steps : nat) (t : Z) (w : Wrapped) : Wrapped :=
  match steps with
  | O => w
  | S steps' =>
      match w_pending w with
      | [] => w
      | x :: rest =>
          if fires x <=? t then
            run_timers steps' t
              (run_callback (calls x)
                 (set_pending rest (set_clock (Z.max (w_clock w) (fires x)) w)))
          else w
      end
  end.

Definition pass (dt : Z) (w : Wrapped) : Wrapped :=
  let t := w_clock w + dt in
  set_clock t (run_timers (length (w_pending w)) t w).

(** An event: [after] milliseconds the page changes by [effect] (the
    scroll position, say) and the listener is called with [args].  The
    timers due by then have run.  A browser may run a timer that is due
    at the very millisecond of an event after the listener as well as
    before it: what is stated of a call that a timer decides is stated of
    events that come before the timer is due, or after that. *)
Record Event := { after : Z; effect : Target -> Target; args_of : Args }.

Definition dispatch (listener : Args -> Wrapped -> Wrapped) (w : Wrapped) (e : Event)
  : Wrapped :=
  listener (args_of e) (on_target (effect e) (pass (after e) w)).

(** The wrapper before the first call: [timeout] and [inThrottle] are
    undefined, no timer is pending. *)
Definition fresh_wrapper (s : Target) : Wrapped :=
  {| w_clock := 0; w_next := 1; w_pending := []; w_timeout := None;
     w_inThrottle := false; w_target := s |}.

End Timing.

Arguments callback : clear implicits.
Arguments Timeout : clear implicits.
Arguments Wrapped : clear implicits.
Arguments Event : clear implicits.
Arguments fresh_wrapper {Args Target} s.

(** ** main.js *)

Module APP_CONFIG.
Definition stickyHeaderOffset : Z := 180.
Definition scrollDebounceDelay : Z := 100.
End APP_CONFIG.

(** *** The sticky header *)

(** [window.scrollY] and the class [visible] of [#stickyHeader]. *)
Record Header := { scrollY : Z; sticky_visible : bool }.

(** The function [initStickyHeader] debounces. *)
Definition updateStickyHeader (_ : unit) (h : Header) : Header :=
  {| scrollY := scrollY h;
     sticky_visible := APP_CONFIG.stickyHeaderOffset <? scrollY h |}.

(** The listener of the scroll event. *)
Definition handleScroll : unit -> Wrapped unit Header -> Wrapped unit Header :=
  debounced APP_CONFIG.scrollDebounceDelay.

(** The window scrolls to [y], [after] milliseconds after the last event. *)
Definition scroll_to (after : Z) (y : Z) : Event unit Header :=
  {| after := after;
     effect := fun h => {| scrollY := y; sticky_visible := sticky_visible h |};
     args_of := tt |}.

(** *** The mobile navigation *)

(** [#navMenu] has the class [show] or not; [#menuToggle] has the
    attribute [aria-expanded] (or not: [None]) and may hold an icon, of
    which the scripts set the class name. *)
Record MobileNav := {
  nav_show : bool;
  ariaExpanded : option string;
  icon : option string
}.

(** A click on [#menuToggle]. *)
Definition toggle_click (n : MobileNav) : MobileNav :=
  let isExpanded := bool_decide (ariaExpanded n = Some "true") in
  {| nav_show := negb (nav_show n);
     ariaExpanded := Some (if negb isExpanded then "true" else "false");
     icon := (fun _ => if isExpanded then "fas fa-bars" else "fas fa-times") <$> icon n |}.

(** A click on a link of the menu. *)
Definition link_click (n : MobileNav) : MobileNav :=
  {| nav_show := false;
     ariaExpanded := Some "false";
     icon := (fun _ => "fas fa-bars") <$> icon n |}.

Inductive nav_event := ToggleClick | LinkClick.

Definition nav_handle (n : MobileNav) (e : nav_event) : MobileNav :=
  match e with
  | ToggleClick => toggle_click n
  | LinkClick => link_click n
  end.

(** *** The active link *)







(** ** utils.js: texts *)

(** A text is the sequence of its code units.  The functions below are
    those of JavaScript on the code units under 256, the characters of
    ISO 8859-1. *)

Definition between (lo hi : nat) (c : ascii) : bool :=
  let n := nat_of_ascii c in (lo <=? n)%nat && (n <=? hi)%nat.

(** White space and line ends: what [trim] removes and [\s] matches. *)
Definition is_space (c : ascii) : bool :=
  between 9 13 c || between 32 32 c || between 160 160 c.

Fixpoint trimStart (l : list ascii) : list ascii :=
  match l with
  | c :: rest => if is_space c then trimStart rest else l
  | [] => []
  end.

Definition trimEnd (l : list ascii) : list ascii := rev (trimStart (rev l)).

Definition trim (l : list ascii) : list ascii := trimEnd (trimStart l).

(** [length] is 100 and [suffix] is ["..."] when the caller gives none;
    [length] is a whole number. *)
Definition truncateText (text : string) (length : Z) (suffix : string) : string :=
  if Z.of_nat (String.length text) <=? length then text
  else
    string_of_list_ascii (trim (take (Z.to_nat length) (list_ascii_of_string text)))
    +:+ suffix.

(** *** slugify *)

Definition toLowerCase (c : ascii) : ascii :=
  if between 65 90 c || (between 192 222 c && negb (between 215 215 c))
  then ascii_of_nat (nat_of_ascii c + 32)
  else c.

(** [normalize('NFD')] and then the removal of the combining marks
    U+0300 to U+036F: a letter with a diacritic becomes the letter. *)
Definition without_diacritic (c : ascii) : ascii :=
  if between 192 197 c then "A"
  else if between 199 199 c then "C"
  else if between 200 203 c then "E"
  else if between 204 207 c then "I"
  else if between 209 209 c then "N"
  else if between 210 214 c then "O"
  else if between 217 220 c then "U"
  else if between 221 221 c then "Y"
  else if between 224 229 c then "a"
  else if between 231 231 c then "c"
  else if between 232 235 c then "e"
  else if between 236 239 c then "i"
  else if between 241 241 c then "n"
  else if between 242 246 c then "o"
  else if between 249 252 c then "u"
  else if between 253 253 c then "y"
  else if between 255 255 c then "y"
  else c.

(** [\w]. *)
Definition is_word (c : ascii) : bool :=
  between 48 57 c || between 65 90 c || between 97 122 c || between 95 95 c.

Definition hyphen : ascii := "-".

(** [replace(/p+/g, '-')]: every run of characters of [p] becomes one
    hyphen; [inside] says that the character before was of [p]. *)
Fixpoint runs_to_hyphen (p : ascii -> bool) (inside : bool) (l : list ascii) : list ascii :=
  match l with
  | [] => []
  | c :: rest =>
      if p c then
        if inside then runs_to_hyphen p true rest
        else hyphen :: runs_to_hyphen p true rest
      else c :: runs_to_hyphen p false rest
  end.

Definition slugify (text : string) : string :=
  let lower := toLowerCase <$> list_ascii_of_string text in
  let plain := without_diacritic <$> lower in
  let kept := filter (fun c => is_word c || is_space c || Ascii.eqb c hyphen) plain in
  let trimmed := trim kept in
  let hyphened := runs_to_hyphen is_space false trimmed in
  string_of_list_ascii (runs_to_hyphen (Ascii.eqb hyphen) false hyphened).

(** *** isValidEmail *)

(** Regular expressions, matched against a whole text by derivatives. *)
Inductive char_class :=
| Space                              (* \s *)
| Chr (c : ascii).

Definition in_class (k : char_class) (c : ascii) : bool :=
  match k with
  | Space => is_space c
  | Chr d => Ascii.eqb c d
  end.

Inductive regex :=
| Void
| Eps
| NoneOf (ks : list char_class)      (* [^...] *)
| Lit (c : ascii)
| Seq (r1 r2 : regex)
| Alt (r1 r2 : regex)
| Star (r : regex).

Definition Plus (r : regex) : regex := Seq r (Star r).

Fixpoint nullable (r : regex) : bool :=
  match r with
  | Void | NoneOf _ | Lit _ => false
  | Eps | Star _ => true
  | Seq r1 r2 => nullable r1 && nullable r2
  | Alt r1 r2 => nullable r1 || nullable r2
  end.

Fixpoint deriv (c : ascii) (r : regex) : regex :=
  match r with
  | Void | Eps => Void
  | NoneOf ks => if existsb (fun k => in_class k c) ks then Void else Eps
  | Lit d => if Ascii.eqb c d then Eps else Void
  | Seq r1 r2 =>
      if nullable r1 then Alt (Seq (deriv c r1) r2) (deriv c r2)
      else Seq (deriv c r1) r2
  | Alt r1 r2 => Alt (deriv c r1) (deriv c r2)
  | Star r1 => Seq (deriv c r1) (Star r1)
  end.

(** [/^r$/.test(text)]. *)
Definition regex_test (r : regex) (text : string) : bool :=
  nullable (foldl (fun r c => deriv c r) r (list_ascii_of_string text)).

(** [/^[^\s@]+@[^\s@]+\.[^\s@]+$/] without the anchors. *)
Definition email_regex : regex :=
  Seq (Plus (NoneOf [Space; Chr "@"]))
    (Seq (Lit "@")
       (Seq (Plus (NoneOf [Space; Chr "@"]))
          (Seq (Lit ".") (Plus (NoneOf [Space; Chr "@"]))))).

Definition isValidEmail (email : string) : bool := regex_test email_regex email.

(** ** The vocabulary of the specification *)

(** *** The data model *)

(** A dish and a catalog as the specification types them; the price is a
    number or a numeric string. *)
Inductive Price :=
| PriceNumber (d : decimal)
| PriceText (s : string).

Record Dish := {
  nombre : string;
  descripcion : string;
  precio : Price;
  imagen : string
}.

Definition json_of_price (pr : Price) : json :=
  match pr with
  | PriceNumber d => JNum d
  | PriceText s => JStr s
  end.

Definition json_of_dish (d : Dish) : json :=
  JObj [("nombre", JStr (nombre d)); ("descripcion", JStr (descripcion d));
        ("precio", json_of_price (precio d)); ("imagen", JStr (imagen d))].

(** The catalog object: one property per category, in display order. *)
Definition json_of_catalog (c : list (string * list Dish)) : json :=
  JObj ((fun kv => (fst kv, JArr (json_of_dish <$> snd kv))) <$> c).

(** A mapping type: a JSON object, not null, a scalar or an array. *)
Definition is_mapping (v : json) : bool :=
  match v with
  | JObj _ => true
  | _ => false
  end.

(** *** The cache and the loader *)

(** What [getFromCache] reports on a page; absent is null or undefined. *)
Definition cached `{Platform} (p : Page) : option json :=
  match snd (getFromCache p) with
  | Ok c => c
  | Throw _ => None
  end.

Definition cache_miss `{Platform} (p : Page) : Prop := truthy_opt (cached p) = false.

(** The body fails the loader's validation. *)
Definition rejected (v : json) : bool := negb (truthy v) || negb (typeof_object v).

(** The page when [loadMenuData] has shown the loading state. *)
Definition started (p : Page) : Page :=
  fst (showLoading (set_isLoading true p)).

(** The number [ts] is more than [limit] before [now]:
    [now - ts > limit], with the fraction of [ts] cleared. *)
Definition older_than (limit now : Z) (ts : decimal) : Prop :=
  now * pow10 (scale ts) - mantissa ts > limit * pow10 (scale ts).

(** The entry [saveToCache] writes for [catalog] at time [now]. *)
Definition cache_entry (catalog : json) (now : Z) : json :=
  JObj [("data", catalog); ("timestamp", JNum (of_Z now))].

(** *** What a script leaves alone *)

(** Whatever the page and the outcome, [m] moves the page within [R]. *)
Definition keeps {A : Type} (R : Page -> Page -> Prop) (m : JS A) : Prop :=
  forall p, R p (fst (m p)).

(** From [p] to [q] the loader's side of the page (state, storage and the
    menu elements) is unchanged. *)
Definition menu_side_kept (p q : Page) : Prop :=
  menu q = menu p /\ storage q = storage p /\ dom q = dom p.

(** From [p] to [q] the shared state and the filter bar are unchanged. *)
Definition filters_kept (p q : Page) : Prop :=
  menu q = menu p /\ menuFilters (dom q) = menuFilters (dom p).

(** *** The filter bar *)

(** How many controls carry the active marker, and how many have the
    category [c]. *)
Definition active_count (p : Page) : nat :=
  length (filter fb_active (filter_buttons p)).

Definition matching_count (c : option string) (p : Page) : nat :=
  length (filter (fun b => fb_category b = c) (filter_buttons p)).

(** The buttons after [updateFilterButtons]. *)
Definition marked (c : option string) (b : FilterButton) : FilterButton :=
  {| fb_category := fb_category b; fb_label := fb_label b;
     fb_active := bool_decide (fb_category b = c); fb_ariaLabel := fb_ariaLabel b;
     fb_ariaPressed := Some (if bool_decide (fb_category b = c) then "true" else "false") |}.

(** *** Prices *)

(** The stored price as a template literal prints it. *)
Definition price_text (pr : Price) : string :=
  match pr with
  | PriceNumber d => Number_toString d
  | PriceText s => s
  end.

Definition is_digit (c : ascii) : bool :=
  let n := nat_of_ascii c in (48 <=? n)%nat && (n <=? 57)%nat.

(** The text ends in a point and two digits. *)
Definition two_fraction_digits (s : string) : bool :=
  match rev (list_ascii_of_string s) with
  | d2 :: d1 :: point :: _ => is_digit d2 && is_digit d1 && Ascii.eqb point "."
  | _ => false
  end.

(** The price on the card of a dish, and in the dialog opened on it. *)
Definition price_on_card (d : Dish) : option string :=
  match createMenuCard (json_of_dish d) 0 with
  | Ok c => Some (card_price c)
  | Throw _ => None
  end.

Definition price_in_dialog (d : Dish) (p : Page) : option string :=
  price (modalDom (fst (openMenuModal (json_of_dish d) p))).

(** *** What the views show *)

(** The dishes of the first category named [k]. *)
Fixpoint dishes_of (c : list (string * list Dish)) (k : string) : option (list Dish) :=
  match c with
  | [] => None
  | (k', ds) :: rest => if String.eqb k' k then Some ds else dishes_of rest k
  end.

(** The categories a filter selects: all of them in catalog order, or the
    one requested, or none when the catalog does not have it. *)
Definition selected (c : list (string * list Dish)) (category : string)
  : list (string * list Dish) :=
  if String.eqb category "all" then c
  else match dishes_of c category with
       | Some ds => [(category, ds)]
       | None => []
       end.

(** [k] names a member that every object inherits: a method of
    [Object.prototype], or [__proto__]. *)
Definition inherited_name (k : string) : bool :=
  match inherited (JObj []) k with
  | Some _ => true
  | None => false
  end.

(** A read of [k] on the catalog [c] finds a category or nothing: [k]
    names a category of [c], or is not a name that objects inherit a
    member under. *)
Definition plain_name (c : list (string * list Dish)) (k : string) : Prop :=
  dishes_of c k = None -> inherited_name k = false.

(** The capital of the first character of [k] is a character of ISO
    8859-1: [k] does not begin with the micro sign or with y with
    diaeresis. *)
Definition capital_known (k : string) : bool :=
  match k with
  | String a _ => negb ((nat_of_ascii a =? 181)%nat || (nat_of_ascii a =? 255)%nat)
  | EmptyString => true
  end.

(** No category of [c] begins with one of these two characters. *)
Definition capitals_known (c : list (string * list Dish)) : Prop :=
  Forall (fun kv => capital_known (fst kv) = true) c.

Definition card_of (d : Dish) : Card :=
  {| card_ariaLabel := "Ver detalles de " +:+ nombre d;
     card_src := imagen d;
     card_alt := nombre d;
     card_title := nombre d;
     card_price := "S/ " +:+ price_text (precio d);
     card_plato := json_of_dish d |}.

(** One card per dish, the n-th revealed after n times the animation
    delay. *)
Fixpoint cards_from (index : Z) (ds : list Dish) : list GridNode :=
  match ds with
  | [] => []
  | d :: rest => CardNode (card_of d) (index * CONFIG.animationDelay) :: cards_from (index + 1) rest
  end.

Definition row_of (d : Dish) : string * string :=
  (nombre d, "S/ " +:+ price_text (precio d)).

(** A heading and a list for a category that has dishes. *)
Definition block_of (k : string) (ds : list Dish) : list SimpleNode :=
  match ds with
  | [] => []
  | _ => [Heading (capitalizeFirst k); ItemList (row_of <$> ds)]
  end.

Definition blocks_of (sel : list (string * list Dish)) : list SimpleNode :=
  concat ((fun kv => block_of (fst kv) (snd kv)) <$> sel).


Definition listed_rows (nodes : list SimpleNode) : list (string * string) :=
  concat ((fun n => match n with
                    | ItemList rows => rows
                    | _ => []
                    end) <$> nodes).

(** The children of the grid, when there is a grid. *)
Definition grid_nodes (p : Page) : option (list GridNode) :=
  grid_children <$> menuGrid (dom p).

Definition simple_nodes (p : Page) : option (list SimpleNode) :=
  simple_children <$> menuSimple (dom p).

(** *** The dialog *)

(** The dialog is closed and the focus is back on [E]. *)
Definition closed_on (E : node) (p : Page) : Prop :=
  activeElement (document p) = Some E /\
  dlg_display <$> modal (modalDom p) = Some "none" /\
  dlg_ariaHidden <$> modal (modalDom p) = Some "true" /\
  bodyOverflow (document p) = "" /\
  isOpen (modalState p) = false.

(** The page after [n.focus()], which takes effect when [b] holds. *)
Definition focus_when (b : bool) (n : node) : Page -> Page :=
  on_document (fun d =>
    {| activeElement := if b then Some n else activeElement d;
       bodyOverflow := bodyOverflow d; filterAnnouncer := filterAnnouncer d;
       pageYOffset := pageYOffset d; scrollTarget := scrollTarget d;
       place_of := place_of d |}).

(** [E] can take the focus whether the dialog is shown or not: it is a
    card of the grid as it is now, the grid being rendered, or an element
    of the page outside the dialog. *)
Definition outside_dialog (E : node) (p : Page) : Prop :=
  match E with
  | CardElem _ _ => can_focus p E = true
  | Body | CloseBtn | Elem _ => place_of (document p) E = Outside
  end.

(** The dialog can show the dish: it is not null, and those of its four
    fields that it has can be converted to text. *)
Definition printable (plato : json) : Prop :=
  plato <> JNull /\
  forall k v,
    k ∈ ["imagen"; "nombre"; "descripcion"; "precio"] ->
    get plato k = Ok (Some v) -> convertible v = true.

(** *** Example pages *)

Definition empty_storage : LocalStorage :=
  {| items := ∅; readable := true; writable := true |}.

Definition menu_page : DOM :=
  {| menuGrid := Some {| grid_display := ""; grid_top := 640; grid_rendering := 0;
                         grid_children := [] |};
     menuSimple := Some {| simple_display := "none"; simple_top := 0; simple_children := [] |};
     menuFilters := Some [];
     loadingState := Some {| hidden := true |};
     errorState := Some {| hidden := true |} |}.

Definition dialog_closed : ModalDOM :=
  {| modal := Some {| dlg_display := "none"; dlg_ariaHidden := "true"; dlg_opacity := "0";
                      dlg_focusable := [CloseBtn] |};
     closeBtn := true;
     image := Some {| src := ""; alt := "" |};
     title := Some "";
     description := Some "";
     price := Some "" |}.

(** The close button is in the dialog, the body does not take the focus,
    the other elements are links and buttons of the page. *)
Definition usual_places (n : node) : place :=
  match n with
  | Body => Nowhere
  | CloseBtn => InDialog
  | Elem _ | CardElem _ _ => Outside
  end.

(** The page when its scripts have been read and nothing has run yet. *)
Definition fresh_page : Page :=
  {| menu := MenuState_init;
     storage := empty_storage;
     dom := menu_page;
     modalState := modalState_init;
     modalDom := dialog_closed;
     document := {| activeElement := Some Body; bodyOverflow := ""; filterAnnouncer := None;
                    pageYOffset := 0; scrollTarget := None; place_of := usual_places |};
     loop := {| clock := 1750000000000; frame := 16; timers := [] |} |}.

Definition causa : Dish :=
  {| nombre := "Causa"; descripcion := "Papa amarilla, limon y aji";
     precio := PriceNumber (of_Z 12); imagen := "causa.jpg" |}.

Definition suspiro : Dish :=
  {| nombre := "Suspiro"; descripcion := "Manjar y merengue";
     precio := PriceText "9.50"; imagen := "suspiro.jpg" |}.

Definition carta : list (string * list Dish) :=
  [("entradas", [causa]); ("postres", [suspiro]); ("bebidas", [])].

(** The catalog of the specification's scenario: one starter, no dessert. *)
Definition scenario : list (string * list Dish) :=
  [("entradas", [causa]); ("postres", [])].

(** The server answers 200 with [v] as the body. *)
Definition answers (v : json) : Fetch :=
  {| response_after := 120;
     response := Ok {| status := 200; body_after := 5; body := Ok v |} |}.

(** The server answers with status [code] and an empty object. *)
Definition fails_with (code : Z) : Fetch :=
  {| response_after := 120;
     response := Ok {| status := code; body_after := 5; body := Ok (JObj []) |} |}.

(** A body that is an array of dishes instead of an object of categories. *)
Definition array_body : json := JArr [json_of_dish causa].

(** A page whose cache holds the menu, written [age] milliseconds ago. *)
Definition page_cached (age : Z) : Page :=
  on_storage (fun s =>
    {| items := <[CONFIG.cacheKey :=
                   Reference.stringify
                     (cache_entry (json_of_catalog carta) (1750000000000 - age))]> (items s);
       readable := readable s; writable := writable s |}) fresh_page.

(** A page whose last load failed and whose cache was filled an hour ago. *)
Definition page_after_failure : Page :=
  set_error (Some "HTTP error! status: 500") (page_cached 3600000).

(** The page with the menu loaded and its filter bar rendered. *)
Definition page_loaded : Page :=
  fst (@initMenuLoader Reference.platform (answers (json_of_catalog carta)) fresh_page).

(** The first card of the grid of the loaded page, and the page with the
    focus on it. *)
Definition first_card : node := CardElem 1 0.

Definition page_on_card : Page := set_activeElement first_card page_loaded.

(** The fresh page with a link of the page focused. *)
Definition page_browsing : Page := set_activeElement (Elem 3) fresh_page.

(** ** More vocabulary *)

(** *** The filter bar *)

(** The bar for the category names [ks]: "Todos" first and active, then
    one control per name, labelled with the name capitalized. *)
Definition bar_of (ks : list string) : list FilterButton :=
  createFilterButton "all" "Todos" true ::
  ((fun k => createFilterButton k (capitalizeFirst k) false) <$> ks).

(** The categories of the controls of a page. *)
Definition bar_categories (p : Page) : list (option string) :=
  fb_category <$> filter_buttons p.

(** *** What rendering leaves alone *)

(** The page with both menu containers emptied, and the renderings of
    the grid not counted. *)
Definition without_children (p : Page) : Page :=
  set_simple_children []
    (on_grid (fun g =>
       {| grid_display := grid_display g; grid_top := grid_top g;
          grid_children := []; grid_rendering := 0 |}) p).

(** From [p] to [q] nothing differs but the children of the two menu
    containers (and with them the number of times the grid has been
    rendered). *)
Definition same_outline (p q : Page) : Prop :=
  without_children q = without_children p.

(** What of a page decides where its views are and which of them is
    displayed. *)
Definition layout (p : Page)
  : option string * option Z * option string * option Z * json * view * EventLoop :=
  (grid_display <$> menuGrid (dom p), grid_top <$> menuGrid (dom p),
   simple_display <$> menuSimple (dom p), simple_top <$> menuSimple (dom p),
   data (menu p), activeView (menu p), loop p).

Definition same_layout (p q : Page) : Prop := layout q = layout p.

(** What a view shows of the catalog [c] under the filter [category]. *)
Definition shown_dishes (c : list (string * list Dish)) (category : string) : list Dish :=
  concat (snd <$> selected c category).

Definition shown_cards (c : list (string * list Dish)) (category : string) : list GridNode :=
  match shown_dishes c category with
  | [] => [GridEmpty]
  | ds => cards_from 0 ds
  end.

Definition shown_blocks (c : list (string * list Dish)) (category : string)
  : list SimpleNode :=
  match shown_dishes c category with
  | [] => [SimpleEmpty]
  | _ => blocks_of (selected c category)
  end.

(** *** Scrolling *)

(** The top of the element [scrollToMenu] scrolls to: the grid, unless it
    has display none, and then the simple view; nothing on a page without
    the grid. *)
Definition menu_top (p : Page) : option Z :=
  match menuGrid (dom p) with
  | Some g =>
      if String.eqb (grid_display g) "none" then simple_top <$> menuSimple (dom p)
      else Some (grid_top g)
  | None => None
  end.

(** What [announceFilterChange] puts in the live region. *)
Definition announcement (category : string) : string :=
  "Mostrando " +:+ (if String.eqb category "all" then "todos los platos" else category).

(** *** The dialog *)

(** The dialog exists, [E] is the element recorded at its opening, and
    [E] is outside the dialog, where it can take the focus. *)
Definition remembers (E : node) (p : Page) : Prop :=
  present (modal (modalDom p)) = true /\ lastFocusedElement (modalState p) = Some E /\
  outside_dialog E p.

(** The fresh page with a second control in the dialog, a link after the
    close button, and the focus on a link of the page. *)
Definition page_two_controls : Page :=
  on_document (fun d =>
      {| activeElement := Some (Elem 3); bodyOverflow := bodyOverflow d;
         filterAnnouncer := filterAnnouncer d; pageYOffset := pageYOffset d;
         scrollTarget := scrollTarget d;
         place_of := fun n => match n with
                              | Elem 7 => InDialog
                              | _ => place_of d n
                              end |})
    (on_dialog (fun g =>
       {| dlg_display := dlg_display g; dlg_ariaHidden := dlg_ariaHidden g;
          dlg_opacity := dlg_opacity g; dlg_focusable := [CloseBtn; Elem 7] |}) fresh_page).

(** Its dialog, 100 ms after it was opened. *)
Definition dialog_two_controls : Page :=
  advance 100 (fst (openMenuModal (json_of_dish causa) page_two_controls)).

(** *** The cache *)

(** An entry without a timestamp, as another script or an older version
    of the page may have left it. *)
Definition page_cached_untimed : Page :=
  on_storage (fun s =>
    {| items := <[CONFIG.cacheKey :=
                   Reference.stringify (JObj [("data", json_of_catalog carta)])]> (items s);
       readable := readable s; writable := writable s |}) fresh_page.

(** An entry whose timestamp is an object that cannot be converted to a
    number. *)
Definition odd_entry : json :=
  JObj [("timestamp", JObj [("toString", JNum (of_Z 1))]);
        ("data", json_of_catalog carta)].

Definition page_cached_odd : Page :=
  on_storage (fun s =>
    {| items := <[CONFIG.cacheKey := Reference.stringify odd_entry]> (items s);
       readable := readable s; writable := writable s |}) fresh_page.

(** *** Malformed data *)

(** A catalog whose first category holds a number instead of a list of
    dishes. *)
Definition malformed_catalog : json :=
  JObj [("entradas", JNum (of_Z 3)); ("postres", JArr [json_of_dish suspiro])].

(** *** The views *)

(** The two toggles after [updateViewButtons], when both exist. *)
Definition toggles_for (isDetailed : bool) (s : Views) : Views :=
  if present (toggleDetailed s) && present (toggleSimple s)
  then set_toggles
         (Some {| tg_active := isDetailed; tg_ariaPressed := Some (string_of_bool isDetailed) |})
         (Some {| tg_active := negb isDetailed;
                  tg_ariaPressed := Some (string_of_bool (negb isDetailed)) |}) s
  else s.

(** The loaded page with the two buttons of the view toggle, as
    [initViews] leaves them. *)
Definition views_loaded : Views :=
  {| page := page_loaded;
     toggleDetailed := Some {| tg_active := true; tg_ariaPressed := Some "true" |};
     toggleSimple := Some {| tg_active := false; tg_ariaPressed := Some "false" |};
     grid_hidden := false; simple_hidden := true; simple_active := false;
     viewAnnouncer := None; viewTimers := [] |}.

(** The page holds the catalog [c] and has both containers, and its
    active category is one that the catalog has or that is not the name
    of a member objects inherit. *)
Definition holds_catalog (c : list (string * list Dish)) (s : Views) : Prop :=
  data (menu (page s)) = json_of_catalog c /\
  present (menuGrid (dom (page s))) = true /\
  present (menuSimple (dom (page s))) = true /\
  plain_name c (default "all" (activeCategory (menu (page s)))).

(** What the state, the toggles and the live region say: the simple view
    is the active one. *)
Definition says_simple (s : Views) : Prop :=
  activeView (menu (page s)) = simple /\
  toggleDetailed s = Some {| tg_active := false; tg_ariaPressed := Some "false" |} /\
  toggleSimple s = Some {| tg_active := true; tg_ariaPressed := Some "true" |} /\
  viewAnnouncer s = Some "Vista cambiada a simple".

(** What the containers show: the grid, and not the simple view. *)
Definition shows_grid (s : Views) : Prop :=
  grid_display <$> menuGrid (dom (page s)) = Some "grid" /\
  grid_hidden s = false /\
  simple_display <$> menuSimple (dom (page s)) = Some "none" /\
  simple_hidden s = true.

(** The detailed view is requested on the loaded page, where it is
    shown already; 200 ms later the first card has the focus and opens
    the dialog of its dish. *)
Definition dialog_over_old_grid : Views :=
  fst (liftJS (openMenuModal (json_of_dish causa))
         (on_page (set_activeElement first_card)
            (vadvance 200 (fst (switchToDetailedView views_loaded))))).

(** 300 ms later, the grid rendered anew in between, the dialog is
    closed, and 300 ms pass. *)
Definition dialog_closed_over_new_grid : Views :=
  vadvance 300 (fst (liftJS closeMenuModal (vadvance 300 dialog_over_old_grid))).

(** *** Timers *)

Section TimingVocabulary.
Context {Args Target : Type}.

(** What the events do to the page by themselves. *)
Definition effects (events : list (Event Args Target)) (s : Target) : Target :=
  foldl (fun s e => effect e s) s events.

(** The only timer pending is due in [r] milliseconds and calls [c];
    when [c] is the callback of [debounce], it is the timer the variable
    [timeout] names. *)
Definition armed (r : Z) (c : callback Args) (w : Wrapped Args Target) : Prop :=
  exists i,
    w_pending w = [{| timeout_id := i; fires := w_clock w + r; calls := c |}] /\
    (c <> Release -> w_timeout w = Some i).

End TimingVocabulary.

(** A function that keeps a log of its calls, and a call of it [dt]
    milliseconds after the event before. *)
Definition record_call (a : string) (s : list string) : list string := s ++ [a].

Definition call_after (dt : Z) (a : string) : Event string (list string) :=
  {| after := dt; effect := id; args_of := a |}.

(** The menu page before the first scroll event, at its top. *)
Definition page_top : Wrapped unit Header :=
  fresh_wrapper {| scrollY := 0; sticky_visible := false |}.

(** *** The mobile navigation *)

(** The menu is shown exactly when the button says it is expanded, and
    the icon, when there is one, is the cross then and the bars
    otherwise. *)
Definition nav_consistent (n : MobileNav) : Prop :=
  ariaExpanded n = Some (if nav_show n then "true" else "false") /\
  (icon n = None \/ icon n = Some (if nav_show n then "fas fa-times" else "fas fa-bars")).

(** *** The active link *)


(** *** Texts *)

(** The characters of a slug: the digits, the small letters a to z, the
    underscore and the hyphen. *)
Definition slug_char (c : ascii) : bool :=
  between 48 57 c || between 97 122 c || between 95 95 c || Ascii.eqb c hyphen.

(** Two hyphens in a row. *)
Fixpoint double_hyphen (l : list ascii) : bool :=
  match l with
  | a :: rest =>
      match rest with
      | b :: _ => (Ascii.eqb a hyphen && Ascii.eqb b hyphen) || double_hyphen rest
      | [] => false
      end
  | [] => false
  end.

(** A part of an address: not empty, without white space and without @. *)
Definition address_part (s : string) : Prop :=
  s <> "" /\
  Forall (fun c => is_space c = false /\ c <> "@"%char) (list_ascii_of_string s).

(** The texts a regular expression stands for. *)
Inductive lang : regex -> list ascii -> Prop :=
| lang_Eps : lang Eps []
| lang_NoneOf ks c : existsb (fun k => in_class k c) ks = false -> lang (NoneOf ks) [c]
| lang_Lit c : lang (Lit c) [c]
| lang_Seq r1 r2 s1 s2 : lang r1 s1 -> lang r2 s2 -> lang (Seq r1 r2) (s1 ++ s2)
| lang_Alt_l r1 r2 s : lang r1 s -> lang (Alt r1 r2) s
| lang_Alt_r r1 r2 s : lang r2 s -> lang (Alt r1 r2) s
| lang_Star_nil r : lang (Star r) []
| lang_Star_cons r s1 s2 : lang r s1 -> lang (Star r) s2 -> lang (Star r) (s1 ++ s2).

(** Nothing but white space. *)
Definition blank (s : string) : Prop :=
  Forall (fun c => is_space c = true) (list_ascii_of_string s).

(** Neither the first nor the last character is white space. *)
Definition trimmed (s : string) : Prop :=
  (forall c, head (list_ascii_of_string s) = Some c -> is_space c = false) /\
  (forall c, last (list_ascii_of_string s) = Some c -> is_space c = false).

(** * Properties *)

(** ** How scripts run *)

Lemma run_bind {A B : Type} (m : JS A) (f : A -> JS B) (p : Page) :
  (m ≫= f) p =
  match m p with
  | (p', Ok a) => f a p'
  | (p', Throw e) => (p', Throw e)
  end.
Proof. reflexivity. Qed.

Lemma run_update_bind {B : Type} (f : Page -> Page) (k : unit -> JS B) (p : Page) :
  (update f ≫= k) p = k tt (f p).
Proof. reflexivity. Qed.

Lemma forEach_with_cons {A V : Type} (x : A) (rest : list A) (f : V -> A -> JS V) (v : V)
    (q : Page) :
  forEach_with (x :: rest) f v q =
  match f v x q with
  | (q', Ok v') => forEach_with rest f v' q'
  | (q', Throw e) => (q', Throw e)
  end.
Proof. reflexivity. Qed.

Lemma forEach_cons {A : Type} (x : A) (rest : list A) (f : A -> JS unit) (q : Page) :
  forEach (x :: rest) f q =
  match f x q with
  | (q', Ok _) => forEach rest f q'
  | (q', Throw e) => (q', Throw e)
  end.
Proof. reflexivity. Qed.

#[local] Arguments getFromCache : simpl never.
#[local] Arguments saveToCache : simpl never.
#[local] Arguments advance : simpl never.
#[local] Arguments started : simpl never.
#[local] Arguments gt : simpl never.
#[local] Arguments sub : simpl never.
#[local] Arguments ToNumber : simpl never.
#[local] Arguments can_focus : simpl never.
#[local] Arguments ToPrimitive : simpl never.

(** Unfolds the plumbing of a script down to the page it yields. *)
Ltac run :=
  repeat (unfold mbind, JS_bind, mret, JS_ret, result_bind, result_ret, try_catch, read,
          lift, update, throw; cbn).

(** ** What a script keeps *)

Section Keeps.
Variable R : Page -> Page -> Prop.
Hypothesis R_refl : forall p, R p p.
Hypothesis R_trans : forall p q r, R p q -> R q r -> R p r.

Lemma keeps_ret {A : Type} (a : A) : keeps R (mret a).
Proof. intros p. apply R_refl. Qed.

Lemma keeps_lift {A : Type} (r : result A) : keeps R (lift r).
Proof. intros p. apply R_refl. Qed.

Lemma keeps_read {A : Type} (f : Page -> A) : keeps R (read f).
Proof. intros p. apply R_refl. Qed.

Lemma keeps_update (f : Page -> Page) : (forall p, R p (f p)) -> keeps R (update f).
Proof. intros Hf p. apply Hf. Qed.

Lemma keeps_bind {A B : Type} (m : JS A) (f : A -> JS B) :
  keeps R m -> (forall a, keeps R (f a)) -> keeps R (m ≫= f).
Proof.
  intros Hm Hf p. unfold mbind, JS_bind.
  specialize (Hm p). destruct (m p) as [q [a|e]]; cbn in *.
  - eapply R_trans; [exact Hm|apply Hf].
  - exact Hm.
Qed.

Lemma keeps_forEach {A : Type} (l : list A) (f : A -> JS unit) :
  (forall x, keeps R (f x)) -> keeps R (forEach l f).
Proof.
  intros Hf. induction l as [|x rest IH]; cbn.
  - apply keeps_ret.
  - apply keeps_bind; [apply Hf|intros _; exact IH].
Qed.

Lemma keeps_forEach_with {A V : Type} (l : list A) (f : V -> A -> JS V) (v : V) :
  (forall v x, keeps R (f v x)) -> keeps R (forEach_with l f v).
Proof.
  intros Hf. revert v. induction l as [|x rest IH]; intros v; cbn.
  - apply keeps_ret.
  - apply keeps_bind; [apply Hf|intros v'; apply IH].
Qed.

End Keeps.

Lemma filters_kept_refl (p : Page) : filters_kept p p.
Proof. split; reflexivity. Qed.

Lemma filters_kept_trans (p q r : Page) :
  filters_kept p q -> filters_kept q r -> filters_kept p r.
Proof. intros [Hm Hf] [Hm' Hf']. split; congruence. Qed.

(** One step along a script towards [keeps filters_kept]. *)
Ltac keeps_step :=
  first
    [ apply (keeps_ret filters_kept filters_kept_refl)
    | apply (keeps_lift filters_kept filters_kept_refl)
    | apply (keeps_read filters_kept filters_kept_refl)
    | apply (keeps_bind filters_kept filters_kept_trans)
    | apply (keeps_forEach filters_kept filters_kept_refl filters_kept_trans)
    | apply (keeps_forEach_with filters_kept filters_kept_refl filters_kept_trans)
    | apply keeps_update; intros [? ? [? ? ? ? ?] ? ? ? ?]; split; reflexivity
    | match goal with
      | |- keeps _ (if ?b then _ else _) => destruct b
      | |- keeps _ (match ?x with _ => _ end) => destruct x
      | |- forall _, _ => intro
      end ].

Ltac keeps_filters := repeat keeps_step.

Lemma renderDetailedView_keeps (data : json) (category : option string) :
  keeps filters_kept (renderDetailedView data category).
Proof. unfold renderDetailedView. keeps_filters. Qed.

Lemma renderSimpleView_keeps (data : json) (category : option string) :
  keeps filters_kept (renderSimpleView data category).
Proof. unfold renderSimpleView. keeps_filters. Qed.

Lemma scrollToMenu_keeps : keeps filters_kept scrollToMenu.
Proof. unfold scrollToMenu. keeps_filters. Qed.

Lemma announceFilterChange_keeps (category : option string) :
  keeps filters_kept (announceFilterChange category).
Proof. unfold announceFilterChange. keeps_filters. Qed.

(** ** The event loop leaves the loader's side of the page alone *)

Lemma menu_side_kept_refl (p : Page) : menu_side_kept p p.
Proof. repeat split. Qed.

Lemma menu_side_kept_trans (p q r : Page) :
  menu_side_kept p q -> menu_side_kept q r -> menu_side_kept p r.
Proof.
  intros (Hm & Hs & Hd) (Hm' & Hs' & Hd'). repeat split; congruence.
Qed.

Lemma run_task_kept (j : task) (p : Page) : menu_side_kept p (fst (run_task j p)).
Proof.
  destruct p as [m s d ms md doc lp], md as [dlg btn img ttl dsc prc].
  destruct j; unfold run_task, the_dialog, focus, on_dialog; run.
  - destruct dlg; run; repeat split.
  - destruct btn; run; [destruct (can_focus _ _)|]; repeat split.
  - destruct dlg; run; [|repeat split].
    destruct (lastFocusedElement ms); run; [destruct (can_focus _ _)|]; repeat split.
Qed.

Lemma run_due_kept (t : Z) (q : list timer) (p : Page) :
  menu_side_kept p (run_due t q p).
Proof.
  revert p. induction q as [|x rest IH]; intros p; cbn.
  - apply menu_side_kept_refl.
  - destruct (due x <=? t); [|apply menu_side_kept_refl].
    eapply menu_side_kept_trans; [|apply IH].
    eapply menu_side_kept_trans; [|apply run_task_kept].
    repeat split.
Qed.

Lemma advance_kept (dt : Z) (p : Page) : menu_side_kept p (advance dt p).
Proof.
  unfold advance.
  eapply menu_side_kept_trans; [apply (run_due_kept (clock (loop p) + dt) (timers (loop p)) p)|].
  repeat split.
Qed.

Lemma advance_menu (dt : Z) (p : Page) : menu (advance dt p) = menu p.
Proof. apply advance_kept. Qed.

Lemma advance_storage (dt : Z) (p : Page) : storage (advance dt p) = storage p.
Proof. apply advance_kept. Qed.

Lemma advance_dom (dt : Z) (p : Page) : dom (advance dt p) = dom p.
Proof. apply advance_kept. Qed.

(** Callbacks set no timers, so the queue only shrinks; the clock moves on
    by exactly [dt]. *)
Lemma advance_clock (dt : Z) (p : Page) : clock (loop (advance dt p)) = clock (loop p) + dt.
Proof. reflexivity. Qed.

(** ** Numbers *)

Lemma age_test (now ts limit : Z) :
  gt (sub (Fin (of_Z now)) (Fin (of_Z ts))) (Fin (of_Z limit)) = (limit <? now - ts).
Proof.
  unfold gt, sub, dec_gtb, dec_sub, align, of_Z, pow10. cbn.
  f_equal; lia.
Qed.

(** The same for a timestamp with a fraction. *)
Lemma age_test_decimal (now limit : Z) (ts : decimal) :
  gt (sub (Fin (of_Z now)) (Fin ts)) (Fin (of_Z limit))
  = (limit * pow10 (scale ts) <? now * pow10 (scale ts) - mantissa ts).
Proof.
  destruct ts as [m k].
  unfold gt, sub, dec_gtb, dec_sub, align, of_Z. cbn [mantissa scale].
  rewrite Nat.max_0_l, Nat.max_0_r, Nat.sub_0_r, Nat.sub_diag.
  change (pow10 0) with 1. f_equal; lia.
Qed.

(** ** The cache and the loader *)

Section Loader.
Context `{Platform}.

Lemma getFromCache_run (p : Page) :
  exists s' c, getFromCache p = (on_storage (fun _ => s') p, Ok c).
Proof.
  destruct p as [m s d ms md doc lp].
  unfold getFromCache, getItem, removeItem, Date_now. run.
  destruct (readable s) eqn:Hr; run.
  2: { exists s. eexists. reflexivity. }
  destruct (items s !! CONFIG.cacheKey) as [text|] eqn:Hi; run.
  2: { exists s. eexists. reflexivity. }
  destruct text as [|a text'].
  { exists s. eexists. reflexivity. }
  destruct (JSON_parse (String a text')) as [entry|e]; run.
  2: { exists s. eexists. reflexivity. }
  destruct (get entry "timestamp") as [ts|e]; run.
  2: { exists s. eexists. reflexivity. }
  unfold minus. destruct (ToPrimitive ts); run.
  2: { exists s. eexists. reflexivity. }
  destruct (gt _ _); run.
  - rewrite Hr. run. eexists. eexists. reflexivity.
  - destruct (get entry "data"); run; exists s; eexists; reflexivity.
Qed.

Lemma saveToCache_run (v : json) (p : Page) :
  exists s', saveToCache v p = (on_storage (fun _ => s') p, Ok tt).
Proof.
  destruct p as [m s d ms md doc lp].
  unfold saveToCache, setItem, Date_now. run.
  destruct (readable s && writable s); run; eexists; reflexivity.
Qed.

(** The answer of the cache depends on the storage and the clock only. *)
Lemma getFromCache_depends (p q : Page) :
  storage p = storage q -> clock (loop p) = clock (loop q) ->
  snd (getFromCache p) = snd (getFromCache q) /\
  storage (fst (getFromCache p)) = storage (fst (getFromCache q)).
Proof.
  destruct p as [m s d ms md doc lp], q as [m' s' d' ms' md' doc' lp']. cbn.
  intros <- Hc.
  unfold getFromCache, getItem, removeItem, Date_now. run.
  destruct (readable s) eqn:Hr; run; [|done].
  destruct (items s !! CONFIG.cacheKey) as [text|]; run; [|done].
  destruct text as [|a text']; [done|].
  destruct (JSON_parse (String a text')) as [entry|e]; run; [|done].
  destruct (get entry "timestamp") as [ts|e]; run; [|done].
  rewrite <- Hc. unfold minus.
  destruct (ToPrimitive ts); run; [|done].
  destruct (gt _ _); run.
  - rewrite Hr. run. done.
  - destruct (get entry "data"); run; done.
Qed.

Lemma cached_started (p : Page) : cached (started p) = cached p.
Proof.
  unfold cached.
  destruct (getFromCache_depends (started p) p) as [-> _]; [| |done];
    destruct p as [m s d ms md doc lp]; reflexivity.
Qed.

(** C5: when the cache misses and the fetch fails, by its status, or by
    the validation of its body, or by a body that is not JSON (the parser
    giving a message), the error field holds the (non-empty) message of
    the error, the loading flag is false, the error panel is shown, the
    loading panel and both menu containers are hidden, and the error is
    thrown to the caller. *)
Theorem failed_load_sets_error_state (net : Fetch) (resp : Response) (p : Page) :
  cache_miss p ->
  response net = Ok resp ->
  (ok resp = false \/
   (exists v, body resp = Ok v /\ rejected v = true) \/
   (exists e, body resp = Throw e /\ message e <> "")) ->
  let p' := fst (loadMenuData net p) in
  (exists e, snd (loadMenuData net p) = Throw e /\
             error (menu p') = Some (message e) /\ message e <> "") /\
  isLoading (menu p') = false /\
  errorState (dom p') = (fun _ => {| hidden := false |}) <$> errorState (dom p) /\
  loadingState (dom p') = (fun _ => {| hidden := true |}) <$> loadingState (dom p) /\
  grid_display <$> menuGrid (dom p') = (fun _ => "none") <$> menuGrid (dom p) /\
  simple_display <$> menuSimple (dom p') = (fun _ => "none") <$> menuSimple (dom p).
Proof.
  intros Hmiss Hresp Hfail.
  unfold cache_miss in Hmiss. rewrite <- cached_started in Hmiss. unfold cached in Hmiss.
  assert (Hout : exists e q,
    loadMenuData net p =
      (fst (showError (set_error (Some (message e)) (set_isLoading false q))), Throw e) /\
    message e <> "" /\ dom q = dom (started p)).
  { unfold loadMenuData, showLoading. run.
    change (getFromCache _) with (getFromCache (started p)).
    destruct (getFromCache_run (started p)) as (s' & c & Hrun).
    rewrite Hrun in Hmiss |- *. cbn in Hmiss.
    assert (Hgo : match c with Some cached0 => truthy cached0 | None => false end = false)
      by (destruct c; exact Hmiss).
    unfold fetch, response_json, sleep. run. rewrite Hresp.
    destruct Hfail as [Hok | [(v & Hbody & Hrej) | ([msg] & Hbody & Hmsg)]].
    - destruct c as [c|]; [rewrite Hgo|]; run; rewrite Hok; run;
        match goal with
        | |- context [set_error (Some ?msg) (set_isLoading false ?q0)] =>
            exists (Error msg), q0
        end;
        (split; [reflexivity|split; [discriminate|]]);
        now rewrite advance_dom.
    - unfold rejected in Hrej.
      destruct c as [c|]; [rewrite Hgo|]; run; (destruct (ok resp); run;
        [ rewrite Hbody; run; rewrite Hrej; run | ]);
        match goal with
        | |- context [set_error (Some ?msg) (set_isLoading false ?q0)] =>
            exists (Error msg), q0
        end;
        (split; [reflexivity|split; [discriminate|]]);
        now rewrite ?advance_dom.
    - destruct c as [c|]; [rewrite Hgo|]; run; (destruct (ok resp); run;
        [ rewrite Hbody; run | ]);
        match goal with
        | |- context [set_error (Some ?msg) (set_isLoading false ?q0)] =>
            exists (Error msg), q0
        end;
        (split; [reflexivity|split; [first [exact Hmsg|discriminate]|]]);
        now rewrite ?advance_dom. }
  destruct Hout as (e & q & -> & Hmsg & Hdom). cbn zeta. cbn [fst snd].
  assert (Hstart : dom (started p) = dom (fst (showLoading p)))
    by (destruct p; reflexivity).
  split; [exists e; repeat split; exact Hmsg|].
  unfold showError. run. rewrite Hdom, Hstart.
  destruct p as [m s [grid smp flt ldg err] ms md doc lp]. cbn.
  destruct grid, smp, ldg, err; repeat split.
Qed.

(** C1, amended: when the cache misses and the fetch returns a success
    status, a body that is null or a scalar (a boolean, a number, a string)
    makes [loadMenuData] fail with the error "Formato de datos inválido";
    a body that is an object or an array passes the validation, is returned
    and becomes the data of the shared state. *)
Theorem load_validates_body (net : Fetch) (resp : Response) (v : json) (p : Page) :
  cache_miss p ->
  response net = Ok resp ->
  ok resp = true ->
  body resp = Ok v ->
  match v with
  | JObj _ | JArr _ =>
      snd (loadMenuData net p) = Ok v /\
      data (menu (fst (loadMenuData net p))) = v
  | JNull | JBool _ | JNum _ | JStr _ =>
      snd (loadMenuData net p) = Throw (Error "Formato de datos inválido")
  end.
Proof.
  intros Hmiss Hresp Hok Hbody.
  unfold cache_miss in Hmiss. rewrite <- cached_started in Hmiss. unfold cached in Hmiss.
  unfold loadMenuData, showLoading. run.
  change (getFromCache _) with (getFromCache (started p)).
  destruct (getFromCache_run (started p)) as (s' & c & Hrun).
  rewrite Hrun in Hmiss |- *. cbn in Hmiss.
  assert (Hfetch : forall q, fetch net q = (advance (response_after net) q, Ok resp)).
  { intros q. unfold fetch, sleep. run. now rewrite Hresp. }
  assert (Hjson : forall q, response_json resp q = (advance (body_after resp) q, Ok v)).
  { intros q. unfold response_json, sleep. run. now rewrite Hbody. }
  destruct c as [c|]; [cbn in Hmiss; rewrite Hmiss|];
    rewrite Hfetch, Hok; run; rewrite Hjson;
    destruct v as [|b|d|str|its|props]; run; try reflexivity;
    try (destruct b; reflexivity);
    try (destruct (mantissa d =? 0); reflexivity);
    try (destruct (String.eqb str ""); reflexivity);
    match goal with
    | |- context [saveToCache ?x ?q] =>
        destruct (saveToCache_run x q) as (s'' & ->); run; split; reflexivity
    end.
Qed.

(** C9: a load that finds a usable entry in the cache returns it and leaves
    the error field as it was; otherwise the load either succeeds from the
    network, and only then sets the error field to null, or fails and sets
    it to the message of the error. *)
Theorem load_error_field (net : Fetch) (p : Page) :
  let p' := fst (loadMenuData net p) in
  if truthy_opt (cached p) then
    exists c, cached p = Some c /\ snd (loadMenuData net p) = Ok c /\
              data (menu p') = c /\ error (menu p') = error (menu p)
  else
    match snd (loadMenuData net p) with
    | Ok v =>
        error (menu p') = None /\
        exists resp, response net = Ok resp /\ ok resp = true /\ body resp = Ok v
    | Throw e => error (menu p') = Some (message e)
    end.
Proof.
  rewrite <- cached_started. unfold cached.
  unfold loadMenuData, showLoading. run.
  change (getFromCache _) with (getFromCache (started p)).
  destruct (getFromCache_run (started p)) as (s' & c & Hrun).
  rewrite Hrun. cbn [snd].
  destruct c as [c|]; cbn [truthy_opt]; [destruct (truthy c) eqn:Hc|].
  - run. exists c. repeat split.
  - unfold fetch, response_json, sleep. run.
    destruct (response net) as [resp|e]; run; [|reflexivity].
    destruct (ok resp) eqn:Hok; run; [|reflexivity].
    destruct (body resp) as [v|e] eqn:Hb; run; [|reflexivity].
    destruct (negb (truthy v) || negb (typeof_object v)); run; [reflexivity|].
    match goal with
    | |- context [saveToCache ?x ?q] => destruct (saveToCache_run x q) as (s'' & ->)
    end.
    run. split; [reflexivity|]. exists resp. repeat split; assumption.
  - unfold fetch, response_json, sleep. run.
    destruct (response net) as [resp|e]; run; [|reflexivity].
    destruct (ok resp) eqn:Hok; run; [|reflexivity].
    destruct (body resp) as [v|e] eqn:Hb; run; [|reflexivity].
    destruct (negb (truthy v) || negb (typeof_object v)); run; [reflexivity|].
    match goal with
    | |- context [saveToCache ?x ?q] => destruct (saveToCache_run x q) as (s'' & ->)
    end.
    run. split; [reflexivity|]. exists resp. repeat split; assumption.
Qed.

(** A value that has a number is one that ToPrimitive accepts. *)
Lemma ToNumber_Fin (v : option json) (ts : decimal) :
  ToNumber v = Fin ts -> ToPrimitive v = Ok tt.
Proof.
  unfold ToNumber, ToPrimitive. destruct v as [[| | | |items|props]|]; try reflexivity.
  - destruct (convertible (JArr items)); [reflexivity|discriminate].
  - discriminate.
Qed.

(** C6: with the storage readable, an entry whose timestamp is (or
    converts to) a number more than 24 hours before now makes
    [getFromCache] report null and remove the entry, the other items
    staying; a missing entry and an entry that does not parse are reported
    null as well. *)
Theorem stale_cache_is_absent (p : Page) :
  readable (storage p) = true ->
  (forall text entry timestamp ts,
     items (storage p) !! CONFIG.cacheKey = Some text ->
     JSON_parse text = Ok entry ->
     get entry "timestamp" = Ok timestamp ->
     ToNumber timestamp = Fin ts ->
     older_than (24 * 60 * 60 * 1000) (clock (loop p)) ts ->
     snd (getFromCache p) = Ok (Some JNull) /\
     items (storage (fst (getFromCache p))) = delete CONFIG.cacheKey (items (storage p))) /\
  (items (storage p) !! CONFIG.cacheKey = None ->
     snd (getFromCache p) = Ok (Some JNull)) /\
  (forall text e,
     items (storage p) !! CONFIG.cacheKey = Some text ->
     JSON_parse text = Throw e ->
     snd (getFromCache p) = Ok (Some JNull)).
Proof.
  intros Hr. destruct p as [m [its rd wr] d ms md doc lp]. cbn in *. subst rd.
  split; [|split].
  - intros text entry timestamp ts Hitem Hparse Hts Hnum Hold.
    unfold getFromCache, getItem, removeItem, Date_now. run.
    rewrite Hitem. destruct text as [|a text']; [now apply JSON_parse_empty in Hparse|].
    rewrite Hparse. run. rewrite Hts. run.
    unfold minus. rewrite (ToNumber_Fin _ _ Hnum). run. rewrite Hnum, age_test_decimal.
    replace (_ <? _) with true
      by (symmetry; apply Z.ltb_lt; unfold older_than, CONFIG.cacheExpiry in *; lia).
    run. split; reflexivity.
  - intros Hnone. unfold getFromCache, getItem. run. now rewrite Hnone.
  - intros text e Hsome Hbad. unfold getFromCache, getItem. run.
    rewrite Hsome. destruct text; [reflexivity|]. rewrite Hbad. reflexivity.
Qed.

(** C7: with the storage readable and writable, [saveToCache] followed,
    at most 24 hours later, by [getFromCache] returns the saved catalog,
    for every catalog whose cache entry [JSON.parse] reads back from what
    [JSON.stringify] wrote. *)
Theorem cache_round_trip (catalog : json) (p : Page) (dt : Z) :
  readable (storage p) = true ->
  writable (storage p) = true ->
  0 <= dt <= 24 * 60 * 60 * 1000 ->
  JSON_parse (JSON_stringify (cache_entry catalog (clock (loop p))))
    = Ok (cache_entry catalog (clock (loop p))) ->
  snd (getFromCache (advance dt (fst (saveToCache catalog p)))) = Ok (Some catalog).
Proof.
  intros Hr Hw Hdt Hcodec.
  set (saved := fst (saveToCache catalog p)).
  set (later := on_loop (fun l =>
         {| clock := clock l + dt; frame := frame l; timers := timers l |}) saved).
  destruct (getFromCache_depends (advance dt saved) later) as [-> _].
  { now rewrite advance_storage. }
  { now rewrite advance_clock. }
  subst later saved. destruct p as [m s d ms md doc lp]. cbn in *.
  unfold saveToCache, setItem, Date_now. run. rewrite Hr, Hw. run.
  unfold getFromCache, getItem, removeItem, Date_now. run. rewrite Hr. run.
  rewrite lookup_insert_eq.
  fold (cache_entry catalog (clock lp)).
  destruct (JSON_stringify (cache_entry catalog (clock lp))) as [|a text'] eqn:Htext;
    [now apply JSON_parse_empty in Hcodec|].
  rewrite Hcodec. run. unfold minus, ToPrimitive. run. unfold ToNumber. rewrite age_test.
  replace (CONFIG.cacheExpiry <? clock lp + dt - clock lp) with false
    by (symmetry; apply Z.ltb_ge; unfold CONFIG.cacheExpiry; lia).
  reflexivity.
Qed.

End Loader.

(** C1 as stated fails: with an empty cache and a 200 answer whose body is
    an array, [loadMenuData] does not fail; it returns the array. *)
Lemma array_body_is_accepted :
  @cache_miss Reference.platform fresh_page /\
  is_mapping array_body = false /\
  snd (@loadMenuData Reference.platform (answers array_body) fresh_page) = Ok array_body /\
  data (menu (fst (@loadMenuData Reference.platform (answers array_body) fresh_page)))
    = array_body.
Proof. vm_compute. repeat split. Qed.

(** C1, amended, on the fresh page with the body [null]. *)
Lemma load_validates_body_witness :
  @cache_miss Reference.platform fresh_page /\
  snd (@loadMenuData Reference.platform (answers JNull) fresh_page)
    = Throw (Error "Formato de datos inválido").
Proof.
  assert (Hmiss : @cache_miss Reference.platform fresh_page) by reflexivity.
  split; [exact Hmiss|].
  exact (@load_validates_body Reference.platform (answers JNull) _ JNull fresh_page
           Hmiss eq_refl eq_refl eq_refl).
Defined.

(** C5 on the fresh page, with the server answering 500. *)
Lemma failed_load_sets_error_state_witness :
  @cache_miss Reference.platform fresh_page /\
  error (menu (fst (@loadMenuData Reference.platform (fails_with 500) fresh_page)))
    = Some "HTTP error! status: 500" /\
  isLoading (menu (fst (@loadMenuData Reference.platform (fails_with 500) fresh_page)))
    = false /\
  errorState (dom (fst (@loadMenuData Reference.platform (fails_with 500) fresh_page)))
    = Some {| hidden := false |}.
Proof.
  assert (Hmiss : @cache_miss Reference.platform fresh_page) by reflexivity.
  destruct (@failed_load_sets_error_state Reference.platform (fails_with 500) _ fresh_page
              Hmiss eq_refl (or_introl eq_refl)) as ((e & Hthrow & Herr & _) & Hload & Hpanel & _).
  split; [exact Hmiss|]. split; [|split; [exact Hload|exact Hpanel]].
  rewrite Herr. vm_compute in Hthrow. injection Hthrow as <-. reflexivity.
Defined.

(** C6 on a page whose cache was written 25 hours ago. *)
Lemma stale_cache_is_absent_witness :
  readable (storage (page_cached 90000000)) = true /\
  snd (@getFromCache Reference.platform (page_cached 90000000)) = Ok (Some JNull) /\
  items (storage (fst (@getFromCache Reference.platform (page_cached 90000000))))
    !! CONFIG.cacheKey = None.
Proof.
  destruct (@stale_cache_is_absent Reference.platform (page_cached 90000000) eq_refl)
    as (Hexpired & _ & _).
  destruct (Hexpired _ _ _ (of_Z (1750000000000 - 90000000))
              ltac:(vm_compute; reflexivity)
              ltac:(vm_compute; reflexivity) eq_refl eq_refl
              ltac:(vm_compute; reflexivity))
    as [Hnull Hgone].
  split; [reflexivity|]. split; [exact Hnull|].
  rewrite Hgone. apply lookup_delete_eq.
Defined.

(** C7 on the fresh page: the menu is saved and read an hour later. *)
Lemma cache_round_trip_witness :
  snd (@getFromCache Reference.platform
         (advance 3600000
            (fst (@saveToCache Reference.platform (json_of_catalog carta) fresh_page))))
  = Ok (Some (json_of_catalog carta)).
Proof.
  apply (@cache_round_trip Reference.platform (json_of_catalog carta) fresh_page 3600000
           eq_refl eq_refl).
  - lia.
  - vm_compute. reflexivity.
Defined.

(** ** The filter bar *)

Lemma applyFilter_buttons (c : option string) (p : Page) :
  filter_buttons (fst (applyFilter c p)) = marked c <$> filter_buttons p /\
  activeCategory (menu (fst (applyFilter c p))) = c.
Proof.
  unfold applyFilter, updateFilterButtons. rewrite !run_update_bind.
  match goal with
  | |- context [fst (?m ?q)] =>
      assert (Hkeeps : keeps filters_kept m);
      [|destruct (Hkeeps q) as [Hmenu Hbar]]
  end.
  { repeat first
      [ apply renderDetailedView_keeps
      | apply renderSimpleView_keeps
      | apply scrollToMenu_keeps
      | apply announceFilterChange_keeps
      | keeps_step ]. }
  unfold filter_buttons. rewrite Hmenu, Hbar.
  destruct p as [m s [g sp flt ld er] ms md doc lp]. cbn.
  split; [|reflexivity]. destruct flt; reflexivity.
Qed.

Lemma marked_count (c : option string) (l : list FilterButton) :
  length (filter fb_active (marked c <$> l)) =
  length (filter (fun b => fb_category b = c) l).
Proof.
  induction l as [|b rest IH]; [reflexivity|].
  rewrite fmap_cons, !filter_cons. cbn [fb_active marked].
  destruct (decide (fb_category b = c)) as [Heq|Hne].
  - rewrite decide_True by (now apply bool_decide_pack). cbn. now rewrite IH.
  - rewrite decide_False; [exact IH|].
    intros Habs. apply Is_true_true, bool_decide_eq_true in Habs. contradiction.
Qed.

(** C3 as stated fails: on the loaded page no control has the category
    "vinos", and after [applyFilter("vinos")] no control is active. *)
Lemma no_control_active_after_unknown_category :
  matching_count (Some "vinos") page_loaded = 0%nat /\
  active_count (fst (applyFilter (Some "vinos") page_loaded)) = 0%nat.
Proof. vm_compute. split; reflexivity. Qed.

(** C3, amended: after [applyFilter(category)] the shared state holds the
    category, and a filter control carries the active marker, and has
    aria-pressed "true", exactly when its category attribute equals the
    requested category; so as many controls are active as have that
    category: exactly one when exactly one control has it, none when no
    control has it. *)
Theorem applyFilter_marks_matching_controls (c : option string) (p : Page) :
  let p' := fst (applyFilter c p) in
  activeCategory (menu p') = c /\
  length (filter_buttons p') = length (filter_buttons p) /\
  (forall i b, filter_buttons p !! i = Some b ->
     exists b', filter_buttons p' !! i = Some b' /\
                fb_category b' = fb_category b /\
                (fb_active b' = true <-> fb_category b = c) /\
                (fb_ariaPressed b' = Some "true" <-> fb_category b = c)) /\
  active_count p' = matching_count c p.
Proof.
  cbn zeta. destruct (applyFilter_buttons c p) as [Hbar Hcat].
  unfold active_count, matching_count. rewrite Hbar.
  split; [exact Hcat|]. split; [apply length_fmap|]. split; [|apply marked_count].
  intros i b Hb. exists (marked c b). rewrite list_lookup_fmap, Hb. cbn.
  split; [reflexivity|]. split; [reflexivity|].
  rewrite bool_decide_eq_true.
  split; [reflexivity|].
  destruct (bool_decide (fb_category b = c)) eqn:Hd.
  - apply bool_decide_eq_true in Hd. split; auto.
  - apply bool_decide_eq_false in Hd. split; [discriminate|contradiction].
Qed.

(** C3, amended, on the loaded page: after the filter "postres" the third
    control, and only it, is active. *)
Lemma applyFilter_marks_matching_controls_witness :
  active_count (fst (applyFilter (Some "postres") page_loaded)) = 1%nat /\
  fb_active <$> filter_buttons (fst (applyFilter (Some "postres") page_loaded)) !! 2%nat
  = Some true.
Proof.
  destruct (applyFilter_marks_matching_controls (Some "postres") page_loaded)
    as (_ & _ & Heach & Hcount).
  split; [rewrite Hcount; reflexivity|].
  destruct (Heach 2%nat (createFilterButton "postres" "Postres" false) eq_refl)
    as (b' & -> & _ & Hactive & _).
  cbn. f_equal. now apply Hactive.
Defined.

(** C10: [getActiveCategory] leaves the page as it is; it returns the
    category attribute of the first control that carries the active marker
    (the control, when one carries it), and "all" when no control carries
    it, in particular when there is no control. *)
Theorem getActiveCategory_reads_marker (p : Page) :
  fst (getActiveCategory p) = p /\
  (forall i b,
     filter_buttons p !! i = Some b ->
     fb_active b = true ->
     (forall j b', filter_buttons p !! j = Some b' -> (j < i)%nat -> fb_active b' = false) ->
     snd (getActiveCategory p) = Ok (fb_category b)) /\
  ((forall b, b ∈ filter_buttons p -> fb_active b = false) ->
     snd (getActiveCategory p) = Ok (Some "all")).
Proof.
  unfold getActiveCategory. run.
  split; [destruct (list_find _ _) as [[? ?]|]; reflexivity|]. split.
  - intros i b Hi Hb Hfirst.
    assert (Hfind : list_find fb_active (filter_buttons p) = Some (i, b)).
    { apply list_find_Some. split; [exact Hi|]. split; [now rewrite Hb|].
      intros j b' Hj Hlt Hact. apply Is_true_true in Hact.
      rewrite (Hfirst j b' Hj Hlt) in Hact. discriminate. }
    now rewrite Hfind.
  - intros Hnone.
    assert (Hfind : list_find fb_active (filter_buttons p) = None).
    { apply list_find_None, Forall_forall. intros b Hb Hact.
      apply Is_true_true in Hact. rewrite (Hnone b Hb) in Hact. discriminate. }
    now rewrite Hfind.
Qed.

(** C10 on the loaded page after the filter "postres": the third control
    carries the marker and the two before it do not, so "postres" is
    read; and on the fresh page, which has no control, "all" is read. *)
Lemma getActiveCategory_reads_marker_witness :
  snd (getActiveCategory (fst (applyFilter (Some "postres") page_loaded)))
    = Ok (Some "postres") /\
  snd (getActiveCategory fresh_page) = Ok (Some "all").
Proof.
  split.
  - destruct (getActiveCategory_reads_marker (fst (applyFilter (Some "postres") page_loaded)))
      as (_ & Hfirst & _).
    apply (Hfirst 2%nat
             {| fb_category := Some "postres"; fb_label := "Postres"; fb_active := true;
                fb_ariaPressed := Some "true";
                fb_ariaLabel := Some "Filtrar por Postres" |}).
    + vm_compute. reflexivity.
    + reflexivity.
    + intros j b' Hj Hlt. destruct j as [|[|j]]; [| |lia];
        vm_compute in Hj; injection Hj as <-; reflexivity.
  - destruct (getActiveCategory_reads_marker fresh_page) as (_ & _ & Hnone).
    apply Hnone. intros b' Hin. vm_compute in Hin. now apply elem_of_nil in Hin.
Defined.

(** ** The modal dialog *)

Lemma get_not_null (v : json) (k : string) : v <> JNull -> exists x, get v k = Ok x.
Proof.
  intros Hv. destruct v; cbn; try (eexists; reflexivity); [contradiction| |];
    destruct (String.eqb k "length"); eexists; reflexivity.
Qed.

(** *** Steps of the event loop *)

Lemma enqueue_nil (t : timer) : enqueue t [] = [t].
Proof. reflexivity. Qed.

Lemma enqueue_before (t x : timer) (q : list timer) :
  due t < due x -> enqueue t (x :: q) = t :: x :: q.
Proof. intros Hlt. cbn. now apply Z.ltb_lt in Hlt as ->. Qed.

Lemma enqueue_after (t x : timer) (q : list timer) :
  due x <= due t -> enqueue t (x :: q) = x :: enqueue t q.
Proof. intros Hle. cbn. now apply Z.ltb_ge in Hle as ->. Qed.

Lemma run_due_nil (t : Z) (p : Page) : run_due t [] p = p.
Proof. reflexivity. Qed.

Lemma run_due_now (t : Z) (x : timer) (rest : list timer) (p : Page) :
  due x <= t ->
  run_due t (x :: rest) p =
  run_due t rest
    (fst (run_task (job x)
       (on_loop (fun l => {| clock := Z.max (clock l) (due x); frame := frame l;
                             timers := rest |}) p))).
Proof. intros Hle. cbn. now apply Z.leb_le in Hle as ->. Qed.

Lemma run_due_later (t : Z) (x : timer) (rest : list timer) (p : Page) :
  t < due x -> run_due t (x :: rest) p = p.
Proof. intros Hlt. cbn. now apply Z.leb_gt in Hlt as ->. Qed.

#[local] Arguments run_due : simpl never.
#[local] Arguments enqueue : simpl never.

(** One step of the queue: the head runs or waits, by the order of its due
    time and the time reached; a new timer goes before or after the head. *)
Ltac loop_step :=
  first
    [ rewrite run_due_nil
    | rewrite run_due_now by (cbn; lia)
    | rewrite run_due_later by (cbn; lia)
    | rewrite enqueue_nil
    | rewrite enqueue_before by (cbn; lia)
    | rewrite enqueue_after by (cbn; lia)
    | match goal with
      | |- context [run_due ?t ({| due := ?d; job := ?j |} :: ?rest) _] =>
          destruct (Z_le_gt_dec d t);
          [ rewrite (run_due_now t {| due := d; job := j |}) by (cbn; lia)
          | rewrite (run_due_later t {| due := d; job := j |}) by (cbn; lia) ]
      | |- context [enqueue {| due := ?d; job := ?j |} ({| due := ?d'; job := ?j' |} :: ?rest)] =>
          destruct (Z_lt_ge_dec d d');
          [ rewrite (enqueue_before {| due := d; job := j |} {| due := d'; job := j' |})
              by (cbn; lia)
          | rewrite (enqueue_after {| due := d; job := j |} {| due := d'; job := j' |})
              by (cbn; lia) ]
      end ].

(** *** The callbacks and [closeMenuModal] as equations *)

Lemma advance_eq (dt : Z) (p : Page) :
  advance dt p =
  on_loop (fun l => {| clock := clock (loop p) + dt; frame := frame l; timers := timers l |})
    (run_due (clock (loop p) + dt) (timers (loop p)) p).
Proof. reflexivity. Qed.

Lemma run_fade_in (p : Page) :
  present (modal (modalDom p)) = true ->
  fst (run_task ModalFadeIn p) =
  on_dialog (fun d =>
    {| dlg_display := dlg_display d; dlg_ariaHidden := dlg_ariaHidden d;
       dlg_opacity := "1"; dlg_focusable := dlg_focusable d |}) p.
Proof.
  intros Hdlg. unfold run_task, the_dialog. run.
  destruct (modal (modalDom p)); [reflexivity|discriminate].
Qed.

Lemma focus_run (n : node) (p : Page) :
  focus n p = (focus_when (can_focus p n) n p, Ok tt).
Proof.
  unfold focus, focus_when, set_activeElement. destruct (can_focus p n); [reflexivity|].
  destruct p as [m s d ms md [act ovf ann off tgt pl] lp]. reflexivity.
Qed.

Lemma focus_when_false (n : node) (p : Page) : focus_when false n p = p.
Proof. destruct p as [m s d ms md [act ovf ann off tgt pl] lp]. reflexivity. Qed.

Lemma run_focus_close (p : Page) :
  fst (run_task ModalFocusClose p) =
  focus_when (closeBtn (modalDom p) && can_focus p CloseBtn) CloseBtn p.
Proof.
  unfold run_task. run. destruct (closeBtn (modalDom p)); cbn [andb].
  - now rewrite focus_run.
  - now rewrite focus_when_false.
Qed.

Lemma closeMenuModal_open (p : Page) :
  present (modal (modalDom p)) = true ->
  isOpen (modalState p) = true ->
  fst (closeMenuModal p) =
  on_loop (fun l =>
      {| clock := clock l; frame := frame l;
         timers := enqueue {| due := clock l + 300; job := ModalFinishClose |} (timers l) |})
    (on_dialog (fun d =>
       {| dlg_display := dlg_display d; dlg_ariaHidden := dlg_ariaHidden d;
          dlg_opacity := "0"; dlg_focusable := dlg_focusable d |}) p).
Proof.
  intros Hdlg Hopen. unfold closeMenuModal, setTimeout, schedule. run.
  destruct (modal (modalDom p)); [|discriminate]. rewrite Hopen. reflexivity.
Qed.

(** An element outside the dialog can take the focus on every page with
    the same menu elements and the same places. *)
Lemma outside_dialog_same (E : node) (p q : Page) :
  dom q = dom p -> place_of (document q) = place_of (document p) ->
  outside_dialog E p -> outside_dialog E q.
Proof.
  intros Hd Hp. destruct E; unfold outside_dialog, can_focus; rewrite ?Hd, ?Hp; auto.
Qed.

Lemma outside_dialog_can_focus (E : node) (p : Page) :
  outside_dialog E p -> can_focus p E = true.
Proof.
  destruct E; unfold outside_dialog, can_focus; intros ->; reflexivity.
Qed.

(** When the dialog closes for good, [closed_on] holds of the page. *)
Lemma run_finish_close (E : node) (p : Page) :
  present (modal (modalDom p)) = true ->
  lastFocusedElement (modalState p) = Some E ->
  outside_dialog E p ->
  closed_on E (fst (run_task ModalFinishClose p)).
Proof.
  intros Hdlg Hlast Hout. unfold run_task, the_dialog, on_dialog, set_overflow, set_isOpen.
  run. destruct p as [m s d ms [dlg btn img ttl dsc prc] doc lp]. cbn in Hdlg, Hlast.
  destruct dlg; [|discriminate]. run. rewrite Hlast. run.
  rewrite focus_run.
  rewrite (outside_dialog_can_focus E)
    by (eapply outside_dialog_same; [| |exact Hout]; reflexivity).
  repeat split.
Qed.

(** A fade-in callback, running late, changes the opacity only. *)
Lemma fade_in_keeps_closed (E : node) (p : Page) :
  closed_on E p -> closed_on E (fst (run_task ModalFadeIn p)).
Proof.
  intros (Ha & Hd & Hh & Ho & Hi). unfold run_task, the_dialog, on_dialog. run.
  destruct p as [m s d ms [dlg btn img ttl dsc prc] doc lp]. cbn in *.
  destruct dlg; run; repeat split; try assumption; discriminate.
Qed.

(** The clock and the queue are not what [closed_on] looks at. *)
Lemma closed_on_loop (E : node) (f : EventLoop -> EventLoop) (p : Page) :
  closed_on E (on_loop f p) <-> closed_on E p.
Proof. reflexivity. Qed.

(** Brings the page, a record under updates, back to a record. *)
Ltac page_step :=
  cbn [on_menu on_storage on_dom on_modalState on_modalDom on_document on_loop on_dialog
       focus_when set_activeElement
       menu storage dom modalState modalDom document loop
       modal closeBtn image title description price
       isOpen lastFocusedElement focusableElements
       activeElement bodyOverflow filterAnnouncer pageYOffset scrollTarget place_of
       clock frame timers due job
       fmap option_fmap option_map].

(** The fields of a dish that the dialog can show are read and converted
    without an exception. *)
Lemma printable_read (plato : json) (k : string) :
  printable plato ->
  k ∈ ["imagen"; "nombre"; "descripcion"; "precio"] ->
  exists x, get plato k = Ok x /\ ToPrimitive x = Ok tt.
Proof.
  intros [Hnull Hconv] Hk. destruct (get_not_null plato k Hnull) as [x Hx].
  exists x. split; [exact Hx|]. unfold ToPrimitive. destruct x as [v|]; [|reflexivity].
  now rewrite (Hconv k v Hk Hx).
Qed.

(** What [openMenuModal] leaves behind when the dialog exists and can show
    the dish: the slots filled, the dialog shown, the focused element
    recorded, and two callbacks queued. *)
Lemma openMenuModal_run (plato : json) (p : Page) (dlg : Dialog) :
  modal (modalDom p) = Some dlg ->
  printable plato ->
  exists img ttl dsc prc,
    openMenuModal plato p =
    ({| menu := menu p; storage := storage p; dom := dom p;
        modalState :=
          {| isOpen := true; lastFocusedElement := activeElement (document p);
             focusableElements := dlg_focusable dlg |};
        modalDom :=
          {| modal := Some {| dlg_display := "flex"; dlg_ariaHidden := "false";
                              dlg_opacity := dlg_opacity dlg;
                              dlg_focusable := dlg_focusable dlg |};
             closeBtn := closeBtn (modalDom p);
             image := img; title := ttl; description := dsc; price := prc |};
        document :=
          {| activeElement := activeElement (document p); bodyOverflow := "hidden";
             filterAnnouncer := filterAnnouncer (document p);
             pageYOffset := pageYOffset (document p);
             scrollTarget := scrollTarget (document p);
             place_of := place_of (document p) |};
        loop :=
          {| clock := clock (loop p); frame := frame (loop p);
             timers :=
               enqueue {| due := clock (loop p) + 100; job := ModalFocusClose |}
                 (enqueue {| due := clock (loop p) + frame (loop p); job := ModalFadeIn |}
                    (timers (loop p))) |} |}, Ok tt).
Proof.
  intros Hdlg Hplato.
  destruct (printable_read plato "imagen" Hplato) as (v1 & H1 & C1); [set_solver|].
  destruct (printable_read plato "nombre" Hplato) as (v2 & H2 & C2); [set_solver|].
  destruct (printable_read plato "descripcion" Hplato) as (v3 & H3 & C3); [set_solver|].
  destruct (printable_read plato "precio" Hplato) as (v4 & H4 & C4); [set_solver|].
  destruct p as [m s d ms md doc lp], md as [dl btn img ttl dsc prc],
    doc as [act ovf ann off tgt pl], lp as [now fr tm].
  cbn in Hdlg. subst dl.
  unfold openMenuModal, setupFocusTrap, requestAnimationFrame, setTimeout, schedule,
    ToString_opt, as_text.
  destruct img, ttl, dsc, prc; run; rewrite ?H1, ?H2, ?H3, ?H4; run;
    rewrite ?C1, ?C2, ?C3, ?C4; run; rewrite ?H2; run; rewrite ?C2; run;
    do 4 eexists; reflexivity.
Qed.

(** C8, amended: on a page where the dialog exists and no callback is
    pending, with the element E focused, where E is an element outside the
    dialog that can take the focus (a card of the grid as it is, or a link
    or a button of the page), [openMenuModal] of a dish that the dialog can
    show, then (any time later, nothing else having run) [closeMenuModal],
    then at least 300 ms: the focus is on E again, the dialog has display
    none and aria-hidden true, the overflow of the body is cleared and the
    open flag is false. *)
Theorem open_close_restores_focus (plato : json) (E : node) (p : Page) (d1 d2 : Z) :
  present (modal (modalDom p)) = true ->
  activeElement (document p) = Some E ->
  outside_dialog E p ->
  timers (loop p) = [] ->
  printable plato ->
  0 <= d1 ->
  300 <= d2 ->
  let opened := advance d1 (fst (openMenuModal plato p)) in
  let closed := advance d2 (fst (closeMenuModal opened)) in
  closed_on E closed.
Proof.
  intros Hdlg Hactive Hout Hidle Hplato Hd1 Hd2.
  destruct (modal (modalDom p)) as [dlg|] eqn:Hmodal; [|discriminate].
  destruct (openMenuModal_run plato p dlg Hmodal Hplato) as (img & ttl & dsc & prc & ->).
  rewrite Hactive, Hidle. cbn [fst].
  generalize (clock (loop p)) (frame (loop p)) (closeBtn (modalDom p)).
  intros now fr btn.
  rewrite (advance_eq d1). cbn [loop clock timers].
  repeat loop_step;
    rewrite ?run_fade_in, ?run_focus_close by reflexivity;
    rewrite closeMenuModal_open by reflexivity;
    rewrite advance_eq; page_step; repeat loop_step;
    rewrite ?run_focus_close;
    repeat (page_step; match goal with
      | |- closed_on _ (on_loop _ _) => apply (proj2 (closed_on_loop _ _ _))
      | |- closed_on _ (fst (run_task ModalFadeIn _)) => apply fade_in_keeps_closed
      | |- closed_on _ (fst (run_task ModalFinishClose _)) =>
          apply run_finish_close;
          [reflexivity|reflexivity
          |eapply outside_dialog_same; [| |exact Hout]; reflexivity]
      end).
Qed.

Lemma printable_dish (d : Dish) : printable (json_of_dish d).
Proof.
  split; [discriminate|]. intros k v Hk Hv.
  repeat (apply elem_of_cons in Hk as [->|Hk]); [..|now apply elem_of_nil in Hk];
    cbn in Hv; injection Hv as <-; try reflexivity.
  now destruct (precio d).
Qed.

(** C8, amended, on the loaded page with the first card focused: the
    dialog is closed two seconds after it was opened and the card has the
    focus again. *)
Lemma open_close_restores_focus_witness :
  closed_on first_card
    (advance 300 (fst (closeMenuModal
      (advance 2000 (fst (openMenuModal (json_of_dish causa) page_on_card)))))).
Proof.
  apply (open_close_restores_focus (json_of_dish causa) first_card page_on_card 2000 300
           eq_refl eq_refl).
  - vm_compute. reflexivity.
  - reflexivity.
  - apply printable_dish.
  - lia.
  - lia.
Defined.

(** Against C8 as the specification words it: the first card has the
    focus when its dialog opens, and the dialog records it; the grid is
    rendered anew while the dialog is open, so that the card is no more
    in the document; after the dialog has closed, its 300 ms over, the
    focus is not on the card. *)
Lemma focus_is_lost_with_the_card :
  activeElement (document (page dialog_over_old_grid)) = Some first_card /\
  lastFocusedElement (modalState (page dialog_over_old_grid)) = Some first_card /\
  isOpen (modalState (page dialog_closed_over_new_grid)) = false /\
  dlg_display <$> modal (modalDom (page dialog_closed_over_new_grid)) = Some "none" /\
  activeElement (document (page dialog_closed_over_new_grid)) <> Some first_card.
Proof. vm_compute. repeat split. discriminate. Qed.

(** ** Prices *)

Lemma ToString_price (pr : Price) : ToString (json_of_price pr) = price_text pr.
Proof. destruct pr; reflexivity. Qed.

Lemma list_ascii_of_string_app (a b : string) :
  list_ascii_of_string (a +:+ b) = list_ascii_of_string a ++ list_ascii_of_string b.
Proof.
  induction a as [|c a IH]; [reflexivity|].
  change (list_ascii_of_string (String c a +:+ b)) with (c :: list_ascii_of_string (a +:+ b)).
  now rewrite IH.
Qed.

Lemma two_fraction_digits_prefix (t : string) :
  two_fraction_digits ("S/ " +:+ t) = two_fraction_digits t.
Proof.
  unfold two_fraction_digits. rewrite list_ascii_of_string_app, rev_app_distr.
  destruct (rev (list_ascii_of_string t)) as [|d2 [|d1 [|point rest]]]; cbn;
    try reflexivity.
  - now rewrite andb_false_r.
  - now rewrite andb_false_r.
Qed.

(** C2 as stated fails: the price 12 of the dish Causa is shown as
    "S/ 12" on its card and in the dialog, with no fraction digits. *)
Lemma integer_price_has_no_fraction_digits :
  precio causa = PriceNumber (of_Z 12) /\
  price_on_card causa = Some "S/ 12" /\
  price_in_dialog causa fresh_page = Some "S/ 12" /\
  two_fraction_digits "S/ 12" = false.
Proof. vm_compute. repeat split. Qed.

(** C2, amended: the card of a dish and the dialog opened on it show
    "S/ " followed by the stored price converted to a string as it is: a
    numeric string unchanged, a number as the engine prints it (in its
    shortest decimal notation, and in exponent notation from 10^21 on
    and below 10^-6).  The price shown has two fraction digits exactly
    when that string has. *)
Theorem price_is_shown_as_stored (d : Dish) (p : Page) :
  present (modal (modalDom p)) = true ->
  present (price (modalDom p)) = true ->
  price_on_card d = Some ("S/ " +:+ price_text (precio d)) /\
  price_in_dialog d p = Some ("S/ " +:+ price_text (precio d)) /\
  two_fraction_digits ("S/ " +:+ price_text (precio d))
    = two_fraction_digits (price_text (precio d)).
Proof.
  intros Hdlg Hprice. split; [|split; [|apply two_fraction_digits_prefix]].
  - unfold price_on_card, createMenuCard, ToString_opt, ToPrimitive. cbn.
    now destruct (precio d).
  - unfold price_in_dialog.
    destruct p as [m s dm ms md doc lp], md as [dlg btn img ttl dsc prc].
    destruct dlg; [|discriminate]. destruct prc; [|discriminate].
    unfold openMenuModal, setupFocusTrap, requestAnimationFrame, setTimeout, schedule,
      ToString_opt, as_text, ToPrimitive.
    destruct img, ttl, dsc; run; now destruct (precio d).
Qed.

(** How numbers are printed: no fraction digits for an integer, no
    trailing zero, exponent notation for the very large and the very
    small. *)
Example Number_toString_notations :
  Number_toString (of_Z 12) = "12" /\
  Number_toString (Dec 1250 2) = "12.5" /\
  Number_toString (Dec 5 2) = "0.05" /\
  Number_toString (Dec 1 6) = "0.000001" /\
  Number_toString (Dec 1 7) = "1e-7" /\
  Number_toString (Dec (-25) 8) = "-2.5e-7" /\
  Number_toString (of_Z (10 ^ 20)) = "100000000000000000000" /\
  Number_toString (of_Z (10 ^ 21)) = "1e+21" /\
  Number_toString (of_Z (15 * 10 ^ 21)) = "1.5e+22".
Proof. vm_compute. repeat split. Qed.

(** C2, amended, on the dish Suspiro, whose price is the string "9.50". *)
Lemma price_is_shown_as_stored_witness :
  price_on_card suspiro = Some "S/ 9.50" /\
  price_in_dialog suspiro fresh_page = Some "S/ 9.50" /\
  two_fraction_digits "S/ 9.50" = true.
Proof.
  destruct (price_is_shown_as_stored suspiro fresh_page eq_refl eq_refl) as (Hc & Hd & _).
  split; [exact Hc|]. split; [exact Hd|reflexivity].
Defined.

(** ** The views *)

Lemma own_catalog (c : list (string * list Dish)) (k : string) :
  own ((fun kv => (fst kv, JArr (json_of_dish <$> snd kv))) <$> c) k
  = (fun ds => JArr (json_of_dish <$> ds)) <$> dishes_of c k.
Proof.
  induction c as [|[k' ds] rest IH]; [reflexivity|].
  cbn. destruct (String.eqb k' k); [reflexivity|exact IH].
Qed.

Lemma dishes_of_NoDup (c : list (string * list Dish)) :
  NoDup (fst <$> c) ->
  Forall (fun kv => dishes_of c (fst kv) = Some (snd kv)) c.
Proof.
  induction c as [|[k ds] rest IH]; intros Hnd; [constructor|].
  rewrite fmap_cons in Hnd. apply NoDup_cons in Hnd as [Hk Hrest].
  constructor.
  - cbn. now rewrite String.eqb_refl.
  - specialize (IH Hrest). rewrite Forall_forall in IH |- *.
    intros [k' ds'] Hin. cbn.
    destruct (String.eqb_spec k k') as [->|Hne]; [|exact (IH (k', ds') Hin)].
    exfalso. apply Hk. apply list_elem_of_fmap. now exists (k', ds').
Qed.

Lemma convertible_price (pr : Price) : convertible (json_of_price pr) = true.
Proof. now destruct pr. Qed.

Lemma createMenuCard_dish (d : Dish) (index : Z) :
  createMenuCard (json_of_dish d) index = Ok (card_of d).
Proof.
  unfold createMenuCard, card_of, ToString_opt, ToPrimitive. cbn.
  now rewrite convertible_price, ToString_price.
Qed.

Lemma simple_row_dish (d : Dish) : simple_row (json_of_dish d) = Ok (row_of d).
Proof.
  unfold simple_row, row_of, ToString_opt, ToPrimitive. cbn.
  now rewrite convertible_price, ToString_price.
Qed.

Lemma mapM_simple_row (ds : list Dish) :
  mapM simple_row (json_of_dish <$> ds) = Ok (row_of <$> ds).
Proof.
  induction ds as [|d rest IH]; [reflexivity|].
  rewrite !fmap_cons. cbn [mapM]. rewrite simple_row_dish, IH. reflexivity.
Qed.

Lemma cards_from_app (i : Z) (xs ys : list Dish) :
  cards_from i (xs ++ ys) = cards_from i xs ++ cards_from (i + Z.of_nat (length xs)) ys.
Proof.
  revert i. induction xs as [|x rest IH]; intros i.
  - cbn. now rewrite Z.add_0_r.
  - cbn [cards_from app length]. rewrite IH. cbn. do 3 f_equal. lia.
Qed.


Lemma grid_nodes_append (n : GridNode) (q : Page) :
  grid_nodes (grid_append n q) = (fun ch => ch ++ [n]) <$> grid_nodes q.
Proof.
  destruct q as [m s [g sp flt ld er] ms md doc lp]. destruct g; reflexivity.
Qed.

Lemma simple_nodes_append (n : SimpleNode) (q : Page) :
  simple_nodes (simple_append n q) = (fun ch => ch ++ [n]) <$> simple_nodes q.
Proof.
  destruct q as [m s [g sp flt ld er] ms md doc lp]. destruct sp; reflexivity.
Qed.

#[local] Arguments createMenuCard : simpl never.
#[local] Arguments simple_row : simpl never.
#[local] Arguments grid_append : simpl never.
#[local] Arguments simple_append : simpl never.
#[local] Arguments set_grid_children : simpl never.
#[local] Arguments set_simple_children : simpl never.
#[local] Arguments grid_nodes : simpl never.
#[local] Arguments simple_nodes : simpl never.
#[local] Arguments cards_from : simpl never.
#[local] Arguments capitalizeFirst : simpl never.

(** The inner loop of the detailed view over the dishes of a category. *)
Lemma cards_loop (ds : list Dish) (i : Z) (q : Page) :
  let r :=
    forEach_with (json_of_dish <$> ds) (fun itemIndex plato =>
      card ← lift (createMenuCard plato itemIndex);
      update (grid_append (CardNode card (itemIndex * CONFIG.animationDelay)));;
      mret (itemIndex + 1)) i q in
  snd r = Ok (i + Z.of_nat (length ds)) /\
  grid_nodes (fst r) = (fun ch => ch ++ cards_from i ds) <$> grid_nodes q.
Proof.
  cbn zeta.
  set (body := fun (itemIndex : Z) (plato : json) => _).
  assert (Hstep : forall i d q,
    body i (json_of_dish d) q =
    (grid_append (CardNode (card_of d) (i * CONFIG.animationDelay)) q, Ok (i + 1))).
  { intros i' d q'. unfold body. run. now rewrite createMenuCard_dish. }
  clearbody body.
  revert i q. induction ds as [|d rest IH]; intros i q.
  - cbn. rewrite Z.add_0_r. split; [reflexivity|].
    destruct (grid_nodes q); cbn; [now rewrite app_nil_r|reflexivity].
  - rewrite fmap_cons, forEach_with_cons, Hstep.
    destruct (IH (i + 1) (grid_append (CardNode (card_of d) (i * CONFIG.animationDelay)) q))
      as [Hres Hgrid].
    rewrite Hres, Hgrid, grid_nodes_append.
    split; [f_equal; cbn [length]; lia|].
    destruct (grid_nodes q); cbn; [|reflexivity].
    now rewrite <- app_assoc.
Qed.

(** The dishes a list of category names stands for. *)
Lemma get_catalog (c : list (string * list Dish)) (k : string) :
  get (json_of_catalog c) k
  = Ok ((fun ds => JArr (json_of_dish <$> ds)) <$> dishes_of c k).
Proof. unfold json_of_catalog. cbn. now rewrite own_catalog. Qed.

Lemma lookup_catalog (c : list (string * list Dish)) (k : string) :
  plain_name c k ->
  lookup (json_of_catalog c) k
  = Ok (match dishes_of c k with
        | Some ds => Own (JArr (json_of_dish <$> ds))
        | None => Missing
        end).
Proof.
  intros Hk. unfold lookup. rewrite get_catalog.
  destruct (dishes_of c k) as [ds|] eqn:Hd; [reflexivity|].
  specialize (Hk Hd). unfold inherited_name in Hk.
  cbn. change (inherited (json_of_catalog c) k) with (inherited (JObj []) k).
  now destruct (inherited (JObj []) k).
Qed.

Lemma plain_name_own (c : list (string * list Dish)) (k : string) :
  k ∈ (fst <$> c) -> plain_name c k.
Proof.
  intros Hin Hnone. exfalso. revert Hnone.
  induction c as [|[k' ds] rest IH]; [now apply elem_of_nil in Hin|].
  cbn in Hin |- *. destruct (String.eqb_spec k' k) as [->|Hne]; [discriminate|].
  apply elem_of_cons in Hin as [->|Hin]; [congruence|now apply IH].
Qed.

(** The outer loop of the detailed view over category names. *)
Lemma categories_loop (c : list (string * list Dish)) (ks : list string) (i : Z) (q : Page) :
  Forall (plain_name c) ks ->
  let r :=
    forEach_with ks (fun itemIndex cat =>
      platos ← lift (lookup (json_of_catalog c) cat);
      if negb (truthy_member platos) then mret itemIndex
      else
        items ← lift (forEach_items platos);
        forEach_with items (fun itemIndex plato =>
          card ← lift (createMenuCard plato itemIndex);
          update (grid_append (CardNode card (itemIndex * CONFIG.animationDelay)));;
          mret (itemIndex + 1)) itemIndex) i q in
  let ds := concat ((fun k => default [] (dishes_of c k)) <$> ks) in
  snd r = Ok (i + Z.of_nat (length ds)) /\
  grid_nodes (fst r) = (fun ch => ch ++ cards_from i ds) <$> grid_nodes q.
Proof.
  intros Hplain. cbn zeta.
  set (body := fun (itemIndex : Z) (cat : string) => _).
  assert (Hstep : forall i k q, plain_name c k ->
    snd (body i k q) = Ok (i + Z.of_nat (length (default [] (dishes_of c k)))) /\
    grid_nodes (fst (body i k q))
    = (fun ch => ch ++ cards_from i (default [] (dishes_of c k))) <$> grid_nodes q).
  { intros i' k q' Hk. unfold body. rewrite run_bind. unfold lift at 1.
    rewrite (lookup_catalog _ _ Hk). destruct (dishes_of c k) as [ds|].
    - cbn [truthy_member truthy negb]. rewrite run_bind. cbn [lift forEach_items default].
      apply cards_loop.
    - cbn. rewrite Z.add_0_r. split; [reflexivity|].
      destruct (grid_nodes q'); cbn; [now rewrite app_nil_r|reflexivity]. }
  clearbody body.
  revert i q. induction Hplain as [|k rest Hk _ IH]; intros i q.
  - cbn. rewrite Z.add_0_r. split; [reflexivity|].
    destruct (grid_nodes q); cbn; [now rewrite app_nil_r|reflexivity].
  - rewrite forEach_with_cons. destruct (Hstep i k q Hk) as [Hres Hgrid].
    destruct (body i k q) as [q' r]. cbn [fst snd] in Hres, Hgrid. subst r.
    destruct (IH (i + Z.of_nat (length (default [] (dishes_of c k)))) q') as [Hres' Hgrid'].
    rewrite Hres', Hgrid', Hgrid, fmap_cons. cbn [concat].
    rewrite length_app, cards_from_app.
    split; [f_equal; lia|].
    destruct (grid_nodes q); cbn; [|reflexivity].
    now rewrite <- app_assoc.
Qed.

(** The loop of the simple view over category names. *)
Lemma blocks_loop (c : list (string * list Dish)) (ks : list string) (q : Page) :
  Forall (plain_name c) ks ->
  let r :=
    forEach ks (fun cat =>
      platos ← lift (lookup (json_of_catalog c) cat);
      if negb (truthy_member platos) then mret tt
      else
        empty ← lift (length_is_zero platos);
        if (empty : bool) then mret tt
        else
          update (simple_append (Heading (capitalizeFirst cat)));;
          items ← lift (forEach_items platos);
          rows ← lift (mapM simple_row items);
          update (simple_append (ItemList rows))) q in
  let blocks := concat ((fun k => block_of k (default [] (dishes_of c k))) <$> ks) in
  snd r = Ok tt /\
  simple_nodes (fst r) = (fun ch => ch ++ blocks) <$> simple_nodes q.
Proof.
  intros Hplain. cbn zeta.
  set (body := fun (cat : string) => _).
  assert (Hstep : forall k q, plain_name c k ->
    snd (body k q) = Ok tt /\
    simple_nodes (fst (body k q))
    = (fun ch => ch ++ block_of k (default [] (dishes_of c k))) <$> simple_nodes q).
  { intros k q' Hk. unfold body. rewrite run_bind. unfold lift at 1.
    rewrite (lookup_catalog _ _ Hk). destruct (dishes_of c k) as [[|d ds]|];
      cbn [default block_of].
    - run. change (Z.of_nat 0 =? 0) with true. cbn. split; [reflexivity|].
      destruct (simple_nodes q'); cbn; [now rewrite app_nil_r|reflexivity].
    - run.
      match goal with
      | |- context [?a =? 0] => destruct (Z.eqb_spec a 0) as [Hz|_]; [lia|]
      end.
      rewrite ?simple_row_dish. cbn.
      change (list_fmap Dish json json_of_dish ds) with (json_of_dish <$> ds).
      rewrite ?mapM_simple_row. cbn.
      rewrite !simple_nodes_append. split; [reflexivity|].
      destruct (simple_nodes q'); cbn; [|reflexivity].
      now rewrite <- app_assoc.
    - run. split; [reflexivity|].
      destruct (simple_nodes q'); cbn; [now rewrite app_nil_r|reflexivity]. }
  clearbody body.
  revert q. induction Hplain as [|k rest Hk _ IH]; intros q.
  - cbn. split; [reflexivity|].
    destruct (simple_nodes q); cbn; [now rewrite app_nil_r|reflexivity].
  - rewrite forEach_cons. destruct (Hstep k q Hk) as [Hres Hnodes].
    destruct (body k q) as [q' r]. cbn [fst snd] in Hres, Hnodes. subst r.
    destruct (IH q') as [Hres' Hnodes'].
    rewrite Hres', Hnodes', Hnodes, fmap_cons. cbn [concat].
    split; [reflexivity|].
    destruct (simple_nodes q); cbn; [|reflexivity].
    now rewrite <- app_assoc.
Qed.

(** Looking the names of the categories up again gives the catalog
    back, when no two categories have the same name. *)
Lemma names_back (c l : list (string * list Dish)) :
  Forall (fun kv => dishes_of c (fst kv) = Some (snd kv)) l ->
  (fun k => (k, default [] (dishes_of c k))) <$> (fst <$> l) = l.
Proof.
  induction 1 as [|[k ds] rest Hk _ IH]; [reflexivity|].
  rewrite !fmap_cons. cbn in Hk |- *. rewrite Hk. cbn. f_equal. exact IH.
Qed.

(** What the two loops gather is what the filter selects. *)
Lemma gathered_selected (c : list (string * list Dish)) (category : string) :
  NoDup (fst <$> c) ->
  plain_name c category ->
  exists ks,
    shown_categories (json_of_catalog c) category = Ok ks /\
    Forall (plain_name c) ks /\
    concat ((fun k => default [] (dishes_of c k)) <$> ks)
      = concat (snd <$> selected c category) /\
    concat ((fun k => block_of k (default [] (dishes_of c k))) <$> ks)
      = blocks_of (selected c category) /\
    (ks = [] -> selected c category = []).
Proof.
  intros Hnd Hplain. unfold shown_categories, selected, blocks_of, json_of_catalog.
  destruct (String.eqb category "all").
  - exists (fst <$> c). pose proof (names_back c c (dishes_of_NoDup c Hnd)) as Hback.
    split; [cbn; f_equal; now rewrite <- list_fmap_compose|].
    split; [apply Forall_forall; intros k Hk; now apply plain_name_own|].
    split; [|split].
    + rewrite <- Hback at 2. now rewrite <- !list_fmap_compose.
    + rewrite <- Hback at 2. now rewrite <- !list_fmap_compose.
    + destruct c; [reflexivity|discriminate].
  - exists [category]. split; [reflexivity|].
    split; [now repeat constructor|].
    destruct (dishes_of c category) as [ds|] eqn:Hd; cbn; rewrite ?Hd; repeat split;
      intros; first [reflexivity|discriminate].
Qed.

Lemma listed_rows_blocks (sel : list (string * list Dish)) :
  listed_rows (blocks_of sel) = row_of <$> concat (snd <$> sel).
Proof.
  unfold listed_rows, blocks_of.
  induction sel as [|[k ds] rest IH]; [reflexivity|].
  rewrite !fmap_cons. cbn [concat fst snd]. rewrite !fmap_app, concat_app, IH.
  f_equal. destruct ds; cbn; [reflexivity|now rewrite app_nil_r].
Qed.

Lemma blocks_of_nil (sel : list (string * list Dish)) :
  blocks_of sel = [] <-> concat (snd <$> sel) = [].
Proof.
  unfold blocks_of.
  induction sel as [|[k ds] rest IH]; [tauto|].
  rewrite !fmap_cons. cbn [concat fst snd].
  destruct ds as [|d ds]; cbn; [exact IH|]. split; discriminate.
Qed.

Lemma grid_nodes_set (l : list GridNode) (p : Page) :
  present (menuGrid (dom p)) = true -> grid_nodes (set_grid_children l p) = Some l.
Proof.
  destruct p as [m s [g sp flt ld er] ms md doc lp]. destruct g; [reflexivity|discriminate].
Qed.

Lemma simple_nodes_set (l : list SimpleNode) (p : Page) :
  present (menuSimple (dom p)) = true -> simple_nodes (set_simple_children l p) = Some l.
Proof.
  destruct p as [m s [g sp flt ld er] ms md doc lp]. destruct sp; [reflexivity|discriminate].
Qed.

Lemma present_grid_nodes (p : Page) :
  present (menuGrid (dom p)) = true <-> is_Some (grid_nodes p).
Proof.
  unfold grid_nodes. destruct (menuGrid (dom p)); cbn; split; intros Hp;
    try reflexivity; try discriminate; [eexists; reflexivity|destruct Hp; discriminate].
Qed.

Lemma present_simple_nodes (p : Page) :
  present (menuSimple (dom p)) = true <-> is_Some (simple_nodes p).
Proof.
  unfold simple_nodes. destruct (menuSimple (dom p)); cbn; split; intros Hp;
    try reflexivity; try discriminate; [eexists; reflexivity|destruct Hp; discriminate].
Qed.




(** ** The scenarios of the specification *)

(** With the filter "all" the grid holds the card of Causa and no
    placeholder; with the filter "postres" it holds the placeholder. *)
Example scenario_all :
  grid_nodes (fst (renderDetailedView (json_of_catalog scenario) (Some "all") fresh_page))
  = Some [CardNode (card_of causa) 0].
Proof. reflexivity. Qed.

Example scenario_postres :
  grid_nodes (fst (renderDetailedView (json_of_catalog scenario) (Some "postres") fresh_page))
  = Some [GridEmpty].
Proof. reflexivity. Qed.

(** The message of a failed load is still in the shared state after a
    later load that the cache answers. *)
Example stale_error_survives_cache_hit :
  snd (@loadMenuData Reference.platform (fails_with 500) page_after_failure)
    = Ok (json_of_catalog carta) /\
  error (menu (fst (@loadMenuData Reference.platform (fails_with 500) page_after_failure)))
    = Some "HTTP error! status: 500".
Proof. vm_compute. split; reflexivity. Qed.

(** Start-up on the fresh page: the menu is fetched, cached and shown. *)
Example start_up :
  grid_nodes page_loaded = Some (cards_from 0 [causa; suspiro]) /\
  fb_label <$> filter_buttons page_loaded = ["Todos"; "Entradas"; "Postres"; "Bebidas"] /\
  hidden <$> loadingState (dom page_loaded) = Some true /\
  is_Some (items (storage page_loaded) !! CONFIG.cacheKey).
Proof. vm_compute. repeat split. eexists. reflexivity. Qed.

(** * Further properties *)

(** ** Building and using the filter bar *)

Lemma on_filters_twice (f g : list FilterButton -> list FilterButton) (p : Page) :
  on_filters f (on_filters g p) = on_filters (fun bs => f (g bs)) p.
Proof.
  destruct p as [m s [g0 sp flt ld er] ms md doc lp]. destruct flt; reflexivity.
Qed.

(** Appending the buttons one by one appends the list. *)
Lemma append_buttons (l : list FilterButton) (q : Page) :
  forEach l (fun btn => update (on_filters (fun bs => bs ++ [btn]))) q
  = (on_filters (fun bs => bs ++ l) q, Ok tt).
Proof.
  revert q. induction l as [|b rest IH]; intros q.
  - cbn. unfold mret, JS_ret. f_equal.
    destruct q as [m s [g0 sp flt ld er] ms md doc lp]. destruct flt; unfold on_filters, on_dom; cbn;
      [|reflexivity].
    now rewrite app_nil_r.
  - rewrite forEach_cons. unfold update at 1. rewrite IH, on_filters_twice.
    f_equal. destruct q as [m s [g0 sp flt ld er] ms md doc lp]. destruct flt; unfold on_filters, on_dom; cbn;
      [|reflexivity].
    now rewrite <- app_assoc.
Qed.

Lemma filter_buttons_on_filters (f : list FilterButton -> list FilterButton) (p : Page) :
  present (menuFilters (dom p)) = true ->
  filter_buttons (on_filters f p) = f (filter_buttons p).
Proof.
  destruct p as [m s [g0 sp flt ld er] ms md doc lp]. destruct flt; [reflexivity|discriminate].
Qed.

Lemma bar_of_active (ks : list string) : filter fb_active (bar_of ks) = [createFilterButton "all" "Todos" true].
Proof.
  unfold bar_of. rewrite filter_cons. cbn. f_equal.
  induction ks as [|k rest IH]; [reflexivity|].
  rewrite fmap_cons, filter_cons. cbn. exact IH.
Qed.

(** [getActiveCategory] as an equation. *)
Lemma getActiveCategory_eq (p : Page) :
  getActiveCategory p =
  (p, Ok (match list_find fb_active (filter_buttons p) with
          | Some (_, b) => fb_category b
          | None => Some "all"
          end)).
Proof.
  unfold getActiveCategory. run. destruct (list_find _ _) as [[i b]|]; reflexivity.
Qed.

(** Capitals beyond a to z: n with tilde (U+00F1) has its capital 32
    below it, sharp s (U+00DF) becomes SS, the division sign (U+00F7)
    stays. *)
Example capitalizeFirst_beyond_ascii :
  capitalizeFirst "postres" = "Postres" /\
  capitalizeFirst (String (ascii_of_nat 241) "oquis") = String (ascii_of_nat 209) "oquis" /\
  capitalizeFirst (String (ascii_of_nat 223) "") = "SS" /\
  capitalizeFirst (String (ascii_of_nat 247) "") = String (ascii_of_nat 247) "".
Proof. vm_compute. repeat split. Qed.

Lemma bar_of_categories (ks : list string) :
  fb_category <$> bar_of ks = Some "all" :: (Some <$> ks).
Proof.
  unfold bar_of. rewrite fmap_cons. cbn [createFilterButton fb_category]. f_equal.
  now rewrite <- list_fmap_compose.
Qed.

Lemma bar_of_marks (ks : list string) :
  fb_active <$> bar_of ks = true :: ((fun _ => false) <$> ks).
Proof.
  unfold bar_of. rewrite fmap_cons. cbn [createFilterButton fb_active]. f_equal.
  now rewrite <- list_fmap_compose.
Qed.

(** X1: [renderFilters] does nothing on a page without the filter
    container; with the container, it throws what [Object.keys] throws (for
    null data) and leaves the bar as it was, and otherwise replaces the bar
    by a control for "all" followed by one control per category in the
    order of the keys, the first active and the others not: "Todos" and
    the capitalized names of the categories, when these capitals are
    characters of the model. Of the new bar exactly one control is
    active, and [getActiveCategory] reads "all" from it. *)
Theorem renderFilters_builds_bar (data : json) (p : Page) :
  match menuFilters (dom p), Object_keys data with
  | None, _ => renderFilters data p = (p, Ok tt)
  | Some _, Throw e => renderFilters data p = (p, Throw e)
  | Some _, Ok ks =>
      exists bar,
        renderFilters data p = (on_filters (fun _ => bar) p, Ok tt) /\
        filter_buttons (fst (renderFilters data p)) = bar /\
        fb_category <$> bar = Some "all" :: (Some <$> ks) /\
        fb_active <$> bar = true :: ((fun _ => false) <$> ks) /\
        (Forall (fun k => capital_known k = true) ks -> bar = bar_of ks) /\
        active_count (fst (renderFilters data p)) = 1%nat /\
        snd (getActiveCategory (fst (renderFilters data p))) = Ok (Some "all")
  end.
Proof.
  destruct (menuFilters (dom p)) as [old|] eqn:Hbar.
  2: { unfold renderFilters. run. now rewrite Hbar. }
  destruct (Object_keys data) as [ks|e] eqn:Hkeys.
  2: { unfold renderFilters. run. now rewrite Hbar, Hkeys. }
  assert (Hrun : renderFilters data p = (on_filters (fun _ => bar_of ks) p, Ok tt)).
  { unfold renderFilters. rewrite run_bind. unfold read at 1. rewrite Hbar. cbn [present negb].
    rewrite run_bind. unfold lift at 1. rewrite Hkeys.
    rewrite !run_update_bind, append_buttons, !on_filters_twice. reflexivity. }
  rewrite Hrun. cbn [fst].
  assert (Hnew : filter_buttons (on_filters (fun _ => bar_of ks) p) = bar_of ks).
  { apply filter_buttons_on_filters. now rewrite Hbar. }
  exists (bar_of ks).
  split; [reflexivity|]. split; [exact Hnew|].
  split; [apply bar_of_categories|]. split; [apply bar_of_marks|].
  split; [reflexivity|]. split.
  - unfold active_count. now rewrite Hnew, bar_of_active.
  - rewrite getActiveCategory_eq, Hnew. reflexivity.
Qed.

Lemma Object_keys_carta :
  Object_keys (json_of_catalog carta) = Ok ["entradas"; "postres"; "bebidas"].
Proof. reflexivity. Qed.

(** X1 on the fresh page and the example menu. *)
Lemma renderFilters_builds_bar_witness :
  fb_label <$> filter_buttons (fst (renderFilters (json_of_catalog carta) fresh_page))
  = ["Todos"; "Entradas"; "Postres"; "Bebidas"].
Proof.
  pose proof (renderFilters_builds_bar (json_of_catalog carta) fresh_page) as Hbar.
  cbn [fresh_page dom menu_page menuFilters] in Hbar.
  rewrite Object_keys_carta in Hbar.
  destruct Hbar as (bar & _ & -> & _ & _ & Hlabels & _).
  rewrite Hlabels by (repeat constructor). reflexivity.
Defined.

Lemma find_marked (c : option string) (l : list FilterButton) :
  match list_find fb_active (marked c <$> l) with
  | Some (_, b) => fb_category b = c /\ c ∈ fb_category <$> l
  | None => c ∉ fb_category <$> l
  end.
Proof.
  destruct (list_find _ _) as [[i b]|] eqn:Hfind.
  - apply list_find_Some in Hfind as (Hi & Hact & _).
    rewrite list_lookup_fmap in Hi.
    destruct (l !! i) as [b0|] eqn:Hb0; [|discriminate]. cbn in Hi. injection Hi as <-.
    cbn in Hact. apply Is_true_true, bool_decide_eq_true in Hact.
    split; [exact Hact|]. rewrite <- Hact. apply list_elem_of_fmap.
    exists b0. split; [reflexivity|]. eapply list_elem_of_lookup_2, Hb0.
  - apply list_find_None in Hfind. rewrite Forall_forall in Hfind.
    intros Hin. apply list_elem_of_fmap in Hin as (b0 & -> & Hb0).
    apply (Hfind (marked (fb_category b0) b0)).
    + apply list_elem_of_fmap. now exists b0.
    + cbn. apply Is_true_true, bool_decide_eq_true. reflexivity.
Qed.

(** X2: after [applyFilter(category)] the shared state holds the category;
    [getActiveCategory] reads the same category back from the bar when
    some control has it, and "all" when none has. *)
Theorem applied_filter_is_read_back (c : option string) (p : Page) :
  let p' := fst (applyFilter c p) in
  activeCategory (menu p') = c /\
  snd (getActiveCategory p') =
    Ok (if bool_decide (c ∈ bar_categories p) then c else Some "all").
Proof.
  cbn zeta. destruct (applyFilter_buttons c p) as [Hbar Hcat].
  split; [exact Hcat|].
  rewrite getActiveCategory_eq, Hbar. cbn [snd]. f_equal.
  pose proof (find_marked c (filter_buttons p)) as Hfind. unfold bar_categories.
  destruct (list_find _ _) as [[i b]|].
  - destruct Hfind as [Hb Hin]. now rewrite bool_decide_eq_true_2.
  - now rewrite bool_decide_eq_false_2.
Qed.

(** The marker a control gets depends on the last filter only. *)
Lemma marked_twice (c1 c2 : option string) (l : list FilterButton) :
  marked c2 <$> (marked c1 <$> l) = marked c2 <$> l.
Proof. rewrite <- list_fmap_compose. apply list_fmap_ext. intros i b _. reflexivity. Qed.

Lemma marked_after_filters (c : option string) (cs : list (option string)) (p : Page) :
  marked c <$> filter_buttons (foldl (fun q c' => fst (applyFilter c' q)) p cs)
  = marked c <$> filter_buttons p.
Proof.
  revert p. induction cs as [|c0 rest IH]; intros p; [reflexivity|].
  cbn [foldl]. rewrite IH. destruct (applyFilter_buttons c0 p) as [-> _].
  apply marked_twice.
Qed.

Lemma marked_all_bar_of (ks : list string) :
  "all" ∉ ks -> marked (Some "all") <$> bar_of ks = bar_of ks.
Proof.
  intros Hks. unfold bar_of. rewrite fmap_cons. f_equal.
  rewrite <- list_fmap_compose. apply list_fmap_ext. intros i k Hk.
  unfold compose, marked, createFilterButton. cbn.
  rewrite bool_decide_eq_false_2; [reflexivity|].
  intros [= ->]. apply Hks. eapply list_elem_of_lookup_2, Hk.
Qed.

(** X3: on a bar as [renderFilters] builds it for categories none of which
    is called "all", whatever filters have been applied since,
    [resetFilters] brings the bar back to the state it was built in, with
    "Todos" the only active control, and the shared state back to "all". *)
Theorem resetFilters_restores_bar
    (ks : list string) (cs : list (option string)) (p : Page) :
  "all" ∉ ks ->
  filter_buttons p = bar_of ks ->
  let browsed := foldl (fun q c => fst (applyFilter c q)) p cs in
  filter_buttons (fst (resetFilters browsed)) = bar_of ks /\
  activeCategory (menu (fst (resetFilters browsed))) = Some "all".
Proof.
  intros Hks Hbar. cbn zeta. unfold resetFilters.
  match goal with
  | |- context [applyFilter ?c ?q] => destruct (applyFilter_buttons c q) as [-> ->]
  end.
  split; [|reflexivity].
  now rewrite marked_after_filters, Hbar, marked_all_bar_of.
Qed.

(** X3 on the loaded page, after the filters "postres" and "vinos". *)
Lemma resetFilters_restores_bar_witness :
  let browsed :=
    foldl (fun q c => fst (applyFilter c q)) page_loaded [Some "postres"; Some "vinos"] in
  filter_buttons (fst (resetFilters browsed)) = bar_of ["entradas"; "postres"; "bebidas"] /\
  activeCategory (menu (fst (resetFilters browsed))) = Some "all".
Proof.
  apply (resetFilters_restores_bar ["entradas"; "postres"; "bebidas"]
           [Some "postres"; Some "vinos"] page_loaded).
  - apply (bool_decide_unpack _). vm_compute. reflexivity.
  - vm_compute. reflexivity.
Defined.

(** ** Rendering changes the children of the containers only *)

Lemma same_outline_refl (p : Page) : same_outline p p.
Proof. reflexivity. Qed.

Lemma same_outline_trans (p q r : Page) :
  same_outline p q -> same_outline q r -> same_outline p r.
Proof. unfold same_outline. congruence. Qed.

Ltac outline_step :=
  first
    [ apply (keeps_ret same_outline same_outline_refl)
    | apply (keeps_lift same_outline same_outline_refl)
    | apply (keeps_read same_outline same_outline_refl)
    | apply (keeps_bind same_outline same_outline_trans)
    | apply (keeps_forEach same_outline same_outline_refl same_outline_trans)
    | apply (keeps_forEach_with same_outline same_outline_refl same_outline_trans)
    | apply keeps_update; intros [? ? [[?|] [?|] ? ? ?] ? ? ? ?]; reflexivity
    | match goal with
      | |- keeps _ (if ?b then _ else _) => destruct b
      | |- keeps _ (match ?x with _ => _ end) => destruct x
      | |- forall _, _ => intro
      end ].

Lemma renderDetailedView_outline (data : json) (category : option string) :
  keeps same_outline (renderDetailedView data category).
Proof. unfold renderDetailedView. repeat outline_step. Qed.

Lemma renderSimpleView_outline (data : json) (category : option string) :
  keeps same_outline (renderSimpleView data category).
Proof. unfold renderSimpleView. repeat outline_step. Qed.

(** ** The views on a catalog *)

(** The detailed view of a catalog, as one step. *)
Lemma renderDetailedView_catalog
    (c : list (string * list Dish)) (category : string) (p : Page) :
  NoDup (fst <$> c) ->
  plain_name c category ->
  exists q,
    renderDetailedView (json_of_catalog c) (Some category) p = (q, Ok tt) /\
    grid_nodes q = (fun _ => shown_cards c category) <$> grid_nodes p /\
    same_outline p q.
Proof.
  intros Hnd Hplain.
  pose proof (renderDetailedView_outline (json_of_catalog c) (Some category) p) as Hout.
  enough (Hrun : exists q,
    renderDetailedView (json_of_catalog c) (Some category) p = (q, Ok tt) /\
    grid_nodes q = (fun _ => shown_cards c category) <$> grid_nodes p).
  { destruct Hrun as (q & Hrun & Hnodes). exists q. rewrite Hrun in Hout. now repeat split. }
  clear Hout.
  destruct (menuGrid (dom p)) as [g|] eqn:Hgrid.
  2: { exists p. unfold renderDetailedView, grid_nodes. run. rewrite Hgrid. repeat split. }
  assert (Hpresent : present (menuGrid (dom p)) = true) by now rewrite Hgrid.
  destruct (gathered_selected c category Hnd Hplain) as (ks & Hks & Hpl & Hds & _ & _).
  unfold shown_cards, shown_dishes. set (ds := concat (snd <$> selected c category)) in *.
  assert (Hnodes0 : grid_nodes p = Some (grid_children g))
    by (unfold grid_nodes; now rewrite Hgrid).
  rewrite Hnodes0. cbn [fmap option_fmap option_map].
  unfold renderDetailedView. cbv zeta. cbn [default from_option id].
  rewrite run_bind. unfold read at 1. rewrite Hpresent. cbn [negb].
  rewrite run_update_bind, run_bind. unfold lift at 1. rewrite Hks.
  rewrite run_bind.
  destruct (categories_loop c ks 0 (set_grid_children [] p) Hpl) as [Hres Hnodes].
  cbn zeta in Hres, Hnodes. rewrite Hds in Hres, Hnodes.
  rewrite grid_nodes_set in Hnodes by assumption.
  cbn [fmap option_fmap option_map app] in Hnodes.
  match type of Hres with snd ?r = _ => destruct r as [q r'] end.
  cbn [fst snd] in Hres, Hnodes. subst r'.
  destruct ds as [|d rest]; cbn [length Z.of_nat].
  - cbn. eexists. split; [reflexivity|].
    apply grid_nodes_set. apply present_grid_nodes. rewrite Hnodes. eexists; reflexivity.
  - destruct (Z.eqb_spec (0 + Z.of_nat (S (length rest))) 0) as [Hz|_]; [lia|].
    cbn. eexists. split; [reflexivity|exact Hnodes].
Qed.

(** The simple view of a catalog, as one step. *)
Lemma renderSimpleView_catalog
    (c : list (string * list Dish)) (category : string) (p : Page) :
  NoDup (fst <$> c) ->
  plain_name c category ->
  exists q,
    renderSimpleView (json_of_catalog c) (Some category) p = (q, Ok tt) /\
    simple_nodes q = (fun _ => shown_blocks c category) <$> simple_nodes p /\
    same_outline p q.
Proof.
  intros Hnd Hplain.
  pose proof (renderSimpleView_outline (json_of_catalog c) (Some category) p) as Hout.
  enough (Hrun : exists q,
    renderSimpleView (json_of_catalog c) (Some category) p = (q, Ok tt) /\
    simple_nodes q = (fun _ => shown_blocks c category) <$> simple_nodes p).
  { destruct Hrun as (q & Hrun & Hnodes). exists q. rewrite Hrun in Hout. now repeat split. }
  clear Hout.
  destruct (menuSimple (dom p)) as [sp|] eqn:Hpanel.
  2: { exists p. unfold renderSimpleView, simple_nodes. run. rewrite Hpanel. repeat split. }
  assert (Hpresent : present (menuSimple (dom p)) = true) by now rewrite Hpanel.
  destruct (gathered_selected c category Hnd Hplain) as (ks & Hks & Hpl & _ & Hblocks & Hnone).
  unfold shown_blocks, shown_dishes. set (ds := concat (snd <$> selected c category)) in *.
  assert (Hnodes0 : simple_nodes p = Some (simple_children sp))
    by (unfold simple_nodes; now rewrite Hpanel).
  rewrite Hnodes0. cbn [fmap option_fmap option_map].
  unfold renderSimpleView. cbv zeta. cbn [default from_option id].
  rewrite run_bind. unfold read at 1. rewrite Hpresent. cbn [negb].
  rewrite run_update_bind, run_bind. unfold lift at 1. rewrite Hks.
  rewrite run_bind.
  destruct (blocks_loop c ks (set_simple_children [] p) Hpl) as [Hres Hnodes].
  cbn zeta in Hres, Hnodes. rewrite Hblocks in Hnodes.
  rewrite simple_nodes_set in Hnodes by assumption.
  cbn [fmap option_fmap option_map app] in Hnodes.
  match type of Hres with snd ?r = _ => destruct r as [q r'] end.
  cbn [fst snd] in Hres, Hnodes. subst r'.
  rewrite run_bind. unfold read at 1.
  change (default [] (simple_children <$> menuSimple (dom q)))
    with (default [] (simple_nodes q)).
  rewrite Hnodes. cbn [default from_option id].
  assert (Hq : present (menuSimple (dom q)) = true).
  { apply present_simple_nodes. rewrite Hnodes. eexists; reflexivity. }
  destruct ds as [|d rest] eqn:Hd.
  - assert (Hb : blocks_of (selected c category) = []) by now apply blocks_of_nil.
    rewrite Hb. cbn [length Nat.eqb]. rewrite orb_true_r.
    eexists. split; [reflexivity|]. now apply simple_nodes_set.
  - assert (Hb : blocks_of (selected c category) <> []).
    { intros Hb. apply blocks_of_nil in Hb. fold ds in Hb. congruence. }
    assert (Hk : ks <> []).
    { intros Hk. apply Hnone in Hk. subst ds. rewrite Hk in Hd. discriminate. }
    destruct ks as [|k ks']; [contradiction|].
    destruct (blocks_of (selected c category)) as [|b bs]; [contradiction|].
    cbn. eexists. split; [reflexivity|exact Hnodes].
Qed.

(** ** A filter on a loaded menu *)

Lemma outline_document (p q : Page) : same_outline p q -> document q = document p.
Proof. intros Hout. exact (f_equal document Hout). Qed.

Lemma outline_menu (p q : Page) : same_outline p q -> menu q = menu p.
Proof. intros Hout. exact (f_equal menu Hout). Qed.

Lemma menu_top_without_children (p : Page) : menu_top (without_children p) = menu_top p.
Proof.
  destruct p as [m s [[g|] [sp|] flt ld er] ms md doc lp]; unfold menu_top; cbn;
    try reflexivity; destruct (String.eqb _ _); reflexivity.
Qed.

Lemma outline_menu_top (p q : Page) : same_outline p q -> menu_top q = menu_top p.
Proof.
  intros Hout. rewrite <- (menu_top_without_children q), <- (menu_top_without_children p).
  now rewrite Hout.
Qed.

Lemma scrollToMenu_run (q : Page) :
  scrollToMenu q =
  (match menu_top q with
   | Some top =>
       on_document (fun d =>
         {| activeElement := activeElement d; bodyOverflow := bodyOverflow d;
            filterAnnouncer := filterAnnouncer d; pageYOffset := pageYOffset d;
            scrollTarget := Some (top + pageYOffset d - 100);
            place_of := place_of d |}) q
   | None => q
   end, Ok tt).
Proof.
  unfold scrollToMenu, menu_top. run.
  destruct (menuGrid (dom q)) as [g|]; [|reflexivity].
  destruct (String.eqb (grid_display g) "none"); cbn; [|reflexivity].
  destruct (menuSimple (dom q)); reflexivity.
Qed.

(** The page between the update of the bar and the rendering. *)
Lemma filter_set_facts (c : option string) (p : Page) :
  let p1 := on_filters (fmap (marked c)) (set_activeCategory c p) in
  data (menu p1) = data (menu p) /\ activeView (menu p1) = activeView (menu p) /\
  document p1 = document p /\ menu_top p1 = menu_top p /\
  grid_nodes p1 = grid_nodes p /\ simple_nodes p1 = simple_nodes p.
Proof.
  destruct p as [m s [g sp flt ld er] ms md doc lp]. repeat split.
Qed.

(** [applyFilter] on a page that holds a catalog, as one step. *)
Lemma applyFilter_catalog
    (c : list (string * list Dish)) (category : string) (p : Page) :
  NoDup (fst <$> c) ->
  plain_name c category ->
  data (menu p) = json_of_catalog c ->
  exists q,
    applyFilter (Some category) p = (q, Ok tt) /\
    filterAnnouncer (document q) = Some (announcement category) /\
    scrollTarget (document q) =
      match menu_top p with
      | Some top => Some (top + pageYOffset (document p) - 100)
      | None => scrollTarget (document p)
      end /\
    match activeView (menu p) with
    | detailed => grid_nodes q = (fun _ => shown_cards c category) <$> grid_nodes p
    | simple => simple_nodes q = (fun _ => shown_blocks c category) <$> simple_nodes p
    end.
Proof.
  intros Hnd Hplain Hdata.
  unfold applyFilter, updateFilterButtons. rewrite !run_update_bind.
  change (on_filters _ (set_activeCategory ?c p))
    with (on_filters (fmap (marked c)) (set_activeCategory c p)).
  destruct (filter_set_facts (Some category) p) as (Hd & Hv & Hdoc & Htop & Hg & Hs).
  cbn zeta in Hd, Hv, Hdoc, Htop, Hg, Hs.
  set (p1 := on_filters _ _) in *.
  rewrite run_bind. unfold read at 1. rewrite Hd, Hdata.
  change (truthy (json_of_catalog c)) with true. cbv iota.
  rewrite run_bind, run_bind. unfold read at 1. rewrite Hv.
  assert (Hrender : exists q1,
    match activeView (menu p) with
    | detailed => renderDetailedView (json_of_catalog c) (Some category)
    | simple => renderSimpleView (json_of_catalog c) (Some category)
    end p1 = (q1, Ok tt) /\
    same_outline p1 q1 /\
    match activeView (menu p) with
    | detailed => grid_nodes q1 = (fun _ => shown_cards c category) <$> grid_nodes p
    | simple => simple_nodes q1 = (fun _ => shown_blocks c category) <$> simple_nodes p
    end).
  { destruct (activeView (menu p)).
    - destruct (renderDetailedView_catalog c category p1 Hnd Hplain)
        as (q1 & Hrun & Hn & Hout).
      exists q1. rewrite <- Hg. now repeat split.
    - destruct (renderSimpleView_catalog c category p1 Hnd Hplain)
        as (q1 & Hrun & Hn & Hout).
      exists q1. rewrite <- Hs. now repeat split. }
  destruct Hrender as (q1 & -> & Hout & Hshown).
  rewrite run_bind, scrollToMenu_run.
  rewrite (outline_menu_top _ _ Hout), Htop.
  unfold announceFilterChange, update.
  fold (announcement category).
  eexists. split; [reflexivity|]. cbn [fst document filterAnnouncer scrollTarget on_document].
  split; [reflexivity|].
  rewrite <- Hdoc, <- (outline_document _ _ Hout).
  destruct (menu_top p) as [top|]; cbn; (split; [reflexivity|]);
    destruct (activeView (menu p)); exact Hshown.
Qed.

(** X4: on a page that holds a catalog (categories of distinct names),
    for a category that the catalog has or that is not the name of a
    member objects inherit, [applyFilter(category)] returns normally,
    renders the active view for the category (the headings of the simple
    view as in C4, when the capitals of the category names are
    characters of the model), asks the window to scroll to 100 pixels
    above the view that is displayed (when the page has the grid), and
    writes "Mostrando" and the category ("todos los platos" for "all")
    to the live region. *)
Theorem applyFilter_renders_scrolls_announces
    (c : list (string * list Dish)) (category : string) (p : Page) :
  NoDup (fst <$> c) ->
  plain_name c category ->
  data (menu p) = json_of_catalog c ->
  let p' := fst (applyFilter (Some category) p) in
  snd (applyFilter (Some category) p) = Ok tt /\
  match activeView (menu p) with
  | detailed => grid_nodes p' = (fun _ => shown_cards c category) <$> grid_nodes p
  | simple =>
      capitals_known c ->
      simple_nodes p' = (fun _ => shown_blocks c category) <$> simple_nodes p
  end /\
  scrollTarget (document p') =
    match menu_top p with
    | Some top => Some (top + pageYOffset (document p) - 100)
    | None => scrollTarget (document p)
    end /\
  filterAnnouncer (document p') = Some (announcement category).
Proof.
  intros Hnd Hplain Hdata. cbn zeta.
  destruct (applyFilter_catalog c category p Hnd Hplain Hdata)
    as (q & -> & Hann & Hscroll & Hshown).
  cbn [fst snd]. repeat split; try assumption.
  destruct (activeView (menu p)); [exact Hshown|intros _; exact Hshown].
Qed.

(** X4 on the loaded page: the filter "postres" shows the card of Suspiro,
    scrolls to 540 = 640 + 0 - 100 and announces "Mostrando postres". *)
Lemma applyFilter_renders_scrolls_announces_witness :
  let p' := fst (applyFilter (Some "postres") page_loaded) in
  grid_nodes p' = Some (cards_from 0 [suspiro]) /\
  scrollTarget (document p') = Some 540 /\
  filterAnnouncer (document p') = Some "Mostrando postres".
Proof.
  assert (Hnd : NoDup (fst <$> carta))
    by (apply (bool_decide_unpack _); vm_compute; reflexivity).
  assert (Hplain : plain_name carta "postres") by (intros Hnone; discriminate Hnone).
  assert (Hdata : data (menu page_loaded) = json_of_catalog carta)
    by (vm_compute; reflexivity).
  assert (Hview : activeView (menu page_loaded) = detailed) by (vm_compute; reflexivity).
  destruct (applyFilter_renders_scrolls_announces carta "postres" page_loaded Hnd Hplain Hdata)
    as (_ & Hshown & Hscroll & Hann).
  rewrite Hview in Hshown. cbn zeta.
  split; [rewrite Hshown; vm_compute; reflexivity|].
  split; [rewrite Hscroll; vm_compute; reflexivity|exact Hann].
Defined.

(** ** The dialog, opened *)

(** What [openMenuModal] leaves behind for a dish of the catalog. *)
Lemma openMenuModal_dish (d : Dish) (p : Page) (dlg : Dialog) :
  modal (modalDom p) = Some dlg ->
  openMenuModal (json_of_dish d) p =
  ({| menu := menu p; storage := storage p; dom := dom p;
      modalState :=
        {| isOpen := true; lastFocusedElement := activeElement (document p);
           focusableElements := dlg_focusable dlg |};
      modalDom :=
        {| modal := Some {| dlg_display := "flex"; dlg_ariaHidden := "false";
                            dlg_opacity := dlg_opacity dlg;
                            dlg_focusable := dlg_focusable dlg |};
           closeBtn := closeBtn (modalDom p);
           image := (fun _ => {| src := imagen d; alt := nombre d |}) <$> image (modalDom p);
           title := (fun _ => nombre d) <$> title (modalDom p);
           description := (fun _ => descripcion d) <$> description (modalDom p);
           price := (fun _ => "S/ " +:+ price_text (precio d)) <$> price (modalDom p) |};
      document :=
        {| activeElement := activeElement (document p); bodyOverflow := "hidden";
           filterAnnouncer := filterAnnouncer (document p);
           pageYOffset := pageYOffset (document p);
           scrollTarget := scrollTarget (document p);
           place_of := place_of (document p) |};
      loop :=
        {| clock := clock (loop p); frame := frame (loop p);
           timers :=
             enqueue {| due := clock (loop p) + 100; job := ModalFocusClose |}
               (enqueue {| due := clock (loop p) + frame (loop p); job := ModalFadeIn |}
                  (timers (loop p))) |} |}, Ok tt).
Proof.
  intros Hdlg.
  destruct p as [m s dm ms md doc lp], md as [dl btn img ttl dsc prc],
    doc as [act ovf ann off tgt pl], lp as [now fr tm].
  cbn in Hdlg. subst dl.
  unfold openMenuModal, setupFocusTrap, requestAnimationFrame, setTimeout, schedule,
    ToString_opt, as_text, ToPrimitive.
  destruct img, ttl, dsc, prc; run; rewrite ?convertible_price; run;
    rewrite ?ToString_price; reflexivity.
Qed.

(** X5: on a page with the dialog and no callback pending,
    [openMenuModal] of a dish followed by a time of at least 100 ms and
    at least one animation frame: the dialog is displayed, exposed to
    assistive technology and opaque; the slots that exist hold the image,
    the name, the description and the price of the dish; the element that
    had the focus and the focusable elements of the dialog are recorded;
    the body does not scroll; the focus is on the close button when there
    is one that can take it, and where it was otherwise; no callback is
    left. *)
Theorem opened_dialog_shows_dish (d : Dish) (p : Page) (dlg : Dialog) (dt : Z) :
  modal (modalDom p) = Some dlg ->
  timers (loop p) = [] ->
  0 <= frame (loop p) <= dt ->
  100 <= dt ->
  let p' := advance dt (fst (openMenuModal (json_of_dish d) p)) in
  modal (modalDom p') =
    Some {| dlg_display := "flex"; dlg_ariaHidden := "false"; dlg_opacity := "1";
            dlg_focusable := dlg_focusable dlg |} /\
  image (modalDom p') = (fun _ => {| src := imagen d; alt := nombre d |}) <$> image (modalDom p) /\
  title (modalDom p') = (fun _ => nombre d) <$> title (modalDom p) /\
  description (modalDom p') = (fun _ => descripcion d) <$> description (modalDom p) /\
  price (modalDom p') = (fun _ => "S/ " +:+ price_text (precio d)) <$> price (modalDom p) /\
  modalState p' =
    {| isOpen := true; lastFocusedElement := activeElement (document p);
       focusableElements := dlg_focusable dlg |} /\
  bodyOverflow (document p') = "hidden" /\
  activeElement (document p') =
    match closeBtn (modalDom p), place_of (document p) CloseBtn with
    | true, (Outside | InDialog) => Some CloseBtn
    | _, _ => activeElement (document p)
    end /\
  timers (loop p') = [].
Proof.
  intros Hdlg Hidle Hframe Hwait. cbn zeta.
  rewrite (openMenuModal_dish d p dlg Hdlg), Hidle. cbn [fst].
  generalize dependent (frame (loop p)). intros fr Hframe.
  generalize (clock (loop p)) (closeBtn (modalDom p)). intros now btn.
  rewrite advance_eq. cbn [loop clock timers].
  destruct btn; repeat loop_step;
    rewrite ?run_fade_in, ?run_focus_close by reflexivity;
    page_step; repeat loop_step;
    rewrite ?run_fade_in, ?run_focus_close by reflexivity;
    page_step; repeat loop_step; page_step;
    unfold can_focus; page_step;
    destruct (place_of (document p) CloseBtn); repeat split.
Qed.

(** X5 on the fresh page, 100 ms after the card of Causa was clicked. *)
Lemma opened_dialog_shows_dish_witness :
  let p' := advance 100 (fst (openMenuModal (json_of_dish causa) page_browsing)) in
  title (modalDom p') = Some "Causa" /\
  price (modalDom p') = Some "S/ 12" /\
  activeElement (document p') = Some CloseBtn /\
  modalState p' =
    {| isOpen := true; lastFocusedElement := Some (Elem 3); focusableElements := [CloseBtn] |}.
Proof.
  destruct (opened_dialog_shows_dish causa page_browsing
              {| dlg_display := "none"; dlg_ariaHidden := "true"; dlg_opacity := "0";
                 dlg_focusable := [CloseBtn] |} 100 eq_refl eq_refl)
    as (_ & _ & Htitle & _ & Hprice & Hstate & _ & Hfocus & _).
  - cbn. lia.
  - lia.
  - cbn zeta. repeat split; assumption.
Defined.

(** ** The dialog and the keyboard *)


Lemma keydown_Escape (shiftKey : bool) (p : Page) :
  isOpen (modalState p) = true ->
  fst (keydown "Escape" shiftKey p) = fst (closeMenuModal p).
Proof.
  intros Hopen. unfold keydown. rewrite run_bind. unfold read at 1. rewrite Hopen.
  cbn [String.eqb Ascii.eqb Bool.eqb andb]. rewrite run_bind.
  destruct (closeMenuModal p) as [q [[]|e]] eqn:Hclose; [|reflexivity].
  unfold handleModalTab. run. destruct (isOpen (modalState q)); reflexivity.
Qed.

(** No callback sets a timer or reads the clock, and none touches the
    menu elements or moves an element. *)
Lemma run_task_frame (j : task) (p : Page) :
  loop (fst (run_task j p)) = loop p /\
  dom (fst (run_task j p)) = dom p /\
  place_of (document (fst (run_task j p))) = place_of (document p) /\
  present (modal (modalDom (fst (run_task j p)))) = present (modal (modalDom p)) /\
  lastFocusedElement (modalState (fst (run_task j p))) = lastFocusedElement (modalState p).
Proof.
  destruct p as [m s d [op lst els] md doc lp], md as [dlg btn img ttl dsc prc].
  destruct j; unfold run_task, the_dialog, focus, on_dialog, set_overflow, set_isOpen; run.
  - destruct dlg; run; repeat split.
  - destruct btn; run; [destruct (can_focus _ _)|]; repeat split.
  - destruct dlg; run; [|repeat split].
    destruct lst; run; [destruct (can_focus _ _)|]; repeat split.
Qed.

Lemma loop_run_task (j : task) (p : Page) : loop (fst (run_task j p)) = loop p.
Proof. apply run_task_frame. Qed.

(** X7: while the dialog is open and no callback is pending, the Escape
    key closes it: 300 ms later the dialog has display none and
    aria-hidden true, the body scrolls again, the open flag is false, the
    focus is on the element recorded when the dialog was opened (an
    element outside the dialog that can take the focus), and no callback
    is left. *)
Theorem escape_closes_dialog (E : node) (shiftKey : bool) (p : Page) (dt : Z) :
  present (modal (modalDom p)) = true ->
  isOpen (modalState p) = true ->
  lastFocusedElement (modalState p) = Some E ->
  outside_dialog E p ->
  timers (loop p) = [] ->
  300 <= dt ->
  let p' := advance dt (fst (keydown "Escape" shiftKey p)) in
  closed_on E p' /\ timers (loop p') = [].
Proof.
  intros Hdlg Hopen Hlast Hout Hidle Hwait. cbn zeta.
  rewrite keydown_Escape, closeMenuModal_open by assumption.
  rewrite advance_eq. page_step. rewrite Hidle. repeat loop_step.
  split.
  - apply (proj2 (closed_on_loop _ _ _)). apply run_finish_close.
    + page_step. now destruct (modal (modalDom p)).
    + exact Hlast.
    + eapply outside_dialog_same; [| |exact Hout]; reflexivity.
  - page_step. rewrite loop_run_task. reflexivity.
Qed.

(** X7 on the page 100 ms after a dish was opened from the first card of
    the loaded page. *)
Lemma escape_closes_dialog_witness :
  let opened := advance 100 (fst (openMenuModal (json_of_dish causa) page_on_card)) in
  let p' := advance 300 (fst (keydown "Escape" false opened)) in
  closed_on first_card p' /\ timers (loop p') = [].
Proof.
  apply (escape_closes_dialog first_card false
           (advance 100 (fst (openMenuModal (json_of_dish causa) page_on_card))) 300).
  - reflexivity.
  - reflexivity.
  - reflexivity.
  - vm_compute. reflexivity.
  - reflexivity.
  - lia.
Defined.

Lemma handleModalTab_open (shiftKey : bool) (p : Page) (f l a : node) :
  isOpen (modalState p) = true ->
  head (focusableElements (modalState p)) = Some f ->
  last (focusableElements (modalState p)) = Some l ->
  activeElement (document p) = Some a ->
  handleModalTab "Tab" shiftKey p =
  (if shiftKey && bool_decide (a = f) then focus l
   else if negb shiftKey && bool_decide (a = l) then focus f
   else mret tt) p.
Proof.
  intros Hopen Hf Hl Ha. unfold handleModalTab. run. rewrite Hopen. run.
  now rewrite Hf, Hl, Ha.
Qed.

Lemma can_focus_focus_when (b : bool) (n m : node) (p : Page) :
  can_focus (focus_when b n p) m = can_focus p m.
Proof. destruct b; [reflexivity|now rewrite focus_when_false]. Qed.

(** X8: while the dialog is open, with [f] the first and [l] the last of
    its focusable elements, both able to take the focus: Tab on [l] moves
    the focus to [f], Shift+Tab on [f] moves it to [l], and a Tab that is
    not on [l], or a Shift+Tab that is not on [f], is left to the browser
    (the page does not change); so Tab on [l] followed by Shift+Tab is
    back on [l]. Nothing but the focused element ever changes. *)
Theorem focus_trap_wraps (p : Page) (f l a : node) :
  isOpen (modalState p) = true ->
  head (focusableElements (modalState p)) = Some f ->
  last (focusableElements (modalState p)) = Some l ->
  activeElement (document p) = Some a ->
  can_focus p f = true ->
  can_focus p l = true ->
  let tab := fun shiftKey q => fst (handleModalTab "Tab" shiftKey q) in
  (a = l -> activeElement (document (tab false p)) = Some f) /\
  (a = f -> activeElement (document (tab true p)) = Some l) /\
  (a <> l -> tab false p = p) /\
  (a <> f -> tab true p = p) /\
  (a = l -> activeElement (document (tab true (tab false p))) = Some l) /\
  (forall shiftKey,
     modalState (tab shiftKey p) = modalState p /\ modalDom (tab shiftKey p) = modalDom p /\
     loop (tab shiftKey p) = loop p /\ menu_side_kept p (tab shiftKey p)).
Proof.
  intros Hopen Hf Hl Ha Hcf Hcl. cbn zeta.
  pose proof (fun s => handleModalTab_open s p f l a Hopen Hf Hl Ha) as Hrun.
  split; [|split; [|split; [|split; [|split]]]].
  - intros ->. rewrite (Hrun false). cbn [negb andb].
    rewrite bool_decide_eq_true_2 by reflexivity. now rewrite focus_run, Hcf.
  - intros ->. rewrite (Hrun true). cbn [andb].
    rewrite bool_decide_eq_true_2 by reflexivity. now rewrite focus_run, Hcl.
  - intros Hne. rewrite (Hrun false). cbn [negb andb].
    rewrite bool_decide_eq_false_2 by exact Hne. reflexivity.
  - intros Hne. rewrite (Hrun true). cbn [negb andb].
    rewrite bool_decide_eq_false_2 by exact Hne. reflexivity.
  - intros ->. rewrite (Hrun false). cbn [negb andb].
    rewrite bool_decide_eq_true_2 by reflexivity. rewrite focus_run, Hcf. cbn [fst].
    rewrite (handleModalTab_open true (focus_when true f p) f l f);
      try assumption; try reflexivity.
    cbn [andb]. rewrite bool_decide_eq_true_2 by reflexivity.
    now rewrite focus_run, can_focus_focus_when, Hcl.
  - intros shiftKey. rewrite (Hrun shiftKey).
    destruct (shiftKey && bool_decide (a = f));
      [rewrite focus_run; destruct (can_focus p l); repeat split|].
    destruct (negb shiftKey && bool_decide (a = l));
      [rewrite focus_run; destruct (can_focus p f)|]; repeat split.
Qed.

(** X8 on an open dialog with two controls, the close button and a link
    after it: the focus is on the close button; Shift+Tab moves it to the
    link, and Tab there moves it back to the close button. *)
Lemma focus_trap_wraps_witness :
  activeElement (document dialog_two_controls) = Some CloseBtn /\
  activeElement (document (fst (handleModalTab "Tab" true dialog_two_controls)))
    = Some (Elem 7) /\
  activeElement
    (document (fst (handleModalTab "Tab" false
                      (fst (handleModalTab "Tab" true dialog_two_controls)))))
    = Some CloseBtn.
Proof.
  split; [reflexivity|].
  destruct (focus_trap_wraps dialog_two_controls CloseBtn (Elem 7) CloseBtn
              eq_refl eq_refl eq_refl eq_refl eq_refl eq_refl) as (_ & Hback & _).
  split; [exact (Hback eq_refl)|].
  destruct (focus_trap_wraps (fst (handleModalTab "Tab" true dialog_two_controls))
              CloseBtn (Elem 7) (Elem 7)
              eq_refl eq_refl eq_refl eq_refl eq_refl eq_refl) as (Hforth & _).
  exact (Hforth eq_refl).
Defined.

(** ** Closing twice *)

Lemma closeMenuModal_closed (p : Page) :
  isOpen (modalState p) = false -> closeMenuModal p = (p, Ok tt).
Proof.
  intros Hclosed. unfold closeMenuModal. run. rewrite Hclosed.
  now destruct (modal (modalDom p)).
Qed.

Lemma remembers_same (E : node) (p q : Page) :
  present (modal (modalDom q)) = present (modal (modalDom p)) ->
  lastFocusedElement (modalState q) = lastFocusedElement (modalState p) ->
  dom q = dom p ->
  place_of (document q) = place_of (document p) ->
  remembers E p -> remembers E q.
Proof.
  intros Hm Hl Hd Hp (Hdlg & Hlast & Hout).
  split; [now rewrite Hm|]. split; [now rewrite Hl|].
  now apply (outside_dialog_same E p q).
Qed.

Lemma remembers_on_loop (E : node) (f : EventLoop -> EventLoop) (p : Page) :
  remembers E p -> remembers E (on_loop f p).
Proof. apply remembers_same; reflexivity. Qed.

Lemma remembers_on_dialog (E : node) (g : Dialog -> Dialog) (p : Page) :
  remembers E p -> remembers E (on_dialog g p).
Proof.
  apply remembers_same; try reflexivity.
  destruct p as [m s d ms [dlg btn img ttl dsc prc] doc lp]. now destruct dlg.
Qed.

Lemma remembers_run_task (E : node) (j : task) (p : Page) :
  remembers E p -> remembers E (fst (run_task j p)).
Proof.
  destruct (run_task_frame j p) as (_ & Hd & Hp & Hm & Hl).
  now apply remembers_same.
Qed.

Lemma finish_close_closes (E : node) (p : Page) :
  remembers E p -> closed_on E (fst (run_task ModalFinishClose p)).
Proof. intros (Hdlg & Hlast & Hout). now apply run_finish_close. Qed.

(** X9: on an open dialog with no callback pending, [closeMenuModal]
    called twice (the close button, then Escape or the overlay), any
    time apart: 300 ms after the second call the dialog is closed as
    after a single call, the focus on the element recorded at opening (an
    element outside the dialog that can take the focus), and no callback
    is left. *)
Theorem closing_twice_is_harmless (E : node) (p : Page) (d1 d2 : Z) :
  present (modal (modalDom p)) = true ->
  isOpen (modalState p) = true ->
  lastFocusedElement (modalState p) = Some E ->
  outside_dialog E p ->
  timers (loop p) = [] ->
  0 <= d1 ->
  300 <= d2 ->
  let once := advance d1 (fst (closeMenuModal p)) in
  let twice := advance d2 (fst (closeMenuModal once)) in
  closed_on E twice /\ timers (loop twice) = [].
Proof.
  intros Hdlg Hopen Hlast Hout Hidle Hd1 Hd2. cbn zeta.
  assert (Hinv : remembers E p) by (repeat split; assumption).
  rewrite (closeMenuModal_open p) by assumption.
  set (closing := on_loop _ (on_dialog _ p)).
  assert (Hinv1 : remembers E closing)
    by (apply remembers_on_loop, remembers_on_dialog, Hinv).
  assert (Hq1 : timers (loop closing)
                = [{| due := clock (loop p) + 300; job := ModalFinishClose |}])
    by (subst closing; page_step; now rewrite Hidle).
  assert (Hc1 : clock (loop closing) = clock (loop p)) by reflexivity.
  assert (Hopen1 : isOpen (modalState closing) = true) by exact Hopen.
  clearbody closing.
  rewrite (advance_eq d1 closing), Hq1, Hc1.
  destruct (Z_le_gt_dec 300 d1) as [Hlate|Hearly].
  - (* the first close has finished: the second call does nothing *)
    rewrite run_due_now by (cbn; lia). rewrite run_due_nil. cbn [job].
    match goal with
    | |- context [run_task ModalFinishClose ?q] =>
        assert (Hclosed : closed_on E (fst (run_task ModalFinishClose q)))
          by (apply finish_close_closes, remembers_on_loop, Hinv1);
        assert (Hloop : timers (loop (fst (run_task ModalFinishClose q))) = [])
          by (rewrite loop_run_task; reflexivity);
        generalize dependent (fst (run_task ModalFinishClose q))
    end.
    intros once Hclosed Hloop.
    rewrite closeMenuModal_closed by (apply Hclosed).
    cbn [fst]. rewrite advance_eq. page_step. rewrite Hloop, run_due_nil.
    split; [exact Hclosed|exact Hloop].
  - (* the first close is pending: both callbacks run *)
    rewrite run_due_later by (cbn; lia).
    match goal with
    | |- context [closeMenuModal ?q] =>
        assert (Hinv2 : remembers E q) by (apply remembers_on_loop, Hinv1);
        assert (Hopen2 : isOpen (modalState q) = true) by exact Hopen1;
        assert (Hq2 : timers (loop q)
                      = [{| due := clock (loop p) + 300; job := ModalFinishClose |}])
          by exact Hq1;
        assert (Hc2 : clock (loop q) = clock (loop p) + d1) by reflexivity;
        generalize dependent q
    end.
    intros once Hinv2 Hopen2 Hq2 Hc2.
    rewrite (closeMenuModal_open once) by (try apply Hinv2; assumption).
    set (closing2 := on_loop _ (on_dialog _ once)).
    assert (Hinv3 : remembers E closing2)
      by (apply remembers_on_loop, remembers_on_dialog, Hinv2).
    assert (Hq3 : timers (loop closing2)
                  = [{| due := clock (loop p) + 300; job := ModalFinishClose |};
                     {| due := clock (loop p) + d1 + 300; job := ModalFinishClose |}]).
    { subst closing2. page_step. rewrite Hq2, Hc2.
      rewrite enqueue_after by (cbn; lia). now rewrite enqueue_nil. }
    assert (Hc3 : clock (loop closing2) = clock (loop p) + d1) by exact Hc2.
    clearbody closing2.
    rewrite advance_eq, Hq3, Hc3.
    rewrite run_due_now by (cbn; lia). cbn [job].
    rewrite run_due_now by (cbn; lia). cbn [job].
    rewrite run_due_nil.
    split.
    + apply (proj2 (closed_on_loop _ _ _)).
      apply finish_close_closes, remembers_on_loop, remembers_run_task,
        remembers_on_loop, Hinv3.
    + page_step. rewrite loop_run_task. reflexivity.
Qed.

(** X9 on the open dialog of the example page, opened from a link of
    the page and closed twice 50 ms apart. *)
Lemma closing_twice_is_harmless_witness :
  let opened := advance 100 (fst (openMenuModal (json_of_dish causa) page_browsing)) in
  let once := advance 50 (fst (closeMenuModal opened)) in
  let twice := advance 300 (fst (closeMenuModal once)) in
  closed_on (Elem 3) twice /\ timers (loop twice) = [].
Proof.
  apply (closing_twice_is_harmless (Elem 3)
           (advance 100 (fst (openMenuModal (json_of_dish causa) page_browsing))) 50 300).
  - reflexivity.
  - reflexivity.
  - reflexivity.
  - reflexivity.
  - reflexivity.
  - lia.
  - lia.
Defined.

(** ** The cache, in full *)

Section Cache.
Context `{Platform}.

(** What [getFromCache] may do to the storage. *)
Lemma getFromCache_confined (p : Page) :
  exists s' c,
    getFromCache p = (on_storage (fun _ => s') p, Ok c) /\
    readable s' = readable (storage p) /\ writable s' = writable (storage p) /\
    (items s' = items (storage p) \/
     items s' = delete CONFIG.cacheKey (items (storage p))).
Proof.
  destruct p as [m s d ms md doc lp].
  unfold getFromCache, getItem, removeItem, Date_now. run.
  destruct (readable s) eqn:Hr; run.
  2: { exists s. eexists. repeat split; first [assumption|now left]. }
  destruct (items s !! CONFIG.cacheKey) as [text|] eqn:Hi; run.
  2: { exists s. eexists. repeat split; first [assumption|now left]. }
  destruct text as [|a text'].
  { exists s. eexists. repeat split; first [assumption|now left]. }
  destruct (JSON_parse (String a text')) as [entry|e]; run.
  2: { exists s. eexists. repeat split; first [assumption|now left]. }
  destruct (get entry "timestamp") as [ts|e]; run.
  2: { exists s. eexists. repeat split; first [assumption|now left]. }
  unfold minus. destruct (ToPrimitive ts); run.
  2: { exists s. eexists. repeat split; first [assumption|now left]. }
  destruct (gt _ _); run.
  - rewrite Hr. run. eexists. eexists. split; [reflexivity|]. cbn. repeat split; first [assumption|now right].
  - destruct (get entry "data"); run; exists s; eexists; repeat split; first [assumption|now left].
Qed.

(** What [saveToCache] does to the storage. *)
Lemma saveToCache_confined (v : json) (p : Page) :
  exists s',
    saveToCache v p = (on_storage (fun _ => s') p, Ok tt) /\
    readable s' = readable (storage p) /\ writable s' = writable (storage p) /\
    items s' =
      if readable (storage p) && writable (storage p)
      then <[CONFIG.cacheKey := JSON_stringify (cache_entry v (clock (loop p)))]>
             (items (storage p))
      else items (storage p).
Proof.
  destruct p as [m s d ms md doc lp].
  unfold saveToCache, setItem, Date_now. run.
  destruct (readable s && writable s); run; eexists; repeat split.
Qed.

(** X10: [getFromCache] and [saveToCache] never throw, whatever the state
    of the storage; they change nothing on the page but the storage, and
    in the storage nothing but the item of the cache key, which
    [getFromCache] leaves or removes and [saveToCache] leaves or sets. *)
Theorem cache_access_is_confined (v : json) (p : Page) :
  let read := getFromCache p in
  let written := saveToCache v p in
  (exists c, snd read = Ok c) /\
  snd written = Ok tt /\
  fst read = on_storage (fun _ => storage (fst read)) p /\
  fst written = on_storage (fun _ => storage (fst written)) p /\
  readable (storage (fst read)) = readable (storage p) /\
  writable (storage (fst read)) = writable (storage p) /\
  readable (storage (fst written)) = readable (storage p) /\
  writable (storage (fst written)) = writable (storage p) /\
  (forall k, k <> CONFIG.cacheKey ->
     items (storage (fst read)) !! k = items (storage p) !! k /\
     items (storage (fst written)) !! k = items (storage p) !! k) /\
  (items (storage (fst read)) = items (storage p) \/
   items (storage (fst read)) = delete CONFIG.cacheKey (items (storage p))) /\
  (items (storage (fst written)) = items (storage p) \/
   exists text,
     items (storage (fst written)) = <[CONFIG.cacheKey := text]> (items (storage p))).
Proof.
  cbn zeta.
  destruct (getFromCache_confined p) as (s1 & c & Hget & Hr1 & Hw1 & Hi1).
  destruct (saveToCache_confined v p) as (s2 & Hsave & Hr2 & Hw2 & Hi2).
  rewrite Hget, Hsave. cbn [fst snd storage on_storage].
  split; [now exists c|]. do 7 (split; [first [reflexivity|assumption]|]).
  split; [|split].
  - intros k Hk. split.
    + destruct Hi1 as [-> | ->]; [reflexivity|]. now apply lookup_delete_ne.
    + rewrite Hi2. destruct (_ && _); [|reflexivity]. now apply lookup_insert_ne.
  - exact Hi1.
  - rewrite Hi2. destruct (_ && _); [right; eexists; reflexivity|now left].
Qed.

(** [getFromCache] on an entry that parses and is an object. *)
Lemma getFromCache_parsed
    (p : Page) (text : string) (entry : json) (timestamp : option json) :
  readable (storage p) = true ->
  items (storage p) !! CONFIG.cacheKey = Some text ->
  JSON_parse text = Ok entry ->
  get entry "timestamp" = Ok timestamp ->
  exists d,
    get entry "data" = Ok d /\
    getFromCache p =
      match ToPrimitive timestamp with
      | Throw _ => (p, Ok (Some JNull))
      | Ok _ =>
          if gt (sub (Fin (of_Z (clock (loop p)))) (ToNumber timestamp))
                (Fin (of_Z CONFIG.cacheExpiry))
          then (on_storage (fun s =>
                  {| items := delete CONFIG.cacheKey (items s);
                     readable := readable s; writable := writable s |}) p, Ok (Some JNull))
          else (p, Ok d)
      end.
Proof.
  intros Hr Hitem Hparse Hts.
  assert (Hentry : entry <> JNull) by (intros ->; discriminate Hts).
  destruct (get_not_null entry "data" Hentry) as [d Hd]. exists d. split; [exact Hd|].
  destruct p as [m [its rd wr] dm ms md doc lp]. cbn in Hr, Hitem. subst rd.
  unfold getFromCache, getItem, removeItem, Date_now. run.
  rewrite Hitem. destruct text as [|a text']; [now apply JSON_parse_empty in Hparse|].
  rewrite Hparse. run. rewrite Hts. run.
  unfold minus. destruct (ToPrimitive timestamp); run; [|reflexivity].
  destruct (gt _ _); run; [reflexivity|now rewrite Hd].
Qed.

(** X11: with the storage readable and an entry that parses.  When its
    timestamp can be converted to a number and that is not a number (the
    timestamp is missing, or not numeric), or is a number at most 24 hours
    before now, the entry is served: [getFromCache] returns its [data] and
    changes nothing; so an entry without a usable timestamp never
    expires.  When the timestamp cannot be converted (an object with a
    property [toString]), [getFromCache] returns null and changes
    nothing. *)
Theorem cache_serves_unless_stale
    (p : Page) (text : string) (entry : json) (timestamp : option json) :
  readable (storage p) = true ->
  items (storage p) !! CONFIG.cacheKey = Some text ->
  JSON_parse text = Ok entry ->
  get entry "timestamp" = Ok timestamp ->
  match ToPrimitive timestamp with
  | Ok _ =>
      match ToNumber timestamp with
      | NaN => True
      | Fin ts => ~ older_than (24 * 60 * 60 * 1000) (clock (loop p)) ts
      end ->
      exists d, get entry "data" = Ok d /\ getFromCache p = (p, Ok d)
  | Throw _ => getFromCache p = (p, Ok (Some JNull))
  end.
Proof.
  intros Hr Hitem Hparse Hts.
  destruct (getFromCache_parsed p text entry timestamp Hr Hitem Hparse Hts) as (d & Hd & ->).
  destruct (ToPrimitive timestamp); [|reflexivity].
  intros Hfresh. exists d. split; [exact Hd|].
  destruct (ToNumber timestamp) as [|ts].
  - reflexivity.
  - rewrite age_test_decimal.
    replace (_ <? _) with false; [reflexivity|].
    symmetry. apply Z.ltb_ge. unfold older_than, CONFIG.cacheExpiry in *. lia.
Qed.

End Cache.

(** X11 on a page whose entry has no timestamp, ten years later, and on
    a page whose entry has an object with a [toString] for its
    timestamp. *)
Lemma cache_serves_unless_stale_witness :
  @getFromCache Reference.platform (advance 315360000000 page_cached_untimed)
  = (advance 315360000000 page_cached_untimed, Ok (Some (json_of_catalog carta))) /\
  @getFromCache Reference.platform page_cached_odd = (page_cached_odd, Ok (Some JNull)).
Proof.
  split.
  - destruct (@cache_serves_unless_stale Reference.platform
                (advance 315360000000 page_cached_untimed)
                (Reference.stringify (JObj [("data", json_of_catalog carta)]))
                (JObj [("data", json_of_catalog carta)]) None
                eq_refl
                ltac:(vm_compute; reflexivity)
                ltac:(vm_compute; reflexivity) eq_refl I)
      as (d & Hd & Hget).
    cbn in Hd. injection Hd as <-. exact Hget.
  - exact (@cache_serves_unless_stale Reference.platform page_cached_odd
             (Reference.stringify odd_entry) odd_entry
             (Some (JObj [("toString", JNum (of_Z 1))]))
             eq_refl
             ltac:(vm_compute; reflexivity)
             ltac:(vm_compute; reflexivity) eq_refl).
Defined.

(** ** Loading, then loading again *)

Section Reload.
Context `{Platform}.

Lemma started_facts (p : Page) :
  storage (started p) = storage p /\ loop (started p) = loop p /\
  activeCategory (menu (started p)) = activeCategory (menu p) /\
  activeView (menu (started p)) = activeView (menu p) /\
  error (menu (started p)) = error (menu p).
Proof. destruct p as [m s d ms md doc lp]. repeat split. Qed.

(** A load that the network answers with a body that passes the
    validation. *)
Lemma loadMenuData_fetched (net : Fetch) (resp : Response) (v : json) (p : Page) :
  cache_miss p ->
  response net = Ok resp ->
  ok resp = true ->
  body resp = Ok v ->
  rejected v = false ->
  exists q,
    loadMenuData net p = (q, Ok v) /\
    menu q = {| data := v; activeCategory := activeCategory (menu p);
                activeView := activeView (menu p); isLoading := false; error := None |} /\
    dom q = dom (started p) /\
    clock (loop q) = clock (loop p) + response_after net + body_after resp /\
    readable (storage q) = readable (storage p) /\
    writable (storage q) = writable (storage p) /\
    (readable (storage p) = true -> writable (storage p) = true ->
     items (storage q) =
       <[CONFIG.cacheKey :=
           JSON_stringify
             (cache_entry v (clock (loop p) + response_after net + body_after resp))]>
         (items (storage p))).
Proof.
  intros Hmiss Hresp Hok Hbody Hrej.
  unfold cache_miss in Hmiss. rewrite <- cached_started in Hmiss. unfold cached in Hmiss.
  destruct (started_facts p) as (Hst & Hlp & Hcat & Hview & _).
  unfold loadMenuData, showLoading. run.
  change (getFromCache _) with (getFromCache (started p)).
  destruct (getFromCache_confined (started p)) as (s' & c & Hrun & Hr & Hw & Hi).
  rewrite Hst in Hr, Hw, Hi.
  rewrite Hrun in Hmiss |- *. cbn in Hmiss.
  assert (Hfetch : forall q, fetch net q = (advance (response_after net) q, Ok resp)).
  { intros q. unfold fetch, sleep. run. now rewrite Hresp. }
  assert (Hjson : forall q, response_json resp q = (advance (body_after resp) q, Ok v)).
  { intros q. unfold response_json, sleep. run. now rewrite Hbody. }
  unfold rejected in Hrej.
  assert (Hgo : match c with Some cached0 => truthy cached0 | None => false end = false)
    by (destruct c; exact Hmiss).
  set (X := advance (body_after resp)
              (advance (response_after net) (on_storage (fun _ => s') (started p)))).
  assert (HX : menu X = menu (started p) /\ dom X = dom (started p) /\ storage X = s' /\
               clock (loop X) = clock (loop p) + response_after net + body_after resp).
  { subst X. rewrite !advance_menu, !advance_dom, !advance_storage, !advance_clock.
    cbn [menu dom storage loop on_storage]. rewrite Hlp. repeat split. }
  destruct HX as (HXm & HXd & HXs & HXc).
  destruct (saveToCache_confined v X) as (s'' & Hsave & Hr2 & Hw2 & Hi2).
  rewrite HXs in Hr2, Hw2, Hi2. rewrite HXc in Hi2.
  exists (set_error None (set_isLoading false (set_data v (on_storage (fun _ => s'') X)))).
  split.
  { destruct c as [c|]; [cbn in Hgo; rewrite Hgo|];
      rewrite Hfetch, Hok; run; rewrite Hjson, Hrej; run; fold X; rewrite Hsave; reflexivity. }
  cbn [menu dom storage loop set_error set_isLoading set_data on_menu on_storage
       data activeCategory activeView isLoading error].
  rewrite HXm, HXd, HXc, Hcat, Hview.
  split; [reflexivity|]. split; [reflexivity|]. split; [reflexivity|].
  split; [congruence|]. split; [congruence|].
  intros Hrd Hwr. rewrite Hi2, Hr, Hw, Hrd, Hwr. cbn [andb].
  destruct Hi as [-> | ->]; [reflexivity|apply insert_delete_eq].
Qed.

(** A load that the cache answers. *)
Lemma loadMenuData_cached (net : Fetch) (c : json) (p : Page) :
  cached p = Some c ->
  truthy c = true ->
  exists q,
    loadMenuData net p = (q, Ok c) /\
    data (menu q) = c /\ isLoading (menu q) = false /\ error (menu q) = error (menu p) /\
    dom q = dom (started p).
Proof.
  intros Hhit Htruthy. rewrite <- cached_started in Hhit. unfold cached in Hhit.
  unfold loadMenuData, showLoading. run.
  change (getFromCache _) with (getFromCache (started p)).
  destruct (getFromCache_run (started p)) as (s' & c' & Hrun).
  rewrite Hrun in Hhit |- *. cbn in Hhit. subst c'. rewrite Htruthy. run.
  eexists. split; [reflexivity|]. destruct p as [m s d ms md doc lp]. repeat split.
Qed.

(** X12: after a load that the network answered and the storage kept, a
    second load, at most 24 hours later, returns the same data from the
    cache, whatever the network does then (even when it is down); the
    stored entry is assumed to parse back as it was written. *)
Theorem reload_is_served_from_cache
    (net net' : Fetch) (resp : Response) (v : json) (p : Page) (dt : Z) :
  cache_miss p ->
  readable (storage p) = true ->
  writable (storage p) = true ->
  response net = Ok resp ->
  ok resp = true ->
  body resp = Ok v ->
  rejected v = false ->
  0 <= dt <= 24 * 60 * 60 * 1000 ->
  let saved_at := clock (loop p) + response_after net + body_after resp in
  JSON_parse (JSON_stringify (cache_entry v saved_at)) = Ok (cache_entry v saved_at) ->
  let later := advance dt (fst (loadMenuData net p)) in
  snd (loadMenuData net' later) = Ok v /\
  data (menu (fst (loadMenuData net' later))) = v.
Proof.
  intros Hmiss Hrd Hwr Hresp Hok Hbody Hrej Hdt saved_at Hcodec. cbn zeta.
  destruct (loadMenuData_fetched net resp v p Hmiss Hresp Hok Hbody Hrej)
    as (q & -> & _ & _ & Hclock & Hr & Hw & Hitems).
  specialize (Hitems Hrd Hwr). fold saved_at in Hitems, Hclock. cbn [fst].
  assert (Hhit : cached (advance dt q) = Some v).
  { unfold cached.
    destruct (getFromCache_parsed (advance dt q)
                (JSON_stringify (cache_entry v saved_at)) (cache_entry v saved_at)
                (Some (JNum (of_Z saved_at)))) as (d & Hd & ->).
    - rewrite advance_storage. congruence.
    - rewrite advance_storage, Hitems. apply lookup_insert_eq.
    - exact Hcodec.
    - reflexivity.
    - unfold ToNumber. rewrite advance_clock, Hclock, age_test.
      replace (_ <? _) with false
        by (symmetry; apply Z.ltb_ge; unfold CONFIG.cacheExpiry; lia).
      cbn in Hd |- *. now injection Hd as <-. }
  assert (Htruthy : truthy v = true).
  { unfold rejected in Hrej. apply orb_false_elim in Hrej as [Ht _].
    now apply negb_false_iff in Ht. }
  destruct (loadMenuData_cached net' v (advance dt q) Hhit Htruthy) as (q' & -> & Hdata & _).
  split; [reflexivity|exact Hdata].
Qed.

End Reload.

(** X12 on the fresh page: the menu is loaded, and an hour later loaded
    again while the server answers 500. *)
Lemma reload_is_served_from_cache_witness :
  let later :=
    advance 3600000
      (fst (@loadMenuData Reference.platform (answers (json_of_catalog carta)) fresh_page)) in
  snd (@loadMenuData Reference.platform (fails_with 500) later) = Ok (json_of_catalog carta) /\
  data (menu (fst (@loadMenuData Reference.platform (fails_with 500) later)))
    = json_of_catalog carta.
Proof.
  apply (@reload_is_served_from_cache Reference.platform
           (answers (json_of_catalog carta)) (fails_with 500)
           {| status := 200; body_after := 5; body := Ok (json_of_catalog carta) |}
           (json_of_catalog carta) fresh_page 3600000).
  - reflexivity.
  - reflexivity.
  - reflexivity.
  - reflexivity.
  - reflexivity.
  - reflexivity.
  - reflexivity.
  - lia.
  - vm_compute. reflexivity.
Defined.

(** ** Start-up *)

Lemma renderFilters_run (data : json) (ks : list string) (p : Page) :
  Object_keys data = Ok ks ->
  renderFilters data p =
  (if present (menuFilters (dom p)) then on_filters (fun _ => bar_of ks) p else p, Ok tt).
Proof.
  intros Hkeys. unfold renderFilters. rewrite run_bind. unfold read at 1.
  destruct (menuFilters (dom p)) as [old|] eqn:Hbar; cbn [present negb]; [|reflexivity].
  rewrite run_bind. unfold lift at 1. rewrite Hkeys.
  rewrite !run_update_bind, append_buttons, !on_filters_twice. reflexivity.
Qed.

Lemma hideLoading_run (p : Page) :
  hideLoading p =
  (match activeView (menu p) with
   | detailed => on_grid (grid_show "grid")
   | simple => on_simple (simple_show "block")
   end (set_panels (Some true) None p), Ok tt).
Proof.
  unfold hideLoading. run.
  destruct p as [m s [g sp flt ld er] ms md doc lp]. cbn.
  destruct (activeView m); [destruct g|destruct sp]; reflexivity.
Qed.

(** What [same_outline] keeps of the elements. *)
Lemma outline_dom (p q : Page) :
  same_outline p q ->
  menuFilters (dom q) = menuFilters (dom p) /\
  loadingState (dom q) = loadingState (dom p) /\
  errorState (dom q) = errorState (dom p) /\
  grid_display <$> menuGrid (dom q) = grid_display <$> menuGrid (dom p) /\
  simple_display <$> menuSimple (dom q) = simple_display <$> menuSimple (dom p).
Proof.
  intros Hout.
  assert (Hshow : forall x,
    grid_display <$> menuGrid (dom (without_children x)) = grid_display <$> menuGrid (dom x) /\
    simple_display <$> menuSimple (dom (without_children x))
      = simple_display <$> menuSimple (dom x)).
  { intros [m s [[g|] [sp|] flt ld er] ms md doc lp]; split; reflexivity. }
  split; [exact (f_equal (fun x => menuFilters (dom x)) Hout)|].
  split; [exact (f_equal (fun x => loadingState (dom x)) Hout)|].
  split; [exact (f_equal (fun x => errorState (dom x)) Hout)|].
  destruct (Hshow p) as [<- <-], (Hshow q) as [<- <-]. unfold same_outline in Hout.
  now rewrite Hout.
Qed.

Lemma Object_keys_catalog (c : list (string * list Dish)) :
  Object_keys (json_of_catalog c) = Ok (fst <$> c).
Proof.
  unfold json_of_catalog. cbn. f_equal. rewrite <- list_fmap_compose.
  apply list_fmap_ext. now intros i [k ds] _.
Qed.

(** The page after the filter bar was rendered. *)
Lemma bar_rendered_facts (ks : list string) (q : Page) :
  let q1 := if present (menuFilters (dom q)) then on_filters (fun _ => bar_of ks) q else q in
  menu q1 = menu q /\
  menuFilters (dom q1) = (fun _ => bar_of ks) <$> menuFilters (dom q) /\
  loadingState (dom q1) = loadingState (dom q) /\
  errorState (dom q1) = errorState (dom q) /\
  menuGrid (dom q1) = menuGrid (dom q) /\
  menuSimple (dom q1) = menuSimple (dom q).
Proof.
  destruct q as [m s [g sp [flt|] ld er] ms md doc lp]; repeat split.
Qed.

(** The page after [hideLoading] in the detailed view. *)
Lemma loading_hidden_facts (q : Page) :
  let q' := on_grid (grid_show "grid") (set_panels (Some true) None q) in
  menu q' = menu q /\
  menuFilters (dom q') = menuFilters (dom q) /\
  loadingState (dom q') = (fun _ => {| hidden := true |}) <$> loadingState (dom q) /\
  errorState (dom q') = errorState (dom q) /\
  grid_display <$> menuGrid (dom q') = (fun _ => "grid") <$> menuGrid (dom q) /\
  simple_display <$> menuSimple (dom q') = simple_display <$> menuSimple (dom q) /\
  grid_nodes q' = grid_nodes q.
Proof.
  destruct q as [m s [[g|] sp flt [ld|] [[er]|]] ms md doc lp]; repeat split.
Qed.

(** The page when [loadMenuData] has shown the loading state. *)
Lemma started_dom (p : Page) :
  menuFilters (dom (started p)) = menuFilters (dom p) /\
  loadingState (dom (started p)) = (fun _ => {| hidden := false |}) <$> loadingState (dom p) /\
  errorState (dom (started p)) = (fun _ => {| hidden := true |}) <$> errorState (dom p) /\
  grid_display <$> menuGrid (dom (started p)) = (fun _ => "none") <$> menuGrid (dom p) /\
  simple_display <$> menuSimple (dom (started p)) = (fun _ => "none") <$> menuSimple (dom p) /\
  grid_children <$> menuGrid (dom (started p)) = grid_children <$> menuGrid (dom p).
Proof.
  destruct p as [m s [[g|] [sp|] flt [ld|] [er|]] ms md doc lp]; repeat split.
Qed.

Section StartUp.
Context `{Platform}.

(** X13: start-up with an empty or stale cache and a server that answers
    with a catalog (categories of distinct names), in the detailed view,
    the active category one that the catalog has or not the name of a
    member objects inherit: [initMenuLoader] stores the catalog in the
    shared state with the loading flag cleared and no error, builds the
    filter bar for the categories of the catalog (labelled with their
    capitalized names, when the capitals are characters of the model),
    fills the grid with the cards of the dishes of the active category
    and displays it, and leaves the loading panel, the error panel and
    the simple view hidden. *)
Theorem start_up_shows_menu
    (net : Fetch) (resp : Response) (c : list (string * list Dish)) (p : Page) :
  cache_miss p ->
  response net = Ok resp ->
  ok resp = true ->
  body resp = Ok (json_of_catalog c) ->
  NoDup (fst <$> c) ->
  plain_name c (default "all" (activeCategory (menu p))) ->
  activeView (menu p) = detailed ->
  let p' := fst (initMenuLoader net p) in
  menu p' =
    {| data := json_of_catalog c; activeCategory := activeCategory (menu p);
       activeView := detailed; isLoading := false; error := None |} /\
  (capitals_known c ->
   menuFilters (dom p') = (fun _ => bar_of (fst <$> c)) <$> menuFilters (dom p)) /\
  grid_nodes p' =
    (fun _ => shown_cards c (default "all" (activeCategory (menu p)))) <$> grid_nodes p /\
  grid_display <$> menuGrid (dom p') = (fun _ => "grid") <$> menuGrid (dom p) /\
  simple_display <$> menuSimple (dom p') = (fun _ => "none") <$> menuSimple (dom p) /\
  loadingState (dom p') = (fun _ => {| hidden := true |}) <$> loadingState (dom p) /\
  errorState (dom p') = (fun _ => {| hidden := true |}) <$> errorState (dom p).
Proof.
  intros Hmiss Hresp Hok Hbody Hnd Hplain Hview.
  destruct (loadMenuData_fetched net resp (json_of_catalog c) p Hmiss Hresp Hok Hbody eq_refl)
    as (q & Hload & Hmenu & Hdom & _).
  destruct (started_dom p) as (Hs1 & Hs2 & Hs3 & Hs4 & Hs5 & Hs6).
  rewrite <- Hdom in Hs1, Hs2, Hs3, Hs4, Hs5, Hs6.
  destruct (bar_rendered_facts (fst <$> c) q) as (Hb1 & Hb2 & Hb3 & Hb4 & Hb5 & Hb6).
  cbn zeta in Hb1, Hb2, Hb3, Hb4, Hb5, Hb6.
  pose proof (renderFilters_run _ _ q (Object_keys_catalog c)) as Hbar.
  set (q1 := if present (menuFilters (dom q)) then _ else q) in *. clearbody q1.
  set (category := default "all" (activeCategory (menu p))).
  assert (Hrender : exists q2,
    renderDetailedView (json_of_catalog c) (activeCategory (menu p)) q1 = (q2, Ok tt) /\
    grid_nodes q2 = (fun _ => shown_cards c category) <$> grid_nodes q1 /\
    same_outline q1 q2).
  { subst category. destruct (activeCategory (menu p)) as [cat|].
    - now apply renderDetailedView_catalog.
    - now apply (renderDetailedView_catalog c "all" q1 Hnd). }
  destruct Hrender as (q2 & Hrender & Hnodes & Hout).
  destruct (outline_dom _ _ Hout) as (Ho1 & Ho2 & Ho3 & Ho4 & Ho5).
  destruct (loading_hidden_facts q2) as (Hl1 & Hl2 & Hl3 & Hl4 & Hl5 & Hl6 & Hl7).
  cbn zeta in Hl1, Hl2, Hl3, Hl4, Hl5, Hl6, Hl7.
  assert (Hinit : initMenuLoader net p
                  = (on_grid (grid_show "grid") (set_panels (Some true) None q2), Ok tt)).
  { unfold initMenuLoader, try_catch. rewrite run_bind, Hload.
    rewrite run_bind, Hbar.
    rewrite run_bind. unfold read at 1. rewrite Hb1, Hmenu. cbn [activeCategory].
    rewrite run_bind, Hrender, hideLoading_run.
    rewrite (outline_menu _ _ Hout), Hb1, Hmenu. cbn [activeView]. rewrite Hview.
    reflexivity. }
  cbn zeta. rewrite Hinit. cbn [fst].
  set (q3 := on_grid _ (set_panels _ _ q2)) in *. clearbody q3.
  assert (Hg1 : grid_nodes q1 = grid_nodes q) by (unfold grid_nodes; now rewrite Hb5).
  assert (Hg0 : grid_nodes q = grid_nodes p) by exact Hs6.
  split; [now rewrite Hl1, (outline_menu _ _ Hout), Hb1, Hmenu, Hview|].
  split; [intros _; now rewrite Hl2, Ho1, Hb2, Hs1|].
  split.
  { rewrite Hl7, Hnodes, Hg1, Hg0. reflexivity. }
  split.
  { rewrite Hl5. destruct (menuGrid (dom q2)) eqn:Hq2, (menuGrid (dom p)) eqn:Hp;
      try reflexivity; exfalso.
    - rewrite Hb5 in Ho4. destruct (menuGrid (dom q)); discriminate.
    - rewrite Hb5 in Ho4. destruct (menuGrid (dom q)); discriminate. }
  split; [now rewrite Hl6, Ho5, Hb6, Hs5|].
  split; [rewrite Hl3, Ho2, Hb3, Hs2; now destruct (loadingState (dom p))|].
  now rewrite Hl4, Ho3, Hb4, Hs3.
Qed.

End StartUp.

(** X13 on the fresh page. *)
Lemma start_up_shows_menu_witness :
  let p' := fst (@initMenuLoader Reference.platform (answers (json_of_catalog carta)) fresh_page) in
  grid_nodes p' = Some (cards_from 0 [causa; suspiro]) /\
  menuFilters (dom p') = Some (bar_of ["entradas"; "postres"; "bebidas"]) /\
  grid_display <$> menuGrid (dom p') = Some "grid" /\
  loadingState (dom p') = Some {| hidden := true |}.
Proof.
  assert (Hnd : NoDup (fst <$> carta))
    by (apply (bool_decide_unpack _); vm_compute; reflexivity).
  destruct (@start_up_shows_menu Reference.platform (answers (json_of_catalog carta))
              {| status := 200; body_after := 5; body := Ok (json_of_catalog carta) |}
              carta fresh_page eq_refl eq_refl eq_refl eq_refl Hnd
              ltac:(intros _; reflexivity) eq_refl)
    as (_ & Hbar & Hgrid & Hshow & _ & Hload & _).
  cbn zeta. repeat split; first [assumption|apply Hbar; repeat constructor].
Defined.

(** ** Start-up on malformed data *)

(** A loop throws when its body throws for one of the elements. *)
Lemma forEach_with_throws {A V : Type} (l : list A) (f : V -> A -> JS V) (x : A) :
  x ∈ l ->
  (forall v q, exists q' e, f v x q = (q', Throw e)) ->
  forall v q, exists q' e, forEach_with l f v q = (q', Throw e).
Proof.
  intros Hin Hbad. induction l as [|y rest IH]; intros v q.
  - now apply elem_of_nil in Hin.
  - rewrite forEach_with_cons. apply elem_of_cons in Hin as [<- | Hin].
    + destruct (Hbad v q) as (q' & e & ->). now exists q', e.
    + destruct (f v y q) as [q1 [v1|e]]; [apply IH, Hin|now exists q1, e].
Qed.

Lemma own_elem (props : list (string * json)) (k : string) (v : json) :
  own props k = Some v -> k ∈ fst <$> props.
Proof.
  induction props as [|[k' v'] rest IH]; [discriminate|]. cbn.
  destruct (String.eqb_spec k' k) as [->|Hne]; intros Hv.
  - apply elem_of_cons. now left.
  - apply elem_of_cons. right. now apply IH.
Qed.

(** The detailed view throws on a category that is not a list. *)
Lemma renderDetailedView_throws
    (props : list (string * json)) (k : string) (v : json) (category : option string)
    (p : Page) :
  own props k = Some v ->
  truthy v = true ->
  (forall l, v <> JArr l) ->
  present (menuGrid (dom p)) = true ->
  default "all" category = "all" \/ default "all" category = k ->
  exists q e,
    renderDetailedView (JObj props) category p = (q, Throw e) /\ same_outline p q.
Proof.
  intros Hown Htruthy Hlist Hgrid Hcat.
  pose proof (renderDetailedView_outline (JObj props) category p) as Hout.
  enough (Hthrow : exists q e, renderDetailedView (JObj props) category p = (q, Throw e)).
  { destruct Hthrow as (q & e & Hrun). exists q, e. rewrite Hrun in Hout. now split. }
  clear Hout. unfold renderDetailedView. cbv zeta.
  rewrite run_bind. unfold read at 1. rewrite Hgrid. cbn [negb].
  rewrite run_update_bind.
  assert (Hks : exists ks, shown_categories (JObj props) (default "all" category) = Ok ks /\
                           k ∈ ks).
  { unfold shown_categories. destruct (String.eqb_spec (default "all" category) "all") as [_|Hne].
    - eexists. split; [reflexivity|]. eapply own_elem, Hown.
    - destruct Hcat as [Hall | ->]; [contradiction|].
      exists [k]. split; [reflexivity|]. apply list_elem_of_singleton. reflexivity. }
  destruct Hks as (ks & -> & Hin).
  rewrite run_bind. unfold lift at 1. rewrite run_bind.
  match goal with
  | |- context [forEach_with ks ?f 0 ?q0] =>
      assert (Hbody : forall v0 q1, exists q' e, f v0 k q1 = (q', Throw e));
      [|destruct (forEach_with_throws ks f k Hin Hbody 0 q0) as (q' & e & ->)]
  end.
  - intros i q. run. rewrite Hown. run. rewrite Htruthy. run.
    destruct v; try (eexists; eexists; reflexivity). now destruct (Hlist items0).
  - now exists q', e.
Qed.

Section Stalled.
Context `{Platform}.

(** X14: [initMenuLoader] never throws, whatever the network and the
    page. When the cache misses and the server answers with an object in
    which a category to be shown holds something that is not a list (a
    number, a string, an object), on a page with the grid, the load
    succeeds and the data is stored and cached, but the rendering of the
    grid fails and the failure is swallowed: the loading panel stays
    visible, the error panel stays hidden, the grid stays hidden, and the
    shared state records no error. *)
Theorem malformed_category_stalls_start_up
    (net : Fetch) (resp : Response) (props : list (string * json)) (k : string) (v : json)
    (p : Page) :
  let p' := fst (initMenuLoader net p) in
  snd (initMenuLoader net p) = Ok tt /\
  (cache_miss p ->
   response net = Ok resp ->
   ok resp = true ->
   body resp = Ok (JObj props) ->
   own props k = Some v ->
   truthy v = true ->
   (forall l, v <> JArr l) ->
   present (menuGrid (dom p)) = true ->
   default "all" (activeCategory (menu p)) = "all" \/
   default "all" (activeCategory (menu p)) = k ->
   data (menu p') = JObj props /\
   isLoading (menu p') = false /\
   error (menu p') = None /\
   loadingState (dom p') = (fun _ => {| hidden := false |}) <$> loadingState (dom p) /\
   errorState (dom p') = (fun _ => {| hidden := true |}) <$> errorState (dom p) /\
   grid_display <$> menuGrid (dom p') = (fun _ => "none") <$> menuGrid (dom p) /\
   (readable (storage p) = true -> writable (storage p) = true ->
    is_Some (items (storage p') !! CONFIG.cacheKey))).
Proof.
  cbn zeta. split.
  { unfold initMenuLoader, try_catch.
    match goal with |- snd (match ?m p with _ => _ end) = _ => destruct (m p) as [q [[]|e]] end;
      reflexivity. }
  intros Hmiss Hresp Hok Hbody Hown Htruthy Hlist Hgrid Hcat.
  destruct (loadMenuData_fetched net resp (JObj props) p Hmiss Hresp Hok Hbody eq_refl)
    as (q & Hload & Hmenu & Hdom & _ & _ & _ & Hitems).
  destruct (started_dom p) as (Hs1 & Hs2 & Hs3 & Hs4 & Hs5 & Hs6).
  rewrite <- Hdom in Hs1, Hs2, Hs3, Hs4, Hs5, Hs6.
  destruct (bar_rendered_facts (fst <$> props) q) as (Hb1 & Hb2 & Hb3 & Hb4 & Hb5 & Hb6).
  cbn zeta in Hb1, Hb2, Hb3, Hb4, Hb5, Hb6.
  pose proof (renderFilters_run (JObj props) (fst <$> props) q eq_refl) as Hbar.
  assert (Hstore : forall q0,
    storage (if present (menuFilters (dom q0)) then on_filters (fun _ => bar_of (fst <$> props)) q0
             else q0) = storage q0)
    by (intros q0; destruct (present (menuFilters (dom q0))); reflexivity).
  specialize (Hstore q).
  set (q1 := if present (menuFilters (dom q)) then _ else q) in *. clearbody q1.
  assert (Hgrid1 : present (menuGrid (dom q1)) = true).
  { rewrite Hb5. destruct (menuGrid (dom q)), (menuGrid (dom p)); try reflexivity; discriminate. }
  destruct (renderDetailedView_throws props k v (activeCategory (menu p)) q1
              Hown Htruthy Hlist Hgrid1 Hcat) as (q2 & e & Hrender & Hout).
  destruct (outline_dom _ _ Hout) as (Ho1 & Ho2 & Ho3 & Ho4 & Ho5).
  assert (Hinit : initMenuLoader net p = (q2, Ok tt)).
  { unfold initMenuLoader, try_catch. rewrite run_bind, Hload.
    rewrite run_bind, Hbar.
    rewrite run_bind. unfold read at 1. rewrite Hb1, Hmenu. cbn [activeCategory].
    rewrite run_bind, Hrender. reflexivity. }
  rewrite Hinit. cbn [fst snd].
  assert (Hm2 : menu q2 = menu q) by (rewrite (outline_menu _ _ Hout); exact Hb1).
  rewrite Hm2, Hmenu. cbn [data isLoading error].
  do 3 (split; [reflexivity|]).
  split; [now rewrite Ho2, Hb3, Hs2|].
  split; [now rewrite Ho3, Hb4, Hs3|].
  split; [now rewrite Ho4, Hb5, Hs4|].
  intros Hrd Hwr.
  assert (Hst2 : storage q2 = storage q).
  { transitivity (storage q1); [exact (f_equal storage Hout)|exact Hstore]. }
  rewrite Hst2, (Hitems Hrd Hwr), lookup_insert_eq. eexists. reflexivity.
Qed.

End Stalled.

(** X14 on the fresh page, with a catalog whose first category is the
    number 3. *)
Lemma malformed_category_stalls_start_up_witness :
  let p' := fst (@initMenuLoader Reference.platform (answers malformed_catalog) fresh_page) in
  snd (@initMenuLoader Reference.platform (answers malformed_catalog) fresh_page) = Ok tt /\
  loadingState (dom p') = Some {| hidden := false |} /\
  errorState (dom p') = Some {| hidden := true |} /\
  error (menu p') = None.
Proof.
  destruct (@malformed_category_stalls_start_up Reference.platform (answers malformed_catalog)
              {| status := 200; body_after := 5; body := Ok malformed_catalog |}
              [("entradas", JNum (of_Z 3)); ("postres", JArr [json_of_dish suspiro])]
              "entradas" (JNum (of_Z 3)) fresh_page)
    as (Hok & Hstall).
  destruct (Hstall eq_refl eq_refl eq_refl eq_refl eq_refl eq_refl
              ltac:(discriminate) eq_refl (or_introl eq_refl))
    as (_ & _ & Herr & Hload & Hpanel & _).
  cbn zeta. repeat split; assumption.
Defined.

(** ** The layout of the page *)

Lemma same_layout_refl (p : Page) : same_layout p p.
Proof. reflexivity. Qed.

Lemma same_layout_trans (p q r : Page) :
  same_layout p q -> same_layout q r -> same_layout p r.
Proof. unfold same_layout. congruence. Qed.

Lemma layout_without_children (p : Page) : layout (without_children p) = layout p.
Proof. destruct p as [m s [[g|] [sp|] flt ld er] ms md doc lp]; reflexivity. Qed.

Lemma outline_layout (p q : Page) : same_outline p q -> same_layout p q.
Proof.
  unfold same_outline, same_layout. intros Hout.
  rewrite <- (layout_without_children q), <- (layout_without_children p). now rewrite Hout.
Qed.

(** [applyFilter] changes neither where the views are nor which of them
    is displayed. *)
Lemma applyFilter_layout (c : option string) : keeps same_layout (applyFilter c).
Proof.
  unfold applyFilter, updateFilterButtons, scrollToMenu, announceFilterChange.
  repeat first
    [ intros p; apply outline_layout, renderDetailedView_outline
    | intros p; apply outline_layout, renderSimpleView_outline
    | apply (keeps_ret same_layout same_layout_refl)
    | apply (keeps_read same_layout same_layout_refl)
    | apply (keeps_bind same_layout same_layout_trans)
    | apply keeps_update; intros [? ? [[?|] [?|] [?|] ? ?] ? ? ? ?]; reflexivity
    | match goal with
      | |- keeps _ (if ?b then _ else _) => destruct b
      | |- keeps _ (match ?x with _ => _ end) => destruct x
      | |- forall _, _ => intro
      end ].
Qed.

(** ** Switching between the views *)

#[local] Arguments renderSimpleView : simpl never.
#[local] Arguments renderDetailedView : simpl never.
#[local] Arguments applyFilter : simpl never.

(** Unfolds the plumbing of a script of menu-views.js. *)
Ltac vrun :=
  repeat (unfold mbind, VS_bind, mret, VS_ret, vread, vupdate, liftJS, update, read,
          announceViewChange, vschedule; cbn).

Lemma updateViewButtons_run (v : string) (s : Views) :
  updateViewButtons v s = (toggles_for (String.eqb v "detailed") s, Ok tt).
Proof.
  unfold updateViewButtons, toggles_for. vrun.
  destruct (toggleDetailed s), (toggleSimple s); reflexivity.
Qed.

(** What the two page updates of a switch leave of the page. *)
Lemma view_set_facts (v : view) (g sp : string) (p : Page) :
  let p1 := on_simple (simple_show sp) (on_grid (grid_show g) (set_activeView v p)) in
  menu p1 = menu (set_activeView v p) /\
  loop p1 = loop p /\
  grid_display <$> menuGrid (dom p1) = (fun _ => g) <$> menuGrid (dom p) /\
  simple_display <$> menuSimple (dom p1) = (fun _ => sp) <$> menuSimple (dom p) /\
  grid_nodes p1 = grid_nodes p /\
  simple_nodes p1 = simple_nodes p /\
  simple_top <$> menuSimple (dom p1) = simple_top <$> menuSimple (dom p) /\
  document p1 = document p.
Proof.
  destruct p as [m s [[gr|] [smp|] flt ld er] ms md doc lp]; repeat split.
Qed.

(** [switchToSimpleView] on a page that holds a catalog, as one step. *)
Lemma switchToSimpleView_catalog (c : list (string * list Dish)) (s : Views) :
  NoDup (fst <$> c) ->
  data (menu (page s)) = json_of_catalog c ->
  present (menuGrid (dom (page s))) = true ->
  present (menuSimple (dom (page s))) = true ->
  plain_name c (default "all" (activeCategory (menu (page s)))) ->
  exists q,
    switchToSimpleView s =
      ({| page := q;
          toggleDetailed := toggleDetailed (toggles_for false s);
          toggleSimple := toggleSimple (toggles_for false s);
          grid_hidden := true; simple_hidden := false; simple_active := simple_active s;
          viewAnnouncer := Some "Vista cambiada a simple";
          viewTimers :=
            venqueue {| vdue := clock (loop (page s)) + frame (loop (page s));
                        vjob := ActivateSimple |} (viewTimers s) |}, Ok tt) /\
    menu q = menu (set_activeView simple (page s)) /\
    loop q = loop (page s) /\
    simple_nodes q =
      Some (shown_blocks c (default "all" (activeCategory (menu (page s))))) /\
    grid_display <$> menuGrid (dom q) = Some "none" /\
    simple_display <$> menuSimple (dom q) = Some "block" /\
    simple_top <$> menuSimple (dom q) = simple_top <$> menuSimple (dom (page s)) /\
    document q = document (page s).
Proof.
  intros Hnd Hdata Hgrid Hsimple Hplain.
  destruct s as [p td ts gh sh sa va vt]. cbn [page] in *.
  destruct (view_set_facts simple "none" "block" p) as (Hm & Hl & Hg & Hs & _ & Hn & Ht & Hd).
  cbn zeta in Hm, Hl, Hg, Hs, Hn, Ht, Hd.
  set (p1 := on_simple _ (on_grid _ (set_activeView simple p))) in *.
  assert (Hrender : exists q,
    renderSimpleView (json_of_catalog c) (activeCategory (menu p)) p1 = (q, Ok tt) /\
    simple_nodes q
      = (fun _ => shown_blocks c (default "all" (activeCategory (menu p))))
          <$> simple_nodes p1 /\
    same_outline p1 q).
  { destruct (activeCategory (menu p)) as [cat|].
    - now apply renderSimpleView_catalog.
    - now apply (renderSimpleView_catalog c "all" p1 Hnd). }
  destruct Hrender as (q & Hrender & Hnodes & Hout).
  assert (Hlq : loop q = loop p) by (rewrite <- Hl; exact (f_equal loop Hout)).
  exists q. split.
  - unfold switchToSimpleView, updateViewButtons, toggles_for. vrun.
    rewrite Hgrid, Hsimple. vrun.
    destruct td, ts; vrun; rewrite Hdata; vrun; fold p1; rewrite Hrender; vrun;
      rewrite Hlq; reflexivity.
  - rewrite <- Hm, <- Hl, (outline_menu _ _ Hout).
    destruct (outline_dom _ _ Hout) as (_ & _ & _ & Ho4 & Ho5).
    pose proof (f_equal (fun x => snd (fst (fst (fst x)))) (outline_layout _ _ Hout)) as Ho6.
    cbn [layout fst snd] in Ho6.
    rewrite Ho4, Ho5, Ho6, Hg, Hs, Hnodes, Hn, Ht, (outline_document _ _ Hout), Hd.
    split; [reflexivity|]. split; [exact (f_equal loop Hout)|].
    unfold simple_nodes.
    destruct (menuGrid (dom p)), (menuSimple (dom p)); try discriminate. repeat split.
Qed.


Lemma switchToDetailedView_run (s : Views) :
  present (menuGrid (dom (page s))) = true ->
  present (menuSimple (dom (page s))) = true ->
  switchToDetailedView s =
  ({| page := set_activeView detailed (page s);
      toggleDetailed := toggleDetailed (toggles_for true s);
      toggleSimple := toggleSimple (toggles_for true s);
      grid_hidden := grid_hidden s; simple_hidden := simple_hidden s;
      simple_active := false;
      viewAnnouncer := Some "Vista cambiada a detallada";
      viewTimers :=
        venqueue {| vdue := clock (loop (page s)) + 400; vjob := ShowDetailed |}
          (viewTimers s) |}, Ok tt).
Proof.
  intros Hgrid Hsimple. destruct s as [p td ts gh sh sa va vt]. cbn [page] in *.
  unfold switchToDetailedView, updateViewButtons, toggles_for. vrun.
  rewrite Hgrid, Hsimple. vrun. destruct td, ts; reflexivity.
Qed.

(** What the two page updates of the callback leave of the page. *)
Lemma detailed_shown_facts (p : Page) :
  let p1 := on_grid (grid_show "grid") (on_simple (simple_show "none") p) in
  menu p1 = menu p /\
  loop p1 = loop p /\
  grid_display <$> menuGrid (dom p1) = (fun _ => "grid") <$> menuGrid (dom p) /\
  simple_display <$> menuSimple (dom p1) = (fun _ => "none") <$> menuSimple (dom p) /\
  grid_nodes p1 = grid_nodes p.
Proof.
  destruct p as [m s [[gr|] [smp|] flt ld er] ms md doc lp]; repeat split.
Qed.

(** The callback of [switchToDetailedView] on a page that holds a
    catalog. *)
Lemma show_detailed_catalog (c : list (string * list Dish)) (s : Views) :
  NoDup (fst <$> c) ->
  data (menu (page s)) = json_of_catalog c ->
  present (menuGrid (dom (page s))) = true ->
  present (menuSimple (dom (page s))) = true ->
  plain_name c (default "all" (activeCategory (menu (page s)))) ->
  exists q,
    run_vtask ShowDetailed s =
      ({| page := q;
          toggleDetailed := toggleDetailed s; toggleSimple := toggleSimple s;
          grid_hidden := false; simple_hidden := true; simple_active := simple_active s;
          viewAnnouncer := viewAnnouncer s; viewTimers := viewTimers s |}, Ok tt) /\
    menu q = menu (page s) /\
    loop q = loop (page s) /\
    grid_nodes q = Some (shown_cards c (default "all" (activeCategory (menu (page s))))) /\
    grid_display <$> menuGrid (dom q) = Some "grid" /\
    simple_display <$> menuSimple (dom q) = Some "none".
Proof.
  intros Hnd Hdata Hgrid Hsimple Hplain.
  destruct s as [p td ts gh sh sa va vt]. cbn [page] in *.
  destruct (detailed_shown_facts p) as (Hm & Hl & Hg & Hs & Hn).
  cbn zeta in Hm, Hl, Hg, Hs, Hn.
  set (p1 := on_grid _ (on_simple _ p)) in *.
  assert (Hrender : exists q,
    renderDetailedView (json_of_catalog c) (activeCategory (menu p)) p1 = (q, Ok tt) /\
    grid_nodes q
      = (fun _ => shown_cards c (default "all" (activeCategory (menu p)))) <$> grid_nodes p1 /\
    same_outline p1 q).
  { destruct (activeCategory (menu p)) as [cat|].
    - now apply renderDetailedView_catalog.
    - now apply (renderDetailedView_catalog c "all" p1 Hnd). }
  destruct Hrender as (q & Hrender & Hnodes & Hout).
  exists q. split.
  - unfold run_vtask. vrun. rewrite Hdata. vrun. fold p1. rewrite Hrender. reflexivity.
  - rewrite <- Hm, <- Hl, (outline_menu _ _ Hout).
    destruct (outline_dom _ _ Hout) as (_ & _ & _ & Ho4 & Ho5).
    rewrite Ho4, Ho5, Hg, Hs, Hnodes, Hn.
    split; [reflexivity|]. split; [exact (f_equal loop Hout)|].
    unfold grid_nodes.
    destruct (menuGrid (dom p)), (menuSimple (dom p)); try discriminate. repeat split.
Qed.

(** *** Steps of time *)

Lemma vadvance_eq (dt : Z) (s : Views) :
  vadvance dt s =
  on_page (fun p => advance (clock (loop (page s)) + dt - clock (loop p)) p)
    (vrun_due (clock (loop (page s)) + dt) (viewTimers s) s).
Proof. reflexivity. Qed.

Lemma vrun_due_nil (t : Z) (s : Views) : vrun_due t [] s = s.
Proof. reflexivity. Qed.

Lemma vrun_due_now (t : Z) (x : vtimer) (rest : list vtimer) (s : Views) :
  vdue x <= t ->
  vrun_due t (x :: rest) s =
  vrun_due t rest
    (fst (run_vtask (vjob x)
       (set_viewTimers rest
          (on_page (fun p => advance (Z.max 0 (vdue x - clock (loop p))) p) s)))).
Proof. intros Hle. cbn. now apply Z.leb_le in Hle as ->. Qed.

Lemma vrun_due_later (t : Z) (x : vtimer) (rest : list vtimer) (s : Views) :
  t < vdue x -> vrun_due t (x :: rest) s = s.
Proof. intros Hlt. cbn. now apply Z.leb_gt in Hlt as ->. Qed.

Lemma venqueue_nil (t : vtimer) : venqueue t [] = [t].
Proof. reflexivity. Qed.

Lemma venqueue_before (t x : vtimer) (q : list vtimer) :
  vdue t < vdue x -> venqueue t (x :: q) = t :: x :: q.
Proof. intros Hlt. cbn. now apply Z.ltb_lt in Hlt as ->. Qed.

Lemma venqueue_after (t x : vtimer) (q : list vtimer) :
  vdue x <= vdue t -> venqueue t (x :: q) = x :: venqueue t q.
Proof. intros Hle. cbn. now apply Z.ltb_ge in Hle as ->. Qed.

#[local] Arguments vrun_due : simpl never.
#[local] Arguments venqueue : simpl never.


Lemma listed_rows_shown (c : list (string * list Dish)) (category : string) :
  listed_rows (shown_blocks c category) = row_of <$> shown_dishes c category.
Proof.
  unfold shown_blocks. destruct (shown_dishes c category) eqn:Hd; [reflexivity|].
  rewrite <- Hd. apply listed_rows_blocks.
Qed.

(** X15: on a page with both containers that holds a catalog
    (categories of distinct names), the active category one that the
    catalog has or not the name of a member objects inherit,
    [switchToSimpleView] sets the active view to simple, fills the
    simple view with the headings and dishes of the active category (the
    headings as in C4, when the capitals of the category names are
    characters of the model) and displays it, hides the grid, marks the
    simple toggle (and not the detailed one) active and pressed when both
    toggles exist, and announces "Vista cambiada a simple"; with no other
    callback of these scripts pending, one animation frame later the
    simple view has the class active. *)
Theorem simple_view_is_shown (c : list (string * list Dish)) (s : Views) :
  NoDup (fst <$> c) ->
  holds_catalog c s ->
  let s' := fst (switchToSimpleView s) in
  snd (switchToSimpleView s) = Ok tt /\
  activeView (menu (page s')) = simple /\
  (capitals_known c ->
   simple_nodes (page s') =
     Some (shown_blocks c (default "all" (activeCategory (menu (page s)))))) /\
  listed_rows <$> simple_nodes (page s') =
    Some (row_of <$> shown_dishes c (default "all" (activeCategory (menu (page s))))) /\
  simple_display <$> menuSimple (dom (page s')) = Some "block" /\
  simple_hidden s' = false /\
  grid_display <$> menuGrid (dom (page s')) = Some "none" /\
  grid_hidden s' = true /\
  viewAnnouncer s' = Some "Vista cambiada a simple" /\
  (toggleDetailed s', toggleSimple s') =
    (if present (toggleDetailed s) && present (toggleSimple s)
     then (Some {| tg_active := false; tg_ariaPressed := Some "false" |},
           Some {| tg_active := true; tg_ariaPressed := Some "true" |})
     else (toggleDetailed s, toggleSimple s)) /\
  (viewTimers s = [] -> 0 <= frame (loop (page s)) ->
   simple_active (vadvance (frame (loop (page s))) s') = true).
Proof.
  intros Hnd (Hdata & Hgrid & Hsimple & Hplain). cbn zeta.
  destruct (switchToSimpleView_catalog c s Hnd Hdata Hgrid Hsimple Hplain)
    as (q & -> & Hm & Hl & Hnodes & Hg & Hs & _).
  cbn [fst snd page simple_hidden grid_hidden viewAnnouncer toggleDetailed toggleSimple].
  split; [reflexivity|]. split; [now rewrite Hm|]. split; [intros _; exact Hnodes|].
  split; [rewrite Hnodes; cbn; f_equal; apply listed_rows_shown|].
  split; [exact Hs|]. split; [reflexivity|]. split; [exact Hg|]. split; [reflexivity|].
  split; [reflexivity|]. split.
  - unfold toggles_for. destruct (present (toggleDetailed s) && present (toggleSimple s));
      reflexivity.
  - intros Hidle Hframe. rewrite vadvance_eq. cbn [page viewTimers].
    rewrite Hidle, venqueue_nil, Hl.
    rewrite vrun_due_now by (cbn; lia). rewrite vrun_due_nil. reflexivity.
Qed.

(** X15 on the loaded page with its two toggles. *)
Lemma simple_view_is_shown_witness :
  let s' := fst (switchToSimpleView views_loaded) in
  simple_nodes (page s') = Some (shown_blocks carta "all") /\
  simple_display <$> menuSimple (dom (page s')) = Some "block" /\
  grid_display <$> menuGrid (dom (page s')) = Some "none" /\
  toggleSimple s' = Some {| tg_active := true; tg_ariaPressed := Some "true" |}.
Proof.
  assert (Hnd : NoDup (fst <$> carta))
    by (apply (bool_decide_unpack _); vm_compute; reflexivity).
  assert (Hdata : data (menu (page views_loaded)) = json_of_catalog carta)
    by (vm_compute; reflexivity).
  assert (Hgrid : present (menuGrid (dom (page views_loaded))) = true)
    by (vm_compute; reflexivity).
  assert (Hsimple : present (menuSimple (dom (page views_loaded))) = true)
    by (vm_compute; reflexivity).
  assert (Hcat : activeCategory (menu (page views_loaded)) = Some "all")
    by (vm_compute; reflexivity).
  assert (Hplain : plain_name carta (default "all" (activeCategory (menu (page views_loaded)))))
    by (intros _; vm_compute; reflexivity).
  destruct (simple_view_is_shown carta views_loaded Hnd
              (conj Hdata (conj Hgrid (conj Hsimple Hplain))))
    as (_ & _ & Hnodes & _ & Hs & _ & Hg & _ & _ & Htoggles & _).
  specialize (Hnodes ltac:(repeat constructor)).
  rewrite Hcat in Hnodes. cbn zeta. split; [exact Hnodes|]. split; [exact Hs|].
  split; [exact Hg|]. exact (f_equal snd Htoggles).
Defined.



(** *** A switch back before the first switch has finished *)

Lemma run_due_frame (t : Z) (q : list timer) (p : Page) :
  frame (loop (run_due t q p)) = frame (loop p).
Proof.
  revert p. induction q as [|x rest IH]; intros p; [reflexivity|].
  destruct (Z_le_gt_dec (due x) t) as [Hle|Hgt].
  - rewrite run_due_now by exact Hle. rewrite IH, loop_run_task. reflexivity.
  - rewrite run_due_later by lia. reflexivity.
Qed.

Lemma advance_frame (dt : Z) (p : Page) : frame (loop (advance dt p)) = frame (loop p).
Proof. rewrite advance_eq. cbn [loop on_loop frame]. apply run_due_frame. Qed.

Lemma holds_catalog_advance (c : list (string * list Dish)) (f : Page -> Z) (s : Views) :
  holds_catalog c s -> holds_catalog c (on_page (fun p => advance (f p) p) s).
Proof.
  unfold holds_catalog. cbn [page on_page]. now rewrite advance_menu, advance_dom.
Qed.

Lemma holds_catalog_same (c : list (string * list Dish)) (s s' : Views) :
  menu (page s') = menu (page s) ->
  present (menuGrid (dom (page s'))) = true ->
  present (menuSimple (dom (page s'))) = true ->
  holds_catalog c s -> holds_catalog c s'.
Proof.
  intros Hm Hg Hs (Hdata & _ & _ & Hplain). unfold holds_catalog. rewrite Hm.
  now repeat split.
Qed.

Lemma says_simple_advance (f : Page -> Z) (s : Views) :
  says_simple s -> says_simple (on_page (fun p => advance (f p) p) s).
Proof. unfold says_simple. cbn [page on_page]. now rewrite advance_menu. Qed.

Lemma shows_grid_advance (f : Page -> Z) (s : Views) :
  shows_grid s -> shows_grid (on_page (fun p => advance (f p) p) s).
Proof. unfold shows_grid. cbn [page on_page]. now rewrite advance_dom. Qed.

(** The callback of [switchToDetailedView], whenever it runs, shows the
    grid; it does not look at the active view. *)
Lemma show_detailed_step (c : list (string * list Dish)) (s : Views) :
  NoDup (fst <$> c) ->
  holds_catalog c s ->
  let s' := fst (run_vtask ShowDetailed s) in
  holds_catalog c s' /\ shows_grid s' /\ (says_simple s -> says_simple s') /\
  viewTimers s' = viewTimers s /\ loop (page s') = loop (page s).
Proof.
  intros Hnd (Hdata & Hgrid & Hsimple & Hplain). cbn zeta.
  destruct (show_detailed_catalog c s Hnd Hdata Hgrid Hsimple Hplain)
    as (q & -> & Hm & Hl & Hnodes & Hg & Hs).
  unfold holds_catalog, shows_grid, says_simple.
  cbn [fst page grid_hidden simple_hidden viewAnnouncer toggleDetailed toggleSimple viewTimers].
  rewrite Hm, Hg, Hs, Hdata.
  repeat split; try assumption; try tauto.
  - now destruct (menuGrid (dom q)).
  - now destruct (menuSimple (dom q)).
Qed.

Lemma activate_simple_step (s : Views) :
  fst (run_vtask ActivateSimple s) = set_simple_active true s.
Proof. reflexivity. Qed.

(** X17: on a page with both containers and both toggles that holds a
    catalog (categories of distinct names), the active category one that
    the catalog has or not the name of a member objects inherit, with no
    callback of these scripts pending,
    [switchToDetailedView] followed, less than 400 ms later, by
    [switchToSimpleView]: when the callback of the first switch runs (400
    ms after it) it displays the grid and hides the simple view, although
    the shared state, the toggles and the live region all say that the
    simple view is the active one. *)
Theorem late_callback_overrides_simple_view
    (c : list (string * list Dish)) (s : Views) (d1 d2 : Z) :
  NoDup (fst <$> c) ->
  holds_catalog c s ->
  present (toggleDetailed s) = true ->
  present (toggleSimple s) = true ->
  viewTimers s = [] ->
  0 <= frame (loop (page s)) ->
  0 <= d1 < 400 ->
  400 <= d1 + d2 ->
  let s1 := vadvance d1 (fst (switchToDetailedView s)) in
  let s2 := vadvance d2 (fst (switchToSimpleView s1)) in
  says_simple s2 /\ shows_grid s2.
Proof.
  intros Hnd (Hdata & Hgrid & Hsimple & Hplain) Htd Hts Hidle Hframe Hd1 Hd2. cbn zeta.
  rewrite (switchToDetailedView_run s Hgrid Hsimple). cbn [fst].
  rewrite (vadvance_eq d1). cbn [page viewTimers].
  rewrite Hidle, venqueue_nil.
  change (clock (loop (set_activeView detailed (page s)))) with (clock (loop (page s))).
  rewrite vrun_due_later by (cbn; lia).
  set (now := clock (loop (page s))) in *.
  (* the state when the simple toggle is clicked *)
  match goal with
  | |- context [switchToSimpleView ?s1] =>
      assert (Hs1 : holds_catalog c s1 /\ clock (loop (page s1)) = now + d1 /\
                    frame (loop (page s1)) = frame (loop (page s)) /\
                    viewTimers s1 = [{| vdue := now + 400; vjob := ShowDetailed |}] /\
                    present (toggleDetailed s1) = true /\ present (toggleSimple s1) = true);
      [|generalize dependent s1]
  end.
  { unfold holds_catalog. cbn [page on_page viewTimers toggleDetailed toggleSimple].
    rewrite advance_menu, advance_dom, advance_clock, advance_frame.
    unfold toggles_for. rewrite Htd, Hts.
    repeat split; try assumption; try reflexivity. cbn. subst now. lia. }
  intros s1 ((Hdata1 & Hgrid1 & Hsimple1 & Hplain1) & Hclock1 & Hframe1 & Hq1 & Htd1 & Hts1).
  destruct (switchToSimpleView_catalog c s1 Hnd Hdata1 Hgrid1 Hsimple1 Hplain1)
    as (q & -> & Hm & Hl & Hnodes & Hg & Hs & _).
  cbn [fst]. rewrite Hq1, Hclock1, Hframe1.
  (* the state after the second switch *)
  match goal with
  | |- context [vadvance d2 ?s2] =>
      assert (Hs2 : holds_catalog c s2 /\ says_simple s2 /\
                    clock (loop (page s2)) = now + d1) by
        (unfold holds_catalog, says_simple, toggles_for;
         cbn [page toggleDetailed toggleSimple viewAnnouncer];
         rewrite Hm, Hl, Htd1, Hts1; cbn; rewrite Hdata1;
         repeat split; try assumption; try reflexivity;
         [now destruct (menuGrid (dom q))|now destruct (menuSimple (dom q))]);
      assert (Hq2 : viewTimers s2 =
                    venqueue {| vdue := now + d1 + frame (loop (page s)); vjob := ActivateSimple |}
                      [{| vdue := now + 400; vjob := ShowDetailed |}]) by reflexivity;
      generalize dependent s2
  end.
  intros s2 (Hcat2 & Hsay2 & Hclock2) Hq2.
  rewrite vadvance_eq, Hq2, Hclock2. clear Hq2.
  assert (Hstep : forall s3, holds_catalog c s3 -> says_simple s3 ->
            let s4 := fst (run_vtask ShowDetailed s3) in
            holds_catalog c s4 /\ says_simple s4 /\ shows_grid s4).
  { intros s3 H3 Hsay3. destruct (show_detailed_step c s3 Hnd H3) as (H4 & Hshow & Hkeep & _).
    cbn zeta. auto. }
  destruct (Z_lt_ge_dec (now + d1 + frame (loop (page s))) (now + 400)) as [Hfirst|Hsecond].
  - (* the frame comes before the callback *)
    rewrite venqueue_before by (cbn; lia).
    rewrite vrun_due_now by (cbn; lia). cbn [vjob vdue]. rewrite activate_simple_step.
    rewrite vrun_due_now by (cbn; lia). cbn [vjob vdue]. rewrite vrun_due_nil.
    match goal with
    | |- context [run_vtask ShowDetailed ?s3] =>
        destruct (Hstep s3) as (_ & Hsay & Hshow)
    end.
    + apply (holds_catalog_advance c (fun p => Z.max 0 (now + 400 - clock (loop p)))).
      apply (holds_catalog_advance c
               (fun p => Z.max 0 (now + d1 + frame (loop (page s)) - clock (loop p)))).
      exact Hcat2.
    + apply (says_simple_advance (fun p => Z.max 0 (now + 400 - clock (loop p)))).
      apply (says_simple_advance
               (fun p => Z.max 0 (now + d1 + frame (loop (page s)) - clock (loop p)))).
      exact Hsay2.
    + cbn zeta in Hsay, Hshow.
      split; [apply (says_simple_advance (fun p => now + d1 + d2 - clock (loop p))), Hsay
             |apply (shows_grid_advance (fun p => now + d1 + d2 - clock (loop p))), Hshow].
  - (* the callback comes first *)
    rewrite venqueue_after by (cbn; lia). rewrite venqueue_nil.
    rewrite vrun_due_now by (cbn; lia). cbn [vjob vdue].
    match goal with
    | |- context [run_vtask ShowDetailed ?s3] =>
        destruct (Hstep s3) as (_ & Hsay & Hshow)
    end.
    + apply (holds_catalog_advance c (fun p => Z.max 0 (now + 400 - clock (loop p)))).
      exact Hcat2.
    + apply (says_simple_advance (fun p => Z.max 0 (now + 400 - clock (loop p)))).
      exact Hsay2.
    + cbn zeta in Hsay, Hshow.
      match type of Hsay with says_simple ?s4 => generalize dependent s4 end.
      intros s4 Hsay Hshow.
      destruct (Z_le_gt_dec (now + d1 + frame (loop (page s))) (now + d1 + d2)) as [Hdue|Hnot].
      * rewrite vrun_due_now by (cbn; lia). cbn [vjob vdue]. rewrite activate_simple_step.
        rewrite vrun_due_nil.
        split.
        -- apply (says_simple_advance (fun p => now + d1 + d2 - clock (loop p))).
           apply (says_simple_advance
                    (fun p => Z.max 0 (now + d1 + frame (loop (page s)) - clock (loop p)))).
           exact Hsay.
        -- apply (shows_grid_advance (fun p => now + d1 + d2 - clock (loop p))).
           apply (shows_grid_advance
                    (fun p => Z.max 0 (now + d1 + frame (loop (page s)) - clock (loop p)))).
           exact Hshow.
      * rewrite vrun_due_later by (cbn; lia).
        split; [apply (says_simple_advance (fun p => now + d1 + d2 - clock (loop p))), Hsay
               |apply (shows_grid_advance (fun p => now + d1 + d2 - clock (loop p))), Hshow].
Qed.

(** X17 on the loaded page: the detailed toggle is clicked, and 100 ms
    later the simple toggle. *)
Lemma late_callback_overrides_simple_view_witness :
  let s1 := vadvance 100 (fst (switchToDetailedView views_loaded)) in
  let s2 := vadvance 300 (fst (switchToSimpleView s1)) in
  says_simple s2 /\ shows_grid s2.
Proof.
  apply (late_callback_overrides_simple_view carta views_loaded 100 300).
  - apply (bool_decide_unpack _). vm_compute. reflexivity.
  - repeat split; vm_compute; reflexivity.
  - reflexivity.
  - reflexivity.
  - reflexivity.
  - vm_compute. discriminate.
  - lia.
  - lia.
Defined.

(** ** A filter in the simple view *)

(** X18: on a page with both containers that holds a catalog
    (categories of distinct names; the active category and the category
    of the filter each one that the catalog has or not the name of a
    member objects inherit), after [switchToSimpleView] a click on a
    filter renders the simple view (it is the active one) for the
    category of the filter (the headings as in C4, when the capitals of
    the category names are characters of the model), leaves the simple
    view displayed and the grid hidden, and scrolls to 100 pixels above
    the simple view. *)
Theorem filter_applies_to_simple_view
    (c : list (string * list Dish)) (category : string) (s : Views) :
  NoDup (fst <$> c) ->
  holds_catalog c s ->
  plain_name c category ->
  let s1 := fst (switchToSimpleView s) in
  let s2 := fst (filter_click (Some category) s1) in
  snd (filter_click (Some category) s1) = Ok tt /\
  activeCategory (menu (page s2)) = Some category /\
  activeView (menu (page s2)) = simple /\
  (capitals_known c -> simple_nodes (page s2) = Some (shown_blocks c category)) /\
  listed_rows <$> simple_nodes (page s2) = Some (row_of <$> shown_dishes c category) /\
  simple_display <$> menuSimple (dom (page s2)) = Some "block" /\
  grid_display <$> menuGrid (dom (page s2)) = Some "none" /\
  scrollTarget (document (page s2)) =
    (fun sp => simple_top sp + pageYOffset (document (page s)) - 100)
      <$> menuSimple (dom (page s)).
Proof.
  intros Hnd (Hdata & Hgrid & Hsimple & Hplain) Hcategory. cbn zeta.
  destruct (switchToSimpleView_catalog c s Hnd Hdata Hgrid Hsimple Hplain)
    as (q & -> & Hm & Hl & Hnodes & Hg & Hs & Ht & Hd).
  cbn [fst]. unfold filter_click, liftJS. cbn [page].
  assert (Hdataq : data (menu q) = json_of_catalog c) by (rewrite Hm; exact Hdata).
  assert (Hviewq : activeView (menu q) = simple) by now rewrite Hm.
  destruct (applyFilter_catalog c category q Hnd Hcategory Hdataq)
    as (q' & Hrun & _ & Hscroll & Hshown).
  pose proof (applyFilter_layout (Some category) q) as Hlay.
  destruct (applyFilter_buttons (Some category) q) as [_ Hcat].
  rewrite Hrun in Hlay, Hcat |- *. cbn [fst snd page on_page] in Hlay, Hcat |- *.
  rewrite Hviewq, Hnodes in Hshown.
  unfold same_layout, layout in Hlay.
  injection Hlay as Hl1 _ Hl3 _ _ Hl6 _.
  split; [reflexivity|]. split; [exact Hcat|]. split; [congruence|].
  split; [intros _; exact Hshown|].
  split; [rewrite Hshown; cbn; f_equal; apply listed_rows_shown|].
  split; [congruence|]. split; [congruence|].
  rewrite Hscroll, Hd. unfold menu_top.
  destruct (menuGrid (dom q)) as [g|]; [|discriminate].
  cbn in Hg. injection Hg as ->. cbn [String.eqb Ascii.eqb Bool.eqb].
  destruct (menuSimple (dom q)) as [sp|], (menuSimple (dom (page s))) as [sp0|];
    try discriminate.
  cbn in Ht |- *. injection Ht as ->. reflexivity.
Qed.

(** X18 on the loaded page: the filter "postres" in the simple view. *)
Lemma filter_applies_to_simple_view_witness :
  let s1 := fst (switchToSimpleView views_loaded) in
  let s2 := fst (filter_click (Some "postres") s1) in
  simple_nodes (page s2) = Some [Heading "Postres"; ItemList [("Suspiro", "S/ 9.50")]] /\
  scrollTarget (document (page s2)) = Some (-100).
Proof.
  assert (Hnd : NoDup (fst <$> carta))
    by (apply (bool_decide_unpack _); vm_compute; reflexivity).
  assert (Hcat : holds_catalog carta views_loaded)
    by (repeat split; vm_compute; reflexivity).
  assert (Hplain : plain_name carta "postres") by (intros Hnone; discriminate Hnone).
  destruct (filter_applies_to_simple_view carta "postres" views_loaded Hnd Hcat Hplain)
    as (_ & _ & _ & Hnodes & _ & _ & _ & Hscroll).
  specialize (Hnodes ltac:(repeat constructor)).
  cbn zeta. split; [rewrite Hnodes|rewrite Hscroll]; vm_compute; reflexivity.
Defined.

(** ** The storage helpers *)

Section StorageHelpers.
Context `{Platform}.

Lemma getLocalStorage_run (key : string) (d : json) (p : Page) :
  getLocalStorage key d p =
  (p, Ok (if readable (storage p) then
            match items (storage p) !! key with
            | None | Some "" => d
            | Some text =>
                match JSON_parse text with
                | Ok v => v
                | Throw _ => d
                end
            end
          else d)).
Proof.
  unfold getLocalStorage, getItem. run.
  destruct (readable (storage p)); run; [|reflexivity].
  destruct (items (storage p) !! key) as [[|a text]|]; run; try reflexivity.
  destruct (JSON_parse (String a text)); reflexivity.
Qed.

Lemma setLocalStorage_run (key : string) (v : json) (p : Page) :
  setLocalStorage key v p =
  if readable (storage p) && writable (storage p)
  then (on_storage (fun s => {| items := <[key := JSON_stringify v]> (items s);
                                readable := readable s; writable := writable s |}) p, Ok true)
  else (p, Ok false).
Proof.
  unfold setLocalStorage, setItem. run.
  destruct (readable (storage p) && writable (storage p)); reflexivity.
Qed.

Lemma removeLocalStorage_run (key : string) (p : Page) :
  removeLocalStorage key p =
  (if readable (storage p)
   then on_storage (fun s => {| items := delete key (items s);
                                readable := readable s; writable := writable s |}) p
   else p, Ok tt).
Proof.
  unfold removeLocalStorage, removeItem. run. destruct (readable (storage p)); reflexivity.
Qed.

(** X19: with the storage readable and writable, [setLocalStorage]
    returns true and a following [getLocalStorage] of the same key returns
    the value that was stored (which [JSON.parse] is assumed to read back
    from what [JSON.stringify] wrote), whatever the default; the values
    read under the other keys are what they were; after
    [removeLocalStorage] of the key the default is read again. *)
Theorem local_storage_round_trip (key : string) (v d : json) (p : Page) :
  readable (storage p) = true ->
  writable (storage p) = true ->
  JSON_parse (JSON_stringify v) = Ok v ->
  let stored := fst (setLocalStorage key v p) in
  snd (setLocalStorage key v p) = Ok true /\
  getLocalStorage key d stored = (stored, Ok v) /\
  (forall key', key' <> key ->
     snd (getLocalStorage key' d stored) = snd (getLocalStorage key' d p)) /\
  snd (getLocalStorage key d (fst (removeLocalStorage key stored))) = Ok d.
Proof.
  intros Hr Hw Hcodec. cbn zeta.
  rewrite setLocalStorage_run, Hr, Hw. cbn [andb fst snd].
  split; [reflexivity|].
  rewrite removeLocalStorage_run, !getLocalStorage_run.
  cbn [storage on_storage readable items fst snd]. rewrite Hr.
  cbn [storage on_storage readable items]. rewrite Hr.
  split; [|split].
  - rewrite lookup_insert_eq.
    destruct (JSON_stringify v) as [|a text] eqn:Htext;
      [now apply JSON_parse_empty in Hcodec|].
    now rewrite Hcodec.
  - intros key' Hne. rewrite !getLocalStorage_run. cbn [storage on_storage readable items snd].
    rewrite Hr, lookup_insert_ne by congruence. reflexivity.
  - now rewrite lookup_delete_eq.
Qed.

(** X20: the three helpers never throw. When the storage cannot be
    written, [setLocalStorage] returns false and changes nothing; when the
    storage cannot be read, or holds nothing (or the empty string) under
    the key, or holds a text that is not JSON, [getLocalStorage] returns
    the default; none of them changes anything but, for the first, the
    item of the key. *)
Theorem local_storage_falls_back (key : string) (v d : json) (p : Page) :
  (exists b, snd (setLocalStorage key v p) = Ok b) /\
  (exists x, getLocalStorage key d p = (p, Ok x)) /\
  snd (removeLocalStorage key p) = Ok tt /\
  (readable (storage p) && writable (storage p) = false ->
     setLocalStorage key v p = (p, Ok false)) /\
  (readable (storage p) = false -> snd (getLocalStorage key d p) = Ok d) /\
  (items (storage p) !! key = None -> snd (getLocalStorage key d p) = Ok d) /\
  (items (storage p) !! key = Some "" -> snd (getLocalStorage key d p) = Ok d) /\
  (forall text e, items (storage p) !! key = Some text -> JSON_parse text = Throw e ->
     snd (getLocalStorage key d p) = Ok d) /\
  (forall key', key' <> key ->
     items (storage (fst (setLocalStorage key v p))) !! key' = items (storage p) !! key' /\
     items (storage (fst (removeLocalStorage key p))) !! key' = items (storage p) !! key').
Proof.
  rewrite setLocalStorage_run, removeLocalStorage_run, getLocalStorage_run.
  split; [destruct (_ && _); eexists; reflexivity|].
  split; [eexists; reflexivity|]. split; [reflexivity|].
  split; [now intros ->|]. cbn [snd].
  split; [now intros ->|].
  split; [intros ->; now destruct (readable (storage p))|].
  split; [intros ->; now destruct (readable (storage p))|].
  split.
  - intros text e -> Hbad. destruct (readable (storage p)); [|reflexivity].
    destruct text; [reflexivity|]. now rewrite Hbad.
  - intros key' Hne. split.
    + destruct (_ && _); cbn [fst storage on_storage items]; [|reflexivity].
      now apply lookup_insert_ne.
    + destruct (readable (storage p)); cbn [fst storage on_storage items]; [|reflexivity].
      now apply lookup_delete_ne.
Qed.

End StorageHelpers.

(** X19 on the fresh page: a dish is stored and read back. *)
Lemma local_storage_round_trip_witness :
  let stored := fst (@setLocalStorage Reference.platform "favorito" (json_of_dish causa) fresh_page) in
  @getLocalStorage Reference.platform "favorito" JNull stored = (stored, Ok (json_of_dish causa)).
Proof.
  destruct (@local_storage_round_trip Reference.platform "favorito" (json_of_dish causa) JNull
              fresh_page eq_refl eq_refl ltac:(vm_compute; reflexivity)) as (_ & Hget & _).
  exact Hget.
Defined.

(** ** debounce and throttle *)

Section TimingProperties.
Context {Args Target : Type}.
Variable func : Args -> Target -> Target.

Lemma pass_idle (dt : Z) (w : Wrapped Args Target) :
  w_pending w = [] -> pass func dt w = set_clock (w_clock w + dt) w.
Proof. intros Hidle. unfold pass. now rewrite Hidle. Qed.

(** Before the timer is due nothing happens. *)
Lemma pass_armed_early (r dt : Z) (c : callback Args) (w : Wrapped Args Target) :
  armed r c w -> dt < r ->
  pass func dt w = set_clock (w_clock w + dt) w /\
  armed (r - dt) c (pass func dt w).
Proof.
  intros (i & Hq & Ht) Hlt. unfold pass. rewrite Hq. cbn [length run_timers].
  rewrite Hq. cbn [fires].
  destruct (Z.leb_spec (w_clock w + r) (w_clock w + dt)) as [Hle|_]; [lia|].
  split; [reflexivity|]. exists i. cbn [w_pending w_clock w_timeout set_clock].
  split; [rewrite Hq; do 2 f_equal; lia|exact Ht].
Qed.

(** When it is due, the timer of [debounce] calls the function. *)
Lemma pass_armed_later (r dt : Z) (a : Args) (w : Wrapped Args Target) :
  armed r (Later a) w -> 0 <= r <= dt ->
  pass func dt w =
  {| w_clock := w_clock w + dt; w_next := w_next w; w_pending := [];
     w_timeout := w_timeout w; w_inThrottle := w_inThrottle w;
     w_target := func a (w_target w) |}.
Proof.
  intros (i & Hq & Ht) Hle. specialize (Ht ltac:(discriminate)).
  unfold pass. rewrite Hq. cbn [length run_timers].
  rewrite Hq. cbn [fires calls].
  destruct (Z.leb_spec (w_clock w + r) (w_clock w + dt)) as [_|Hgt]; [|lia].
  unfold run_callback, clear_Timeout. cbn [w_timeout set_pending set_clock].
  rewrite Ht. cbn. rewrite <- Ht. reflexivity.
Qed.

(** When it is due, the timer of [throttle] opens the gate. *)
Lemma pass_armed_release (r dt : Z) (w : Wrapped Args Target) :
  armed r Release w -> 0 <= r <= dt ->
  pass func dt w =
  {| w_clock := w_clock w + dt; w_next := w_next w; w_pending := [];
     w_timeout := w_timeout w; w_inThrottle := false;
     w_target := w_target w |}.
Proof.
  intros (i & Hq & _) Hle.
  unfold pass. rewrite Hq. cbn [length run_timers].
  rewrite Hq. cbn [fires calls].
  destruct (Z.leb_spec (w_clock w + r) (w_clock w + dt)) as [_|Hgt]; [|lia].
  reflexivity.
Qed.

(** A call of the debounced function replaces the pending timer. *)
Lemma debounced_arms (wait : Z) (a : Args) (w : Wrapped Args Target) :
  0 <= wait ->
  w_pending w = [] \/ (exists r a0, armed r (Later a0) w) ->
  armed wait (Later a) (debounced wait a w) /\
  w_target (debounced wait a w) = w_target w /\
  w_clock (debounced wait a w) = w_clock w.
Proof.
  intros Hwait Hstate.
  assert (Hclear : w_pending (clear_Timeout (w_timeout w) w) = []).
  { destruct Hstate as [Hidle | (r & a0 & i & Hq & Ht)].
    - unfold clear_Timeout. destruct (w_timeout w); [|exact Hidle].
      cbn. now rewrite Hidle.
    - specialize (Ht ltac:(discriminate)). unfold clear_Timeout. rewrite Ht. cbn.
      rewrite Hq, filter_cons. cbn. rewrite decide_False by tauto. reflexivity. }
  unfold debounced, set_Timeout. cbn [set_timeout].
  assert (Hkeep : forall w0 : Wrapped Args Target, w_clock (clear_Timeout (w_timeout w) w0) = w_clock w0 /\
                                 w_target (clear_Timeout (w_timeout w) w0) = w_target w0 /\
                                 w_next (clear_Timeout (w_timeout w) w0) = w_next w0)
    by (intros w0; unfold clear_Timeout; destruct (w_timeout w); repeat split).
  destruct (Hkeep w) as (Hc & Htg & Hn).
  rewrite Hclear, Hc, Htg, Hn. cbn [insert_timeout].
  split; [|split; reflexivity].
  exists (w_next w). cbn [w_pending w_clock w_timeout].
  rewrite (Z.max_r 0 wait) by lia. split; reflexivity.
Qed.

Lemma armed_on_target (r : Z) (c : callback Args) (f : Target -> Target) (w : Wrapped Args Target) :
  armed r c w -> armed r c (on_target f w).
Proof. intros H. exact H. Qed.

(** A burst of calls of the debounced function, each before the timer
    of the one before is due. *)
Lemma debounced_burst (wait : Z) (rest : list (Event Args Target)) (a : Args) (w : Wrapped Args Target) :
  0 <= wait ->
  armed wait (Later a) w ->
  Forall (fun e => 0 <= after e < wait) rest ->
  let w' := foldl (dispatch func (debounced wait)) w rest in
  armed wait (Later (default a (args_of <$> last rest))) w' /\
  w_target w' = effects rest (w_target w).
Proof.
  intros Hwait. revert a w. induction rest as [|e rest IH]; intros a w Harmed Hgaps.
  - split; [exact Harmed|reflexivity].
  - apply Forall_cons in Hgaps as [Hgap Hgaps]. cbn [foldl]. cbn zeta.
    destruct (pass_armed_early wait (after e) (Later a) w Harmed) as [Hpass Hstill]; [lia|].
    assert (Hnext : armed wait (Later (args_of e)) (dispatch func (debounced wait) w e) /\
                    w_target (dispatch func (debounced wait) w e) = effect e (w_target w)).
    { unfold dispatch.
      destruct (debounced_arms wait (args_of e) (on_target (effect e) (pass func (after e) w)) Hwait)
        as (Ha & Ht & _).
      - right. exists (wait - after e), a. now apply armed_on_target.
      - split; [exact Ha|]. rewrite Ht, Hpass. reflexivity. }
    destruct Hnext as [Hnext Htarget].
    destruct (IH (args_of e) _ Hnext Hgaps) as [Hlast Heff]. cbn zeta in Hlast, Heff.
    split.
    + destruct rest as [|e' rest']; [exact Hlast|].
      rewrite last_cons. destruct (last (e' :: rest')) eqn:Hl; [exact Hlast|].
      now apply last_None in Hl.
    + rewrite Heff, Htarget. reflexivity.
Qed.

(** X21: the function that [debounce(func, wait)] returns, called in a
    burst of events that are each less than [wait] milliseconds after the
    one before, on a page with no timer pending: [func] is not called
    during the burst; once [wait] milliseconds have passed since the last
    event it has been called exactly once, with the arguments of the last
    call, on the page as the events have left it; and no timer is left. *)
Theorem debounce_runs_once_after_burst
    (wait quiet : Z) (w : Wrapped Args Target) (first : Event Args Target) (rest : list (Event Args Target)) :
  0 <= wait ->
  w_pending w = [] ->
  0 <= after first ->
  Forall (fun e => 0 <= after e < wait) rest ->
  wait <= quiet ->
  let burst := foldl (dispatch func (debounced wait)) w (first :: rest) in
  w_target burst = effects (first :: rest) (w_target w) /\
  w_target (pass func quiet burst) =
    func (default (args_of first) (args_of <$> last rest))
         (effects (first :: rest) (w_target w)) /\
  w_pending (pass func quiet burst) = [].
Proof.
  intros Hwait Hidle Hfirst Hgaps Hquiet. cbn zeta. cbn [foldl].
  assert (Hstart : armed wait (Later (args_of first)) (dispatch func (debounced wait) w first) /\
                   w_target (dispatch func (debounced wait) w first)
                   = effect first (w_target w)).
  { unfold dispatch. rewrite (pass_idle _ _ Hidle).
    destruct (debounced_arms wait (args_of first)
                (on_target (effect first) (set_clock (w_clock w + after first) w)) Hwait)
      as (Ha & Ht & _); [left; exact Hidle|].
    split; [exact Ha|exact Ht]. }
  destruct Hstart as [Hstart Htarget].
  destruct (debounced_burst wait rest (args_of first) _ Hwait Hstart Hgaps) as [Hlast Heff].
  cbn zeta in Hlast, Heff.
  assert (Hall : effects (first :: rest) (w_target w)
                 = effects rest (effect first (w_target w))) by reflexivity.
  rewrite Hall, <- Htarget, <- Heff.
  split; [reflexivity|].
  rewrite (pass_armed_later wait quiet _ _ Hlast) by lia.
  split; reflexivity.
Qed.

(** A call of the throttled function while the gate is closed does
    nothing; on an open gate it calls the function and closes the gate
    for [limit] milliseconds. *)
Lemma throttled_closed (limit : Z) (a : Args) (w : Wrapped Args Target) :
  w_inThrottle w = true -> throttled func limit a w = w.
Proof. intros Hin. unfold throttled. now rewrite Hin. Qed.

Lemma throttled_open (limit : Z) (a : Args) (w : Wrapped Args Target) :
  0 <= limit ->
  w_inThrottle w = false ->
  w_pending w = [] ->
  let w' := throttled func limit a w in
  armed limit Release w' /\ w_inThrottle w' = true /\
  w_target w' = func a (w_target w) /\ w_clock w' = w_clock w.
Proof.
  intros Hlimit Hout Hidle. cbn zeta. unfold throttled. rewrite Hout.
  cbn [set_Timeout fst on_target set_inThrottle w_pending w_clock w_next w_inThrottle
       w_target w_timeout].
  rewrite Hidle. cbn [insert_timeout].
  split; [|repeat split].
  exists (w_next w). cbn [w_pending w_clock]. rewrite (Z.max_r 0 limit) by lia.
  split; [reflexivity|intros Hc; now destruct Hc].
Qed.

Lemma gaps_nonneg (events : list (Event Args Target)) :
  Forall (fun e => 0 <= after e) events -> 0 <= foldr Z.add 0 (after <$> events).
Proof. induction 1 as [|x l Hx _ IHl]; cbn in *; lia. Qed.

(** While the gate is closed, calls are dropped. *)
Lemma throttled_burst (limit r : Z) (rest : list (Event Args Target)) (w : Wrapped Args Target) :
  armed r Release w ->
  w_inThrottle w = true ->
  Forall (fun e => 0 <= after e) rest ->
  foldr Z.add 0 (after <$> rest) < r ->
  let w' := foldl (dispatch func (throttled func limit)) w rest in
  armed (r - foldr Z.add 0 (after <$> rest)) Release w' /\
  w_inThrottle w' = true /\
  w_target w' = effects rest (w_target w).
Proof.
  revert r w. induction rest as [|e rest IH]; intros r w Harmed Hin Hgaps Hsum.
  - cbn. rewrite Z.sub_0_r. repeat split; assumption.
  - apply Forall_cons in Hgaps as [Hgap Hgaps]. rewrite fmap_cons in Hsum |- *.
    cbn [foldr foldl] in Hsum |- *. cbn zeta.
    assert (Hrest : 0 <= foldr Z.add 0 (after <$> rest)).
    { now apply gaps_nonneg. }
    destruct (pass_armed_early r (after e) Release w Harmed) as [Hpass Hstill]; [lia|].
    assert (Hstep : dispatch func (throttled func limit) w e
                    = on_target (effect e) (pass func (after e) w)).
    { unfold dispatch. apply throttled_closed. rewrite Hpass. exact Hin. }
    rewrite Hstep.
    destruct (IH (r - after e) (on_target (effect e) (pass func (after e) w)))
      as (Ha & Hi & Ht).
    + now apply armed_on_target.
    + rewrite Hpass. exact Hin.
    + exact Hgaps.
    + lia.
    + cbn zeta in Ha, Hi, Ht. split; [|split; [exact Hi|]].
      * replace (r - (after e + foldr Z.add 0 (after <$> rest)))
          with (r - after e - foldr Z.add 0 (after <$> rest)) by lia. exact Ha.
      * rewrite Ht, Hpass. reflexivity.
Qed.

(** X22: the function that [throttle(func, limit)] returns, on a page
    where the gate is open and no timer is pending: the first call of a
    burst calls [func] at once; the calls of the events that follow
    within less than [limit] milliseconds of it are dropped; and the call
    of the first event that comes more than [limit] milliseconds after
    it calls [func] again. *)
Theorem throttle_runs_first_and_drops_burst
    (limit : Z) (w : Wrapped Args Target) (first next : Event Args Target) (rest : list (Event Args Target)) :
  0 <= limit ->
  w_pending w = [] ->
  w_inThrottle w = false ->
  0 <= after first ->
  Forall (fun e => 0 <= after e) rest ->
  foldr Z.add 0 (after <$> rest) < limit ->
  limit < foldr Z.add 0 (after <$> rest) + after next ->
  let burst := foldl (dispatch func (throttled func limit)) w (first :: rest) in
  w_target burst = effects rest (func (args_of first) (effect first (w_target w))) /\
  w_target (dispatch func (throttled func limit) burst next)
    = func (args_of next) (effect next (w_target burst)).
Proof.
  intros Hlimit Hidle Hout Hfirst Hgaps Hsum Hnext. cbn zeta. cbn [foldl].
  assert (Hrest : 0 <= foldr Z.add 0 (after <$> rest)).
  { now apply gaps_nonneg. }
  assert (Hstart : let w1 := dispatch func (throttled func limit) w first in
                   armed limit Release w1 /\ w_inThrottle w1 = true /\
                   w_target w1 = func (args_of first) (effect first (w_target w))).
  { cbn zeta. unfold dispatch. rewrite (pass_idle _ _ Hidle).
    destruct (throttled_open limit (args_of first)
                (on_target (effect first) (set_clock (w_clock w + after first) w))
                Hlimit Hout Hidle) as (Ha & Hi & Ht & _).
    repeat split; assumption. }
  destruct Hstart as (Harmed & Hin & Htarget).
  destruct (throttled_burst limit limit rest _ Harmed Hin Hgaps Hsum) as (Ha & Hi & Ht).
  cbn zeta in Ha, Hi, Ht. rewrite Ht, Htarget.
  split; [reflexivity|].
  unfold dispatch at 1.
  rewrite (pass_armed_release _ _ _ Ha) by lia.
  match goal with
  | |- context [throttled func limit ?a ?w0] =>
      destruct (throttled_open limit a w0 Hlimit eq_refl eq_refl) as (_ & _ & Hrun & _)
  end.
  rewrite Hrun. cbn [on_target w_target]. now rewrite Ht, Htarget.
Qed.

End TimingProperties.

(** X21 on a log of the calls: three calls 100 ms apart with a wait of
    250 ms, then 250 ms of quiet. *)
Lemma debounce_runs_once_after_burst_witness :
  w_target (foldl (dispatch record_call (debounced 250)) (fresh_wrapper [])
              [call_after 100 "a"; call_after 100 "ar"; call_after 100 "arr"])
  = effects [call_after 100 "a"; call_after 100 "ar"; call_after 100 "arr"] [] /\
  w_target (pass record_call 250
              (foldl (dispatch record_call (debounced 250)) (fresh_wrapper [])
                 [call_after 100 "a"; call_after 100 "ar"; call_after 100 "arr"]))
  = record_call "arr" [] /\
  w_pending (pass record_call 250
               (foldl (dispatch record_call (debounced 250)) (fresh_wrapper [])
                  [call_after 100 "a"; call_after 100 "ar"; call_after 100 "arr"]))
  = [].
Proof.
  apply (debounce_runs_once_after_burst record_call 250 250 (fresh_wrapper [])
           (call_after 100 "a") [call_after 100 "ar"; call_after 100 "arr"]).
  - lia.
  - reflexivity.
  - vm_compute. discriminate.
  - repeat constructor; vm_compute; congruence.
  - lia.
Defined.

(** X22 on a log of the calls: a call, two more calls 100 ms and 200 ms
    later, and one 300 ms after the first, with a limit of 250 ms. *)
Lemma throttle_runs_first_and_drops_burst_witness :
  w_target (foldl (dispatch record_call (throttled record_call 250)) (fresh_wrapper [])
              [call_after 100 "a"; call_after 100 "b"; call_after 100 "c"])
  = record_call "a" [] /\
  w_target (dispatch record_call (throttled record_call 250)
              (foldl (dispatch record_call (throttled record_call 250)) (fresh_wrapper [])
                 [call_after 100 "a"; call_after 100 "b"; call_after 100 "c"])
              (call_after 100 "d"))
  = record_call "d" (record_call "a" []).
Proof.
  apply (throttle_runs_first_and_drops_burst record_call 250 (fresh_wrapper [])
           (call_after 100 "a") (call_after 100 "d")
           [call_after 100 "b"; call_after 100 "c"]).
  - lia.
  - reflexivity.
  - reflexivity.
  - vm_compute. discriminate.
  - repeat constructor; vm_compute; congruence.
  - vm_compute. reflexivity.
  - vm_compute. reflexivity.
Defined.

(** ** main.js: the sticky header *)

Lemma default_last_cons {A B : Type} (f : A -> B) (d : B) (x : A) (l : list A) :
  default d (f <$> last (x :: l)) = default (f x) (f <$> last l).
Proof.
  destruct l as [|y l]; [reflexivity|].
  rewrite last_cons. destruct (last (y :: l)) eqn:Hl; [reflexivity|].
  now apply last_None in Hl.
Qed.

Lemma effects_scrolls (moves : list (Z * Z)) (h : Header) :
  effects ((fun m => scroll_to m.1 m.2) <$> moves) h
  = {| scrollY := default (scrollY h) (snd <$> last moves);
       sticky_visible := sticky_visible h |}.
Proof.
  revert h. induction moves as [|m moves IH]; intros h; [now destruct h|].
  rewrite fmap_cons, default_last_cons. unfold effects in *. cbn [foldl]. rewrite IH.
  reflexivity.
Qed.

(** X23: the sticky header of the menu page.  While the window keeps
    scrolling, with less than 100 ms from one scroll event to the next,
    the header stays as it is; 100 ms after the last scroll event it is
    visible exactly when the window has come to rest more than 180 pixels
    down the page. *)
Theorem sticky_header_follows_scroll
    (w : Wrapped unit Header) (move : Z * Z) (moves : list (Z * Z)) (quiet : Z) :
  w_pending w = [] ->
  0 <= move.1 ->
  Forall (fun m => 0 <= m.1 < 100) moves ->
  100 <= quiet ->
  let scrolling :=
    foldl (dispatch updateStickyHeader handleScroll) w
      ((fun m => scroll_to m.1 m.2) <$> move :: moves) in
  let y := default move.2 (snd <$> last moves) in
  w_target scrolling = {| scrollY := y; sticky_visible := sticky_visible (w_target w) |} /\
  w_target (pass updateStickyHeader quiet scrolling)
    = {| scrollY := y; sticky_visible := 180 <? y |}.
Proof.
  intros Hidle Hfirst Hgaps Hquiet. cbn zeta. rewrite fmap_cons. cbn [foldl].
  unfold handleScroll, APP_CONFIG.scrollDebounceDelay.
  set (first := scroll_to move.1 move.2).
  set (rest := (fun m => scroll_to m.1 m.2) <$> moves).
  assert (Hstart : armed 100 (Later tt) (dispatch updateStickyHeader (debounced 100) w first) /\
                   w_target (dispatch updateStickyHeader (debounced 100) w first)
                   = effect first (w_target w)).
  { unfold dispatch. rewrite (pass_idle _ _ _ Hidle).
    destruct (debounced_arms updateStickyHeader 100 (args_of first)
                (on_target (effect first) (set_clock (w_clock w + after first) w)))
      as (Ha & Ht & _); [lia|left; exact Hidle|].
    split; [exact Ha|exact Ht]. }
  destruct Hstart as [Hstart Htarget].
  assert (Hrest : Forall (fun e : Event unit Header => 0 <= after e < 100) rest).
  { subst rest. apply Forall_fmap. exact Hgaps. }
  destruct (debounced_burst updateStickyHeader 100 rest tt _ ltac:(lia) Hstart Hrest)
    as [Hlast Heff].
  cbn zeta in Hlast, Heff.
  assert (Hnow : w_target (foldl (dispatch updateStickyHeader (debounced 100))
                             (dispatch updateStickyHeader (debounced 100) w first) rest)
                 = {| scrollY := default move.2 (snd <$> last moves);
                      sticky_visible := sticky_visible (w_target w) |}).
  { rewrite Heff, Htarget. subst rest. rewrite effects_scrolls. reflexivity. }
  split; [exact Hnow|].
  rewrite (pass_armed_later _ 100 quiet _ _ Hlast) by lia.
  cbn [w_target]. rewrite Hnow. reflexivity.
Qed.

Lemma sticky_header_follows_scroll_witness :
  w_target (foldl (dispatch updateStickyHeader handleScroll)
              page_top
              ((fun m => scroll_to m.1 m.2) <$> (0, 60) :: [(16, 120); (16, 181)]))
  = {| scrollY := default (0, 60).2 (snd <$> last [(16, 120); (16, 181)]);
       sticky_visible :=
         sticky_visible
           (w_target page_top) |} /\
  w_target (pass updateStickyHeader 100
              (foldl (dispatch updateStickyHeader handleScroll)
                 page_top
                 ((fun m => scroll_to m.1 m.2) <$> (0, 60) :: [(16, 120); (16, 181)])))
  = {| scrollY := default (0, 60).2 (snd <$> last [(16, 120); (16, 181)]);
       sticky_visible := 180 <? default (0, 60).2 (snd <$> last [(16, 120); (16, 181)]) |}.
Proof.
  apply (sticky_header_follows_scroll
           page_top
           (0, 60) [(16, 120); (16, 181)] 100).
  - reflexivity.
  - vm_compute. discriminate.
  - repeat constructor; vm_compute; congruence.
  - lia.
Defined.

(** ** main.js: the mobile navigation *)

Lemma toggle_click_consistent (n : MobileNav) :
  nav_consistent n -> nav_consistent (toggle_click n).
Proof.
  intros [Haria Hicon]. unfold nav_consistent, toggle_click.
  cbn [nav_show ariaExpanded icon]. rewrite Haria.
  destruct (nav_show n); cbn; (split; [reflexivity|]);
    destruct Hicon as [-> | ->]; cbn; auto.
Qed.

Lemma link_click_consistent (n : MobileNav) : nav_consistent (link_click n).
Proof.
  unfold nav_consistent, link_click. cbn. split; [reflexivity|].
  destruct (icon n); cbn; auto.
Qed.

(** X24: the mobile navigation.  On a page where the menu is shown
    exactly when the button says it is expanded (and the icon, if there is
    one, agrees), this is so after every sequence of clicks on the button
    and on links of the menu; on any page it is so once a link has been
    clicked.  From then on two clicks on the button restore the page. *)
Theorem mobile_nav_stays_consistent (n : MobileNav) (clicks : list nav_event) :
  nav_consistent n \/ LinkClick ∈ clicks ->
  nav_consistent (foldl nav_handle n clicks) /\
  toggle_click (toggle_click (foldl nav_handle n clicks)) = foldl nav_handle n clicks.
Proof.
  intros Hstart.
  assert (Hend : nav_consistent (foldl nav_handle n clicks)).
  { revert n Hstart. induction clicks as [|e clicks IH]; intros n Hstart.
    - destruct Hstart as [Hn|Hin]; [exact Hn|]. now apply elem_of_nil in Hin.
    - cbn [foldl]. apply IH. destruct e.
      + destruct Hstart as [Hn|Hin].
        * left. now apply toggle_click_consistent.
        * apply elem_of_cons in Hin as [Heq|Hin]; [discriminate|now right].
      + left. apply link_click_consistent. }
  split; [exact Hend|].
  revert Hend. generalize (foldl nav_handle n clicks). clear.
  intros [shown aria ic] [Haria Hicon]. cbn in *. subst aria.
  unfold toggle_click. cbn.
  destruct shown, ic as [c|]; cbn; destruct Hicon as [Hi|Hi]; try discriminate;
    try (injection Hi as ->); reflexivity.
Qed.

Lemma mobile_nav_stays_consistent_witness :
  nav_consistent
    (foldl nav_handle {| nav_show := true; ariaExpanded := None; icon := Some "fas fa-bars" |}
       [ToggleClick; LinkClick; ToggleClick]) /\
  toggle_click
    (toggle_click
       (foldl nav_handle
          {| nav_show := true; ariaExpanded := None; icon := Some "fas fa-bars" |}
          [ToggleClick; LinkClick; ToggleClick]))
  = foldl nav_handle {| nav_show := true; ariaExpanded := None; icon := Some "fas fa-bars" |}
      [ToggleClick; LinkClick; ToggleClick].
Proof.
  apply (mobile_nav_stays_consistent
           {| nav_show := true; ariaExpanded := None; icon := Some "fas fa-bars" |}
           [ToggleClick; LinkClick; ToggleClick]).
  right. apply elem_of_cons. right. apply elem_of_cons. now left.
Defined.

(** ** main.js: the active link *)






(** ** utils.js: texts *)

Lemma string_of_list_app (a b : list ascii) :
  string_of_list_ascii (a ++ b) = string_of_list_ascii a +:+ string_of_list_ascii b.
Proof.
  induction a as [|c a IH]; [reflexivity|]. cbn [app string_of_list_ascii].
  change (String c (string_of_list_ascii a) +:+ string_of_list_ascii b)
    with (String c (string_of_list_ascii a +:+ string_of_list_ascii b)).
  now rewrite IH.
Qed.

Lemma list_of_string_app (a b : string) :
  list_ascii_of_string (a +:+ b) = list_ascii_of_string a ++ list_ascii_of_string b.
Proof.
  induction a as [|c a IH]; [reflexivity|].
  change (String c a +:+ b) with (String c (a +:+ b)).
  cbn [list_ascii_of_string app]. now rewrite IH.
Qed.

Lemma length_list_of_string (s : string) :
  length (list_ascii_of_string s) = String.length s.
Proof. induction s as [|c s IH]; [reflexivity|]. cbn. now rewrite IH. Qed.

Lemma trimStart_split (l : list ascii) :
  exists lead,
    l = lead ++ trimStart l /\ Forall (fun c => is_space c = true) lead /\
    forall c, head (trimStart l) = Some c -> is_space c = false.
Proof.
  induction l as [|c l (lead & Hl & Hlead & Hhead)].
  - exists []. repeat split; [constructor|discriminate].
  - cbn [trimStart]. destruct (is_space c) eqn:Hc.
    + exists (c :: lead). repeat split.
      * cbn. now rewrite <- Hl.
      * now constructor.
      * exact Hhead.
    + exists []. repeat split; [constructor|]. intros c' [= <-]. exact Hc.
Qed.

Lemma trimStart_last (l : list ascii) (c : ascii) :
  last (trimStart l) = Some c -> last l = Some c.
Proof.
  destruct (trimStart_split l) as (lead & Hl & _ & _). intros Hlast.
  rewrite Hl. destruct (trimStart l) as [|x t] eqn:Ht; [discriminate|].
  rewrite last_app, Hlast. reflexivity.
Qed.

Lemma last_rev (l : list ascii) : last (rev l) = head l.
Proof. destruct l as [|c l]; [reflexivity|]. cbn [rev]. apply last_snoc. Qed.

Lemma trim_split (l : list ascii) :
  exists lead trail,
    l = lead ++ trim l ++ trail /\
    Forall (fun c => is_space c = true) lead /\
    Forall (fun c => is_space c = true) trail /\
    (forall c, head (trim l) = Some c -> is_space c = false) /\
    (forall c, last (trim l) = Some c -> is_space c = false).
Proof.
  destruct (trimStart_split l) as (lead & Hl & Hlead & Hhead).
  destruct (trimStart_split (rev (trimStart l))) as (trail & Hr & Htrail & Hend).
  exists lead, (rev trail). unfold trim, trimEnd.
  remember (trimStart (rev (trimStart l))) as back eqn:Hback. clear Hback.
  assert (Hmid : trimStart l = rev back ++ rev trail).
  { rewrite <- rev_app_distr, <- Hr, rev_involutive. reflexivity. }
  repeat split.
  - rewrite <- Hmid. exact Hl.
  - exact Hlead.
  - now apply List.Forall_rev.
  - intros c Hc. apply Hhead. rewrite Hmid.
    destruct (rev back) as [|y u]; [discriminate|]. exact Hc.
  - intros c Hc. apply Hend. rewrite <- last_rev. exact Hc.
Qed.

(** X26: [truncateText] returns a text of at most [length] code units
    as it is.  Of a longer text it takes the first [length] code units
    (none if [length] is negative), removes the white space at both ends
    of them and puts the suffix after what is left: the result is at most
    [length] code units and the suffix long, and what stands before the
    suffix neither begins nor ends with white space. *)
Theorem truncateText_keeps_trimmed_start (text suffix : string) (length : Z) :
  (Z.of_nat (String.length text) <= length -> truncateText text length suffix = text) /\
  (length < Z.of_nat (String.length text) ->
   exists lead kept trail rest,
     truncateText text length suffix = kept +:+ suffix /\
     text = lead +:+ kept +:+ trail +:+ rest /\
     Z.of_nat (String.length (lead +:+ kept +:+ trail)) = Z.max 0 length /\
     blank lead /\ blank trail /\ trimmed kept /\
     Z.of_nat (String.length (truncateText text length suffix))
       <= Z.max 0 length + Z.of_nat (String.length suffix)).
Proof.
  unfold truncateText. split; intros Hlen.
  - destruct (Z.leb_spec (Z.of_nat (String.length text)) length); [reflexivity|lia].
  - destruct (Z.leb_spec (Z.of_nat (String.length text)) length) as [Hle|_]; [lia|].
    set (chars := list_ascii_of_string text).
    destruct (trim_split (take (Z.to_nat length) chars))
      as (lead & trail & Hsplit & Hlead & Htrail & Hhead & Hlast).
    set (kept := trim (take (Z.to_nat length) chars)) in *.
    assert (Htext : chars = (lead ++ kept ++ trail) ++ drop (Z.to_nat length) chars)
      by (rewrite <- Hsplit; symmetry; apply take_drop).
    assert (Htaken : Z.of_nat (List.length (lead ++ kept ++ trail)) = Z.max 0 length).
    { rewrite <- Hsplit, length_take. subst chars. rewrite length_list_of_string. lia. }
    exists (string_of_list_ascii lead), (string_of_list_ascii kept),
           (string_of_list_ascii trail),
           (string_of_list_ascii (drop (Z.to_nat length) chars)).
    unfold blank, trimmed. rewrite !list_ascii_of_string_of_list_ascii.
    repeat split; try assumption.
    + rewrite <- !string_of_list_app.
      rewrite <- (string_of_list_ascii_of_string text). fold chars.
      f_equal. rewrite Htext at 1. now rewrite <- !app_assoc.
    + rewrite <- !string_of_list_app, <- length_list_of_string,
        list_ascii_of_string_of_list_ascii. exact Htaken.
    + rewrite <- !length_list_of_string, list_of_string_app, length_app,
        list_ascii_of_string_of_list_ascii.
      rewrite !length_app in Htaken. lia.
Qed.

(** *** slugify *)

Lemma slug_char_or_space (c : ascii) :
  let c' := without_diacritic (toLowerCase c) in
  is_word c' || is_space c' || Ascii.eqb c' hyphen = true ->
  slug_char c' = true \/ is_space c' = true.
Proof.
  destruct c as [[] [] [] [] [] [] [] []]; vm_compute; intros H;
    first [now left | now right | discriminate H].
Qed.

Lemma slug_char_fixed (c : ascii) :
  slug_char c = true ->
  toLowerCase c = c /\ without_diacritic c = c /\ is_space c = false /\
  is_word c || is_space c || Ascii.eqb c hyphen = true.
Proof.
  destruct c as [[] [] [] [] [] [] [] []]; vm_compute; intros H;
    first [discriminate H | repeat split].
Qed.

Lemma Forall_trimStart (P : ascii -> Prop) (l : list ascii) :
  Forall P l -> Forall P (trimStart l).
Proof.
  induction 1 as [|c l Hc Hl IH]; [constructor|].
  cbn [trimStart]. destruct (is_space c); [exact IH|now constructor].
Qed.

Lemma Forall_trim (P : ascii -> Prop) (l : list ascii) :
  Forall P l -> Forall P (trim l).
Proof.
  intros H. unfold trim, trimEnd.
  now apply List.Forall_rev, Forall_trimStart, List.Forall_rev, Forall_trimStart.
Qed.

Lemma trimStart_plain (l : list ascii) :
  Forall (fun c => is_space c = false) l -> trimStart l = l.
Proof. destruct 1 as [|c l Hc _]; [reflexivity|]. cbn. now rewrite Hc. Qed.

Lemma trim_plain (l : list ascii) :
  Forall (fun c => is_space c = false) l -> trim l = l.
Proof.
  intros H. unfold trim, trimEnd. rewrite (trimStart_plain l H).
  rewrite trimStart_plain by now apply List.Forall_rev.
  apply rev_involutive.
Qed.

Lemma runs_plain (p : ascii -> bool) (l : list ascii) (inside : bool) :
  Forall (fun c => p c = false) l -> runs_to_hyphen p inside l = l.
Proof.
  intros H. revert inside. induction H as [|c l Hc _ IH]; intros inside; [reflexivity|].
  cbn [runs_to_hyphen]. now rewrite Hc, IH.
Qed.

Lemma spaces_to_hyphen_slug (l : list ascii) (inside : bool) :
  Forall (fun c => slug_char c = true \/ is_space c = true) l ->
  Forall (fun c => slug_char c = true) (runs_to_hyphen is_space inside l).
Proof.
  intros H. revert inside. induction H as [|c l Hc _ IH]; intros inside; [constructor|].
  cbn [runs_to_hyphen]. destruct (is_space c) eqn:Hs.
  - destruct inside; [apply IH|]. constructor; [reflexivity|apply IH].
  - constructor; [|apply IH]. destruct Hc as [Hc|Hc]; [exact Hc|congruence].
Qed.

Lemma hyphens_to_hyphen_slug (l : list ascii) (inside : bool) :
  Forall (fun c => slug_char c = true) l ->
  Forall (fun c => slug_char c = true) (runs_to_hyphen (Ascii.eqb hyphen) inside l).
Proof.
  intros H. revert inside. induction H as [|c l Hc _ IH]; intros inside; [constructor|].
  cbn [runs_to_hyphen]. destruct (Ascii.eqb hyphen c).
  - destruct inside; [apply IH|]. constructor; [reflexivity|apply IH].
  - constructor; [exact Hc|apply IH].
Qed.

(** After the last replacement no two hyphens are in a row. *)
Lemma hyphens_to_hyphen_single (l : list ascii) (inside : bool) :
  double_hyphen (runs_to_hyphen (Ascii.eqb hyphen) inside l) = false /\
  (inside = true -> head (runs_to_hyphen (Ascii.eqb hyphen) inside l) <> Some hyphen).
Proof.
  revert inside. induction l as [|c l IH]; intros inside; [split; [reflexivity|discriminate]|].
  cbn [runs_to_hyphen]. destruct (Ascii.eqb hyphen c) eqn:Hc.
  - destruct (IH true) as [Hno Hhead]. destruct inside.
    + split; [exact Hno|intros _; now apply Hhead].
    + split; [|discriminate]. specialize (Hhead eq_refl).
      destruct (runs_to_hyphen (Ascii.eqb hyphen) true l) as [|b t] eqn:Hr; [reflexivity|].
      cbn [double_hyphen] in *. rewrite Hno, orb_false_r.
      destruct (Ascii.eqb_spec b hyphen) as [->|Hb]; [now destruct Hhead|].
      apply andb_false_r.
  - destruct (IH false) as [Hno _]. split.
    + destruct (runs_to_hyphen (Ascii.eqb hyphen) false l) as [|b t] eqn:Hr; [reflexivity|].
      cbn [double_hyphen] in *. rewrite Hno, orb_false_r.
      apply andb_false_iff. left. rewrite Ascii.eqb_sym. exact Hc.
    + intros _ [= ->]. now rewrite Ascii.eqb_refl in Hc.
Qed.

Lemma hyphens_to_hyphen_fixed (l : list ascii) (inside : bool) :
  double_hyphen l = false ->
  (inside = true -> head l <> Some hyphen) ->
  runs_to_hyphen (Ascii.eqb hyphen) inside l = l.
Proof.
  revert inside. induction l as [|c l IH]; intros inside Hno Hhead; [reflexivity|].
  cbn [runs_to_hyphen]. destruct (Ascii.eqb_spec hyphen c) as [<-|Hc].
  - destruct inside; [now destruct Hhead|]. f_equal. apply IH.
    + destruct l as [|b t]; [reflexivity|]. cbn [double_hyphen] in Hno.
      now apply orb_false_elim in Hno as [_ Hno].
    + intros _ Hb. destruct l as [|b t]; [discriminate|]. injection Hb as ->.
      cbn [double_hyphen] in Hno. now rewrite !Ascii.eqb_refl in Hno.
  - f_equal. apply IH; [|discriminate].
    destruct l as [|b t]; [reflexivity|]. cbn [double_hyphen] in Hno.
    now apply orb_false_elim in Hno as [_ Hno].
Qed.

(** X27: [slugify] gives a slug: only digits, small letters a to z,
    underscores and hyphens, and no two hyphens in a row; and the slug of
    a slug is the slug itself. *)
Theorem slugify_gives_slug (text : string) :
  Forall (fun c => slug_char c = true) (list_ascii_of_string (slugify text)) /\
  double_hyphen (list_ascii_of_string (slugify text)) = false /\
  slugify (slugify text) = slugify text.
Proof.
  assert (Hslug : forall t,
             Forall (fun c => slug_char c = true) (list_ascii_of_string (slugify t)) /\
             double_hyphen (list_ascii_of_string (slugify t)) = false).
  { intros t. unfold slugify. rewrite list_ascii_of_string_of_list_ascii. split.
    - apply hyphens_to_hyphen_slug, spaces_to_hyphen_slug, Forall_trim.
      apply Forall_forall. intros c Hc.
      apply list_elem_of_filter in Hc as [Hkeep Hc].
      rewrite <- list_fmap_compose in Hc. apply list_elem_of_fmap in Hc as (c0 & -> & _).
      apply slug_char_or_space. now apply Is_true_true.
    - apply hyphens_to_hyphen_single. }
  destruct (Hslug text) as [Hchars Hsingle]. split; [exact Hchars|]. split; [exact Hsingle|].
  revert Hchars Hsingle. generalize (slugify text). intros slug Hchars Hsingle.
  assert (Hplain : Forall (fun c => is_space c = false) (list_ascii_of_string slug)).
  { eapply Forall_impl; [exact Hchars|]. intros c Hc. now apply slug_char_fixed. }
  unfold slugify.
  assert (Hlower : toLowerCase <$> list_ascii_of_string slug = list_ascii_of_string slug).
  { rewrite <- (list_fmap_id (list_ascii_of_string slug)) at 2.
    apply Forall_fmap_ext_1. eapply Forall_impl; [exact Hchars|].
    intros c Hc. now apply slug_char_fixed. }
  assert (Hmarks : without_diacritic <$> list_ascii_of_string slug = list_ascii_of_string slug).
  { rewrite <- (list_fmap_id (list_ascii_of_string slug)) at 2.
    apply Forall_fmap_ext_1. eapply Forall_impl; [exact Hchars|].
    intros c Hc. now apply slug_char_fixed. }
  assert (Hkept : filter (fun c => is_word c || is_space c || Ascii.eqb c hyphen)
                    (list_ascii_of_string slug) = list_ascii_of_string slug).
  { clear -Hchars. induction Hchars as [|c l Hc _ IH]; [reflexivity|].
    rewrite filter_cons_True; [now rewrite IH|].
    apply Is_true_true. now apply slug_char_fixed. }
  rewrite Hlower, Hmarks, Hkept, (trim_plain _ Hplain), (runs_plain _ _ _ Hplain).
  rewrite hyphens_to_hyphen_fixed by (assumption || discriminate).
  apply string_of_list_ascii_of_string.
Qed.

(** *** isValidEmail *)

Lemma lang_nil_nullable (r : regex) (s : list ascii) :
  lang r s -> s = [] -> nullable r = true.
Proof.
  induction 1 as [| | |r1 r2 s1 s2 _ IH1 _ IH2|r1 r2 s _ IH|r1 r2 s _ IH| |];
    intros Hnil; try discriminate; try reflexivity.
  - apply app_eq_nil in Hnil as [-> ->]. cbn. now rewrite IH1, IH2.
  - cbn. now rewrite IH.
  - cbn. rewrite IH by assumption. apply orb_true_r.
Qed.

Lemma nullable_lang (r : regex) : nullable r = true -> lang r [].
Proof.
  induction r as [| | | |r1 IH1 r2 IH2|r1 IH1 r2 IH2|r IH]; cbn; intros H;
    try discriminate.
  - constructor.
  - apply andb_true_iff in H as [H1 H2]. apply (lang_Seq r1 r2 [] []); auto.
  - apply orb_true_iff in H as [H|H]; [apply lang_Alt_l|apply lang_Alt_r]; auto.
  - constructor.
Qed.

Lemma deriv_sound (c : ascii) (r : regex) (s : list ascii) :
  lang (deriv c r) s -> lang r (c :: s).
Proof.
  revert s. induction r as [| |ks|d|r1 IH1 r2 IH2|r1 IH1 r2 IH2|r IH]; intros s; cbn [deriv].
  - inversion 1.
  - inversion 1.
  - destruct (existsb (fun k => in_class k c) ks) eqn:Hks; inversion 1; subst.
    now constructor.
  - destruct (Ascii.eqb_spec c d) as [->|_]; inversion 1; subst. constructor.
  - assert (Hseq : lang (Seq (deriv c r1) r2) s -> lang (Seq r1 r2) (c :: s)).
    { inversion 1 as [| | |? ? s1 s2 H1 H2| | | |]; subst.
      apply (lang_Seq r1 r2 (c :: s1) s2); auto. }
    destruct (nullable r1) eqn:Hn; [|exact Hseq].
    inversion 1 as [| | | |? ? ? Hl|? ? ? Hr| |]; subst; [now apply Hseq|].
    apply (lang_Seq r1 r2 [] (c :: s)); [now apply nullable_lang|now apply IH2].
  - inversion 1; subst; [apply lang_Alt_l|apply lang_Alt_r]; auto.
  - inversion 1 as [| | |? ? s1 s2 H1 H2| | | |]; subst.
    apply (lang_Star_cons r (c :: s1) s2); auto.
Qed.

Lemma deriv_complete (c : ascii) (r : regex) (text : list ascii) :
  lang r text -> forall s, text = c :: s -> lang (deriv c r) s.
Proof.
  induction 1 as [|ks c0 Hks|c0|r1 r2 s1 s2 H1 IH1 H2 IH2|r1 r2 s0 _ IH|r1 r2 s0 _ IH
                 |r|r s1 s2 H1 IH1 H2 IH2];
    intros s Heq; cbn [deriv]; try discriminate.
  - injection Heq as -> <-. rewrite Hks. constructor.
  - injection Heq as -> <-. rewrite Ascii.eqb_refl. constructor.
  - destruct s1 as [|c1 s1].
    + cbn in Heq. rewrite (lang_nil_nullable r1 [] H1 eq_refl).
      apply lang_Alt_r. now apply IH2.
    + injection Heq as -> <-.
      assert (Hseq : lang (Seq (deriv c r1) r2) (s1 ++ s2))
        by (apply lang_Seq; [now apply IH1|exact H2]).
      destruct (nullable r1); [now apply lang_Alt_l|exact Hseq].
  - apply lang_Alt_l. now apply IH.
  - apply lang_Alt_r. now apply IH.
  - destruct s1 as [|c1 s1].
    + now apply IH2.
    + injection Heq as -> <-. apply lang_Seq; [now apply IH1|exact H2].
Qed.

Lemma regex_test_lang (r : regex) (text : string) :
  regex_test r text = true <-> lang r (list_ascii_of_string text).
Proof.
  unfold regex_test. generalize (list_ascii_of_string text). intros s.
  revert r. induction s as [|c s IH]; intros r; cbn [foldl].
  - split; [apply nullable_lang|intros H; now apply (lang_nil_nullable r [])].
  - rewrite IH. split; [apply deriv_sound|intros H; now apply (deriv_complete c r (c :: s))].
Qed.

Lemma lang_Star_NoneOf (ks : list char_class) (s : list ascii) :
  lang (Star (NoneOf ks)) s <-> Forall (fun c => existsb (fun k => in_class k c) ks = false) s.
Proof.
  split.
  - remember (Star (NoneOf ks)) as r eqn:Hr. intros H. revert Hr.
    induction H as [| | | | | |r0|r0 s1 s2 H1 _ H2 IH2]; intros Hr; try discriminate.
    + constructor.
    + injection Hr as ->. inversion H1; subst. constructor; [assumption|now apply IH2].
  - induction 1 as [|c s Hc _ IH]; [constructor|].
    apply (lang_Star_cons _ [c] s); [now constructor|exact IH].
Qed.

Lemma lang_Plus_NoneOf (ks : list char_class) (s : list ascii) :
  lang (Plus (NoneOf ks)) s <->
  s <> [] /\ Forall (fun c => existsb (fun k => in_class k c) ks = false) s.
Proof.
  unfold Plus. split.
  - inversion 1 as [| | |? ? s1 s2 H1 H2| | | |]; subst. inversion H1; subst.
    split; [discriminate|]. constructor; [assumption|now apply lang_Star_NoneOf].
  - intros [Hne Hall]. destruct Hall as [|c s Hc Hs]; [now destruct Hne|].
    apply (lang_Seq _ _ [c] s); [now constructor|now apply lang_Star_NoneOf].
Qed.

Lemma address_part_lang (s : string) :
  address_part s <-> lang (Plus (NoneOf [Space; Chr "@"])) (list_ascii_of_string s).
Proof.
  rewrite lang_Plus_NoneOf. unfold address_part.
  assert (Hne : s <> "" <-> list_ascii_of_string s <> []).
  { destruct s; cbn; split; intros H; congruence. }
  assert (Hclass : forall c : ascii,
             (is_space c = false /\ c <> "@"%char)
             <-> existsb (fun k => in_class k c) [Space; Chr "@"] = false).
  { intros c. cbn. rewrite orb_false_r, orb_false_iff.
    destruct (Ascii.eqb_spec c "@"); split; intros [H1 H2]; split; congruence. }
  rewrite Hne. split; intros [H1 H2]; (split; [exact H1|]);
    (eapply Forall_impl; [exact H2|]); intros c; apply Hclass.
Qed.

(** X28: [isValidEmail] accepts exactly the texts made of a user, an @,
    a host, a dot and an ending, where each of the three is at least one
    character long and has neither white space nor an @ in it (dots are
    allowed in all three). *)
Theorem isValidEmail_shape (email : string) :
  isValidEmail email = true <->
  exists user host ending,
    email = user +:+ "@" +:+ host +:+ "." +:+ ending /\
    address_part user /\ address_part host /\ address_part ending.
Proof.
  unfold isValidEmail. rewrite regex_test_lang. unfold email_regex. split.
  - intros Hall.
    inversion Hall as [| | |? ? s1 t1 Huser Hrest1| | | |]; subst.
    inversion Hrest1 as [| | |? ? s2 t2 Hat Hrest2| | | |]; subst.
    inversion Hrest2 as [| | |? ? s3 t3 Hhost Hrest3| | | |]; subst.
    inversion Hrest3 as [| | |? ? s4 t4 Hdot Hend| | | |]; subst.
    inversion Hat; subst. inversion Hdot; subst.
    exists (string_of_list_ascii s1), (string_of_list_ascii s3), (string_of_list_ascii t4).
    rewrite !address_part_lang, !list_ascii_of_string_of_list_ascii.
    repeat split; try assumption.
    rewrite <- (string_of_list_ascii_of_string email).
    match goal with Heq : _ = list_ascii_of_string email |- _ => rewrite <- Heq end.
    rewrite !string_of_list_app. reflexivity.
  - intros (user & host & ending & -> & Huser & Hhost & Hend).
    apply address_part_lang in Huser, Hhost, Hend.
    rewrite !list_of_string_app.
    apply lang_Seq; [exact Huser|].
    apply (lang_Seq _ _ ["@"%char]); [constructor|].
    apply lang_Seq; [exact Hhost|].
    apply (lang_Seq _ _ ["."%char]); [constructor|exact Hend].
Qed.
